(** * Earthquake-detection tutorial notebook: a shallow embedding

    The development follows [docs/tutorials/earthquake_detection.ipynb].
    The notebook is glue code over torchgeo, torch, numpy, scikit-learn and
    lightning.  Those libraries are collaborators: they appear here as the
    fields of a [Library] record, every call to them is logged together with
    its outcome, and the notebook's own statements (slices, dict accesses,
    loops, the [infer] helper, the order of the cells) are translated line by
    line into a state-and-exception monad over the notebook's global
    variables. *)

From Stdlib Require Import ZArith Lia.
From stdpp Require Import gmap strings list fin_maps sorting.

Local Open Scope Z_scope.

(** ** Binary64 arithmetic used by [int(len(data) * PCT_SAMPLES)]

    Only non-negative finite values occur (a list length times [0.1]), so a
    value is a pair mantissa/exponent denoting [mant * 2 ^ expo].  Results are
    rounded to 53 significant bits, to nearest, ties to even.  The exponent
    range of binary64 is not bounded here: a Python list length is below
    [2 ^ 63], far from overflow and underflow. *)
Module Float64.

Record t : Type := mk { mant : Z; expo : Z }.

Definition prec : Z := 53.

(** Number of low bits of the integer [m] that do not fit in the
    significand. *)
Definition dropped (m : Z) : Z := Z.max 0 (Z.log2 m + 1 - prec).

(** [m / 2 ^ d] rounded to nearest, ties to even. *)
Definition nearest_even (m d : Z) : Z :=
  let q := m / 2 ^ d in
  let r := m mod 2 ^ d in
  if 2 * r <? 2 ^ d then q
  else if 2 ^ d <? 2 * r then q + 1
  else if Z.even q then q else q + 1.

(** The binary64 value nearest to the exact value [m * 2 ^ e]. *)
Definition round (m e : Z) : t :=
  let d := dropped m in
  if d =? 0 then mk m e else mk (nearest_even m d) (e + d).

(** [float(n)] for a Python int [n >= 0]. *)
Definition of_int (n : Z) : t := round n 0.

(** [x * y]: the exact product, rounded once. *)
Definition mul (x y : t) : t := round (mant x * mant y) (expo x + expo y).

(** [int(x)]: truncation, which is the floor of a non-negative value. *)
Definition to_int (x : t) : Z :=
  if 0 <=? expo x then mant x * 2 ^ expo x else mant x / 2 ^ (- expo x).

End Float64.

(** The literal [0.1] is the double [0x1.999999999999ap-4]. *)
Definition PCT_SAMPLES : Float64.t := Float64.mk 7205759403792794 (-56).

(** [int(len(data) * PCT_SAMPLES)] *)
Definition subsample_len (n : Z) : Z :=
  Float64.to_int (Float64.mul (Float64.of_int n) PCT_SAMPLES).

(** [data[: int(len(data) * PCT_SAMPLES)]].  The stop index of the slice is
    never negative here, so the slice keeps the first [stop] elements (all of
    them when [stop] exceeds the length). *)
Definition subsample {A : Type} (data : list A) : list A :=
  take (Z.to_nat (subsample_len (Z.of_nat (length data)))) data.

(** ** Python values the notebook handles itself *)

(** Exceptions, by class.  Library calls may raise any of them. *)
Inductive exn : Type :=
| KeyError (key : string)
| AttributeError (attr : string)
| NameError (name : string)
| TypeError (msg : string)
| ValueError (msg : string)
| RuntimeError (msg : string)
| OtherError (cls msg : string).

Inductive result (A : Type) : Type :=
| Ok (a : A)
| Raise (e : exn).
Arguments Ok {A} a.
Arguments Raise {A} e.

Definition error_of {A : Type} (r : result A) : option exn :=
  match r with Ok _ => None | Raise e => Some e end.

(** A Python [dict] whose iteration order is observed: keys in insertion
    order, no duplicates. *)
Definition dict (V : Type) : Type := list (string * V).

Fixpoint dict_get {V : Type} (k : string) (d : dict V) : option V :=
  match d with
  | [] => None
  | (k', v) :: d' => if String.eqb k' k then Some v else dict_get k d'
  end.

Definition dict_keys {V : Type} (d : dict V) : list string := d.*1.

(** [d[k].append(x)] on a [defaultdict(list)]: a missing key is first bound
    to the empty list, at the end of the insertion order. *)
Fixpoint defaultdict_append {V : Type} (k : string) (x : V)
    (d : dict (list V)) : dict (list V) :=
  match d with
  | [] => [(k, [x])]
  | (k', v) :: d' =>
      if String.eqb k' k then (k', v ++ [x]) :: d'
      else (k', v) :: defaultdict_append k x d'
  end.

(** The list a key is bound to, empty when the key is missing. *)
Definition items_of {V : Type} (k : string) (d : dict (list V)) : list V :=
  default [] (dict_get k d).

(** The library functions the notebook calls without looking at their
    arguments or results. *)
Inductive api : Type :=
| tempfile_gettempdir | Path_new | Path_truediv
| QuakeSetDataModule_new | prepare_data | setup_fit | setup_test
| val_dataset_getitem | plot
| cuda_is_available
| resnet50_new | module_to (device : string) | module_eval
| train_dataloader | test_dataloader
| tensor_to (device : string) | tensor_cpu | tensor_numpy
| RandomForestClassifier_new
| ClassificationTask_new | ModelCheckpoint_new | CSVLogger_new | Trainer_new
| trainer_fit | trainer_test.

(** The cell of parameters, with the values of the notebook and the ones the
    smoke test substitutes. *)
Record Params : Type := {
  num_workers : Z;
  batch_size : Z;
  max_epochs : Z;
  fast_dev_run : bool
}.

Definition notebook_params : Params :=
  {| num_workers := 1; batch_size := 4; max_epochs := 10; fast_dev_run := false |}.

Definition mock_params : Params :=
  {| num_workers := 0; batch_size := 1; max_epochs := 1; fast_dev_run := true |}.

(** The eight steps the tutorial goes through, in its order. *)
Inductive step : Type :=
| Download | Setup | Plot | Infer
| FitClassical | EvalClassical | FitDeep | EvalDeep.

Definition step_rank (s : step) : nat :=
  match s with
  | Download => 0 | Setup => 1 | Plot => 2 | Infer => 3
  | FitClassical => 4 | EvalClassical => 5 | FitDeep => 6 | EvalDeep => 7
  end%nat.

(** A batch of the data loaders: [batch['image']] is an [N x 4 x H x W]
    tensor, kept as the list of its [N] images, each the list of its channel
    planes; [batch['label']] is the tensor of the [N] labels. *)
Record Batch (Chan Label : Type) : Type := {
  image : list (list Chan);
  label : list Label
}.
Arguments image {Chan Label} b.
Arguments label {Chan Label} b.

(** ** The collaborators

    What the libraries do is not authored in the notebook.  A [Library] gives,
    for one execution of the notebook, the types of the opaque values and the
    outcome of every call.  Tensors are mutable: the transform, which the
    notebook hands views of a tensor it holds, may write into them.  The
    tensors and arrays a call returns are taken to be new ones. *)
Record Library : Type := {
  Chan : Type;        (* one channel plane of an image *)
  Scalar : Type;      (* one number of an embedding *)
  Label : Type;       (* one label *)
  Sample : Type;      (* one element of a dataset's [data] list *)
  Weights : Type;     (* parameters and buffers of the ResNet *)
  Classifier : Type;  (* a fitted random forest *)
  (** exception raised by a call of which the notebook ignores the result *)
  raises : api -> option exn;
  (** [data] lists of the datasets created by [setup('fit')]: train, val *)
  datasets_fit : list Sample * list Sample;
  (** [data] list of the dataset created by [setup('test')] *)
  dataset_test : list Sample;
  (** [dataset[i]] on a dataset holding this [data] list *)
  getitem : list Sample -> Z -> result Sample;
  (** [torch.cuda.is_available()] *)
  is_available : bool;
  (** weights loaded by [resnet50(ResNet50_Weights.SENTINEL1_ALL_MOCO)] *)
  pretrained : Weights;
  (** [ResNet50_Weights.SENTINEL1_ALL_MOCO.transforms], called on a dict *)
  model_transform : gmap string (list (list Chan)) ->
                    result (gmap string (list (list Chan)));
  (** what a call of the transform leaves in the tensor it is passed under
      "image", since a transform may work in place: for the dict passed, the
      new value of plane [c] of item [i], given the old one; writing keeps
      the shape of the tensor *)
  transform_writes : gmap string (list (list Chan)) ->
                     nat -> nat -> Chan -> Chan;
  (** the forward pass of the module: weights, [training] flag, whether
      gradients are tracked, input; it gives the output rows and the weights
      and buffers the module holds afterwards *)
  forward : Weights -> bool -> bool -> list (list Chan) ->
            result (list (list Scalar)) * Weights;
  (** [datamodule.train_dataloader()] or [datamodule.test_dataloader()] for
      a batch size, a worker count and the [data] list of the dataset (absent
      before [setup]): an exception, or a loader whose iteration yields
      finitely many batches and then ends normally or with an exception *)
  batches : api -> Z -> Z -> option (list Sample) ->
            result (list (Batch Chan Label) * option exn);
  (** scikit-learn: [clf.fit(X, y)], [clf.predict(X)] and
      [classification_report(y_true, y_pred)] *)
  fit : list (list Scalar) -> list Label -> result Classifier;
  predict : Classifier -> list (list Scalar) -> result (list Label);
  classification_report : list Label -> list Label -> result string
}.

Section Notebook.

Context (lib : Library).

Local Abbreviation Image := (list (Chan lib)).
Local Abbreviation Row := (list (Scalar lib)).

(** The ResNet module: [.eval()] clears [training]. *)
Record Module : Type := {
  weights : Weights lib;
  training : bool
}.

(** A library call as it appears in the log. *)
Inductive call : Type :=
| Call (f : api)
| Next (loader : api)
| Transform (d : gmap string (list Image))
| Forward (is_training grad : bool) (x : list Image)
| Concat (a b : list Row)
| Stack (v : list Row)
| Array (v : list (Label lib))
| Fit (X : list Row) (y : list (Label lib))
| Predict (X : list Row)
| Report (y_true y_pred : list (Label lib))
| Print (s : string).

(** A logged call with the exception it raised, if any. *)
Definition entry : Type := call * option exn.

(** The mutable objects of the notebook and of torch's global state. *)
Record World : Type := {
  train_data : option (list (Sample lib));  (* datamodule.train_dataset.data *)
  val_data : option (list (Sample lib));    (* datamodule.val_dataset.data *)
  test_data : option (list (Sample lib));   (* datamodule.test_dataset.data *)
  rn_model : option Module;
  grad_enabled : bool;
  embeddings : dict (list Row);
  labels : dict (list (Label lib));
  img : list Image;   (* the tensor bound to [img] by the last call of [infer] *)
  log : list entry
}.

Definition set_train_data v w :=
  {| train_data := v; val_data := val_data w; test_data := test_data w;
     rn_model := rn_model w; grad_enabled := grad_enabled w;
     embeddings := embeddings w; labels := labels w; img := img w;
     log := log w |}.
Definition set_val_data v w :=
  {| train_data := train_data w; val_data := v; test_data := test_data w;
     rn_model := rn_model w; grad_enabled := grad_enabled w;
     embeddings := embeddings w; labels := labels w; img := img w;
     log := log w |}.
Definition set_test_data v w :=
  {| train_data := train_data w; val_data := val_data w; test_data := v;
     rn_model := rn_model w; grad_enabled := grad_enabled w;
     embeddings := embeddings w; labels := labels w; img := img w;
     log := log w |}.
Definition set_rn_model v w :=
  {| train_data := train_data w; val_data := val_data w;
     test_data := test_data w;
     rn_model := v; grad_enabled := grad_enabled w;
     embeddings := embeddings w; labels := labels w; img := img w;
     log := log w |}.
Definition set_grad_enabled v w :=
  {| train_data := train_data w; val_data := val_data w;
     test_data := test_data w;
     rn_model := rn_model w; grad_enabled := v;
     embeddings := embeddings w; labels := labels w; img := img w;
     log := log w |}.
Definition set_embeddings v w :=
  {| train_data := train_data w; val_data := val_data w;
     test_data := test_data w;
     rn_model := rn_model w; grad_enabled := grad_enabled w;
     embeddings := v; labels := labels w; img := img w; log := log w |}.
Definition set_labels v w :=
  {| train_data := train_data w; val_data := val_data w;
     test_data := test_data w;
     rn_model := rn_model w; grad_enabled := grad_enabled w;
     embeddings := embeddings w; labels := v; img := img w; log := log w |}.
Definition set_img v w :=
  {| train_data := train_data w; val_data := val_data w;
     test_data := test_data w;
     rn_model := rn_model w; grad_enabled := grad_enabled w;
     embeddings := embeddings w; labels := labels w; img := v;
     log := log w |}.
Definition set_log v w :=
  {| train_data := train_data w; val_data := val_data w;
     test_data := test_data w;
     rn_model := rn_model w; grad_enabled := grad_enabled w;
     embeddings := embeddings w; labels := labels w; img := img w;
     log := v |}.

(** The state before the first cell: nothing is set up, torch tracks
    gradients, nothing has been called. *)
Definition initial : World :=
  {| train_data := None; val_data := None; test_data := None;
     rn_model := None; grad_enabled := true;
     embeddings := []; labels := []; img := []; log := [] |}.

(** ** Statements: state passing with exceptions *)
Definition M (A : Type) : Type := World -> result A * World.

Definition ret {A : Type} (a : A) : M A := fun w => (Ok a, w).

(** Sequencing stops at the first exception; nothing catches one. *)
Definition bind {A B : Type} (m : M A) (k : A -> M B) : M B :=
  fun w =>
    match m w with
    | (Ok a, w') => k a w'
    | (Raise e, w') => (Raise e, w')
    end.

Definition raise {A : Type} (e : exn) : M A := fun w => (Raise e, w).

Definition get : M World := fun w => (Ok w, w).

Definition modify (f : World -> World) : M unit := fun w => (Ok tt, f w).


Notation "x <- c1 ;; c2" := (bind c1 (fun x => c2))
  (at level 20, c1 at level 99, c2 at level 200, only parsing).
Notation "c1 ;; c2" := (bind c1 (fun _ => c2))
  (at level 100, c2 at level 200, only parsing, right associativity).

(** Every library call is appended to the log with its outcome. *)
Definition lib_call {A : Type} (c : call) (r : result A) : M A :=
  fun w => (r, set_log (log w ++ [(c, error_of r)]) w).

(** A call of which only the outcome matters to the notebook. *)
Definition opaque (f : api) : M unit :=
  lib_call (Call f)
    (match raises lib f with Some e => Raise e | None => Ok tt end).

(** [d[k]] on a dict. *)
Definition subscript {V : Type} (d : dict V) (k : string) : M V :=
  match dict_get k d with
  | Some v => ret v
  | None => raise (KeyError k)
  end.

(** [dataset.data] where [dataset] is an attribute of the data module that
    is [None] until [setup] creates it. *)
Definition dataset_data (d : option (list (Sample lib))) : M (list (Sample lib)) :=
  match d with
  | Some data => ret data
  | None => raise (AttributeError "data")
  end.

(** [for x in xs: body(x)] over a Python list. *)
Fixpoint for_each {A : Type} (xs : list A) (body : A -> M unit) : M unit :=
  match xs with
  | [] => ret tt
  | x :: xs' => body x ;; for_each xs' body
  end.

(** [for batch in loader: body(batch)]: each batch is fetched by a call to
    the loader's iterator; the iteration ends normally or the iterator
    raises. *)
Fixpoint for_loader (loader : api) (bs : list (Batch (Chan lib) (Label lib)))
    (ending : option exn) (body : Batch (Chan lib) (Label lib) -> M unit)
    : M unit :=
  match bs with
  | [] =>
      match ending with
      | None => ret tt
      | Some e => lib_call (Next loader) (Raise e)
      end
  | b :: bs' =>
      lib_call (Next loader) (Ok tt) ;;
      body b ;;
      for_loader loader bs' ending body
  end.

(** [{k: f(v) for k, v in d.items()}] *)
Fixpoint dict_comprehension {V V' : Type} (f : V -> M V') (d : dict V)
    : M (dict V') :=
  match d with
  | [] => ret []
  | (k, v) :: d' =>
      v' <- f v ;;
      rest <- dict_comprehension f d' ;;
      ret ((k, v') :: rest)
  end.

(** [with torch.no_grad(): body].  Gradient tracking is switched off for the
    body and the previous mode is restored on the way out, also when the body
    raises; the exception is not swallowed. *)
Definition no_grad {A : Type} (body : M A) : M A :=
  fun w =>
    let prev := grad_enabled w in
    let '(r, w') := body (set_grad_enabled false w) in
    (r, set_grad_enabled prev w').

(** ** torch and numpy operations on values *)

(** [x[:, :k]] and [x[:, k:]]: the slice is taken along the second axis, in
    every item of the first. *)
Definition slice_to {A : Type} (k : nat) (x : list (list A)) : list (list A) :=
  map (take k) x.

Definition slice_from {A : Type} (k : nat) (x : list (list A)) : list (list A) :=
  map (drop k) x.

(** Writing through the views [x[:, :k]] and [x[:, k:]]: [f i c] gives the
    new value of plane [c] of item [i] of the view from the old one; the
    planes outside the view are out of reach. *)
Definition write_to {A : Type} (k : nat) (f : nat -> nat -> A -> A)
    (x : list (list A)) : list (list A) :=
  imap (fun i im => imap (f i) (take k im) ++ drop k im) x.

Definition write_from {A : Type} (k : nat) (f : nat -> nat -> A -> A)
    (x : list (list A)) : list (list A) :=
  imap (fun i im => take k im ++ imap (f i) (drop k im)) x.

(** [torch.concat([a, b], axis=1)]: the items of the first axis are joined
    pairwise along the second; the sizes of the first axis must agree. *)
Definition torch_concat {A : Type} (a b : list (list A)) : result (list (list A)) :=
  if (length a =? length b)%nat then Ok (zip_with app a b)
  else Raise (RuntimeError "Sizes of tensors must match except in dimension 1").

(** [np.stack(v)] of a list of 1-D arrays. *)
Definition np_stack (v : list Row) : result (list Row) :=
  match v with
  | [] => Raise (ValueError "need at least one array to stack")
  | r :: _ =>
      if forallb (fun r' => (length r' =? length r)%nat) v then Ok v
      else Raise (ValueError "all input arrays must have the same shape")
  end.

(** [np.array(v)] of a list of scalar labels. *)
Definition np_array (v : list (Label lib)) : result (list (Label lib)) := Ok v.

(** ** The cells *)

(** [tmp_path = Path(tempfile.gettempdir())] and the construction of the
    data module. *)
Definition cell_datamodule : M unit :=
  opaque tempfile_gettempdir ;;
  opaque Path_new ;;
  opaque QuakeSetDataModule_new.

(** [datamodule.prepare_data()] *)
Definition cell_prepare_data : M unit :=
  opaque prepare_data.

(** [datamodule.setup('fit')] creates the train and validation datasets. *)
Definition datamodule_setup_fit : M unit :=
  opaque setup_fit ;;
  modify (set_train_data (Some (datasets_fit lib).1)) ;;
  modify (set_val_data (Some (datasets_fit lib).2)).

(** [datamodule.setup('test')] creates the test dataset. *)
Definition datamodule_setup_test : M unit :=
  opaque setup_test ;;
  modify (set_test_data (Some (dataset_test lib))).

(** [datamodule.val_dataset[0]] *)
Definition val_dataset_first : M (Sample lib) :=
  w <- get ;;
  match val_data w with
  | None => raise (TypeError "'NoneType' object is not subscriptable")
  | Some data => lib_call (Call val_dataset_getitem) (getitem lib data 0)
  end.

Definition cell_plot : M unit :=
  datamodule_setup_fit ;;
  datamodule_setup_test ;;
  sample <- val_dataset_first ;;
  opaque plot.

(** [DEVICE = 'cuda' if torch.cuda.is_available() else 'cpu'] *)
Definition cell_device : M string :=
  opaque cuda_is_available ;;
  ret (if is_available lib then "cuda" else "cpu").

(** The three subsampling assignments. *)
Definition cell_subsample : M unit :=
  w <- get ;;
  data <- dataset_data (train_data w) ;;
  modify (set_train_data (Some (subsample data))) ;;
  w <- get ;;
  data <- dataset_data (val_data w) ;;
  modify (set_val_data (Some (subsample data))) ;;
  w <- get ;;
  data <- dataset_data (test_data w) ;;
  modify (set_test_data (Some (subsample data))).

(** [rn_model = resnet50(ResNet50_Weights.SENTINEL1_ALL_MOCO).to(DEVICE).eval()].
    A new module is in training mode; [.eval()] switches it to evaluation
    mode. *)
Definition cell_model (DEVICE : string) : M unit :=
  opaque resnet50_new ;;
  opaque (module_to DEVICE) ;;
  opaque module_eval ;;
  modify (set_rn_model (Some {| weights := pretrained lib; training := false |})).

(** [rn_model(x)]: the global [rn_model] is looked up, its forward pass runs
    in the module's mode and the current gradient mode, and the module keeps
    the weights and buffers the pass leaves. *)
Definition call_rn_model (x : list Image) : M (list Row) :=
  w <- get ;;
  match rn_model w with
  | None => raise (NameError "rn_model")
  | Some m =>
      let out := forward lib (weights m) (training m) (grad_enabled w) x in
      modify (set_rn_model (Some {| weights := out.2; training := training m |})) ;;
      lib_call (Forward (training m) (grad_enabled w) x) out.1
  end.

(** [model_transform({'image': v})['image']] for a view [v] of [img].  The
    transform is handed the view itself: what it writes into its input is
    written into [img]. *)
Definition transformed (view : list Image -> list Image)
    (write : (nat -> nat -> Chan lib -> Chan lib) -> list Image -> list Image)
    : M (list Image) :=
  w <- get ;;
  let d : gmap string (list Image) := {[ "image" := view (img w) ]} in
  modify (fun w => set_img (write (transform_writes lib d) (img w)) w) ;;
  d' <- lib_call (Transform d) (model_transform lib d) ;;
  match d' !! "image" with
  | Some y => ret y
  | None => raise (KeyError "image")
  end.

(** [infer(batch)].  [batch['image'].to(DEVICE)] is the batch's own tensor
    when that is on the device already, and a copy of it otherwise; either
    way [img] is bound to a tensor that holds what the batch's image holds.
    The two slices are views of [img]. *)
Definition infer (DEVICE : string) (batch : Batch (Chan lib) (Label lib))
    : M (list Row * list (Label lib)) :=
  opaque (tensor_to DEVICE) ;;
  modify (set_img (image batch)) ;;
  let labels := label batch in
  pre <- transformed (slice_to 2) (write_to 2) ;;
  post <- transformed (slice_from 2) (write_from 2) ;;
  embs <- no_grad (
    a <- call_rn_model pre ;;
    b <- call_rn_model post ;;
    c <- lib_call (Concat a b) (torch_concat a b) ;;
    opaque tensor_cpu ;;
    opaque tensor_numpy ;;
    ret c) ;;
  ret (embs, labels).

(** [embeddings[split].append(emb)] then [labels[split].append(lab)] *)
Definition append_pair (split : string) (pair : Row * Label lib) : M unit :=
  modify (fun w => set_embeddings (defaultdict_append split pair.1 (embeddings w)) w) ;;
  modify (fun w => set_labels (defaultdict_append split pair.2 (labels w)) w).

(** One of the two loops over a data loader.  [tqdm] and [enumerate] only
    wrap the iterator; the inner loop runs over [zip] of the two components
    of [infer(batch)], which pairs the rows of the embedding array with the
    labels and stops at the shorter of the two. *)
Definition extract (p : Params) (DEVICE : string) (loader : api)
    (data : option (list (Sample lib))) (split : string) : M unit :=
  it <- lib_call (Call loader)
          (batches lib loader (batch_size p) (num_workers p) data) ;;
  for_loader loader it.1 it.2 (fun batch =>
    r <- infer DEVICE batch ;;
    for_each (zip r.1 r.2) (append_pair split)).

Definition cell_embeddings (p : Params) (DEVICE : string) : M unit :=
  modify (set_embeddings []) ;;
  modify (set_labels []) ;;
  w <- get ;;
  extract p DEVICE train_dataloader (train_data w) "train" ;;
  w <- get ;;
  extract p DEVICE test_dataloader (test_data w) "test" ;;
  w <- get ;;
  stacked <- dict_comprehension (fun v => lib_call (Stack v) (np_stack v))
               (embeddings w) ;;
  modify (set_embeddings stacked) ;;
  w <- get ;;
  arrays <- dict_comprehension (fun v => lib_call (Array v) (np_array v))
              (labels w) ;;
  modify (set_labels arrays).

(** The random forest: fit on the train split, predict on the test split,
    print the report. *)
Definition cell_classifier : M unit :=
  opaque RandomForestClassifier_new ;;
  w <- get ;;
  X <- subscript (embeddings w) "train" ;;
  y <- subscript (labels w) "train" ;;
  clf <- lib_call (Fit X y) (fit lib X y) ;;
  X_test <- subscript (embeddings w) "test" ;;
  preds <- lib_call (Predict X_test) (predict lib clf X_test) ;;
  y_test <- subscript (labels w) "test" ;;
  report <- lib_call (Report y_test preds) (classification_report lib y_test preds) ;;
  lib_call (Print report) (Ok tt).

(** [task = ClassificationTask(...)] *)
Definition cell_task : M unit :=
  opaque ClassificationTask_new.

(** Logger, checkpoint callback and trainer. *)
Definition cell_trainer : M unit :=
  opaque tempfile_gettempdir ;;
  opaque Path_new ;;
  opaque Path_truediv ;;
  opaque ModelCheckpoint_new ;;
  opaque CSVLogger_new ;;
  opaque Trainer_new.

(** [trainer.fit(model=task, datamodule=datamodule)] *)
Definition cell_fit : M unit :=
  opaque trainer_fit.

(** [trainer.test(model=task, datamodule=datamodule)] *)
Definition cell_test : M unit :=
  opaque trainer_test.

(** The cells up to the one that computes the embeddings. *)
Definition up_to_embeddings (p : Params) : M unit :=
  cell_datamodule ;;
  cell_prepare_data ;;
  cell_plot ;;
  DEVICE <- cell_device ;;
  cell_subsample ;;
  cell_model DEVICE ;;
  cell_embeddings p DEVICE.

(** The notebook, top to bottom. *)
Definition notebook (p : Params) : M unit :=
  up_to_embeddings p ;;
  cell_classifier ;;
  cell_task ;;
  cell_trainer ;;
  cell_fit ;;
  cell_test.

(** ** Reading the log *)

(** The step of the tutorial a call belongs to; construction of objects and
    the other bookkeeping calls belong to none. *)
Definition step_of (c : call) : option step :=
  match c with
  | Call prepare_data => Some Download
  | Call setup_fit | Call setup_test => Some Setup
  | Call plot => Some Plot
  | Transform _ | Forward _ _ _ | Concat _ _ => Some Infer
  | Fit _ _ => Some FitClassical
  | Predict _ | Report _ _ | Print _ => Some EvalClassical
  | Call trainer_fit => Some FitDeep
  | Call trainer_test => Some EvalDeep
  | _ => None
  end.

Definition steps (l : list entry) : list step :=
  omap (fun en : entry => step_of en.1) l.

(** The rank of the step of a call, if the call belongs to a step. *)
Definition step_rank_of (c : call) : option nat := step_rank <$> step_of c.

(** The loader a call is made to, the train loader first. *)
Definition loader_rank (c : call) : option nat :=
  match c with
  | Call train_dataloader | Next train_dataloader => Some 0%nat
  | Call test_dataloader | Next test_dataloader => Some 1%nat
  | _ => None
  end.

(** Ranks of the calls along a log, for a ranking of the calls. *)
Definition ranks (rank : call -> option nat) (l : list entry) : list nat :=
  omap (fun en : entry => rank en.1) l.

(** No call comes after a call of a higher rank. *)
Definition in_order (rank : call -> option nat) (l : list entry) : Prop :=
  StronglySorted le (ranks rank l).

(** No call of a step comes after a call of a later step. *)
Definition in_step_order (l : list entry) : Prop := in_order step_rank_of l.

(** No call to the train loader comes after a call to the test loader. *)
Definition train_before_test (l : list entry) : Prop := in_order loader_rank l.

(** In order, with every rank between two given ones. *)
Definition within (rank : call -> option nat) (lo hi : nat)
    (evs : list entry) : Prop :=
  in_order rank evs /\ Forall (fun r => (lo <= r <= hi)%nat) (ranks rank evs).

(** A statement only appends to the log, calls in order between two given
    ranks. *)
Definition ordered {A : Type} (rank : call -> option nat) (lo hi : nat)
    (m : M A) : Prop :=
  forall w, exists evs, log (m w).2 = log w ++ evs /\ within rank lo hi evs.

(** A statement that returns has made a call of the step. *)
Definition calls_on_ok {A : Type} (s : step) (m : M A) : Prop :=
  forall w a w', m w = (Ok a, w') ->
    exists evs, log w' = log w ++ evs /\ s ∈ steps evs.

(** The transform and the extractor return one item per item of their
    input, the transform under the key of its input. *)
Definition keeps_samples : Prop :=
  (forall (x : list Image) d',
     model_transform lib {[ "image" := x ]} = Ok d' ->
     exists y, d' !! "image" = Some y /\ length y = length x) /\
  (forall W is_training grad (x : list Image) r W',
     forward lib W is_training grad x = (Ok r, W') -> length r = length x).

(** The batch holds a sample: an image and a label. *)
Definition holds_sample (b : Batch (Chan lib) (Label lib)) : Prop :=
  image b <> [] /\ label b <> [].

(** Something has been collected for the split. *)
Definition collected (k : string) (w : World) : Prop :=
  dict_get k (embeddings w) <> None /\ dict_get k (labels w) <> None.

(** No logged call raised. *)
Definition all_ok (l : list entry) : Prop :=
  Forall (fun en : entry => en.2 = None) l.

(** The same, as a test. *)
Definition all_okb (l : list entry) : bool :=
  forallb (fun en : entry => match en.2 with None => true | Some _ => false end) l.

(** What a statement that ends with [r] may have added to the log: calls
    that returned, followed, if at all, by one call that raised the very
    exception the statement ends with. *)
Definition faithful {A : Type} (r : result A) (evs : list entry) : Prop :=
  match r with
  | Ok _ => all_ok evs
  | Raise e =>
      all_ok evs \/
      exists evs0 c, evs = evs0 ++ [(c, Some e)] /\ all_ok evs0
  end.

(** A statement only appends to the log, and faithfully. *)
Definition propagates {A : Type} (m : M A) : Prop :=
  forall w, exists evs, log (m w).2 = log w ++ evs /\ faithful (m w).1 evs.

(** The library calls [infer] may make: the device transfers, the input
    transform, the forward pass in evaluation mode without gradient
    tracking, the concatenation. *)
Definition inference_call (en : entry) : Prop :=
  match en.1 with
  | Call (tensor_to _) | Call tensor_cpu | Call tensor_numpy => True
  | Transform _ | Concat _ _ => True
  | Forward false false _ => True
  | _ => False
  end.

(** Keys and number of items per key of a dict of lists. *)
Definition shape {V : Type} (d : dict (list V)) : list (string * nat) :=
  map (fun kv => (kv.1, length kv.2)) d.

(** Per split, as many embeddings as labels have been accumulated. *)
Definition balanced (w : World) : Prop :=
  shape (embeddings w) = shape (labels w).

(** The two worlds agree on the module and on the gradient mode. *)
Definition same_torch (w v : World) : Prop :=
  rn_model w = rn_model v /\ grad_enabled w = grad_enabled v.

(** What the batch's image tensor holds when a call of [infer] on the batch
    has ended in [w].  When the batch is on the device already, [.to(DEVICE)]
    returns the tensor itself, so that once [img] is bound it is the batch's
    tensor; when it is not, [img] is a copy, and the notebook hands the
    batch's own tensor to nothing that could write to it. *)
Definition batch_image_after (on_device : bool) (DEVICE : string)
    (batch : Batch (Chan lib) (Label lib)) (w : World) : list Image :=
  match on_device, raises lib (tensor_to DEVICE) with
  | true, None => img w
  | _, _ => image batch
  end.

(** ** What the sentences of the description say, as functions *)

(** Channels [lo, hi) of one image. *)
Definition channels {A : Type} (lo hi : nat) (im : list A) : list A :=
  take (hi - lo) (drop lo im).

(** [kept] is the list of the first [k] elements of [data], in their order:
    it has [k] elements and position by position it agrees with [data]. *)
Definition first_elements {A : Type} (k : Z) (data kept : list A) : Prop :=
  Z.of_nat (length kept) = k /\
  (exists rest, data = kept ++ rest) /\
  (forall (i : nat) (x : A),
     kept !! i = Some x <-> (Z.of_nat i < k /\ data !! i = Some x)).

(** The rows and labels one batch contributes: what [infer] returned for
    it, paired up. *)
Definition pairs_of (r : list Row * list (Label lib)) : list (Row * Label lib) :=
  zip r.1 r.2.

(** The entry of a split in the final dicts: none when nothing was
    collected for it. *)
Definition present {V : Type} (k : string) (v : list V) : dict (list V) :=
  match v with
  | [] => []
  | _ => [(k, v)]
  end.

(** All rows have the same width. *)
Definition uniform (v : list Row) : Prop :=
  exists n : nat, Forall (fun r => length r = n) v.

(** Applying [infer] to each batch in turn, collecting the results. *)
Fixpoint infer_all (DEVICE : string) (bs : list (Batch (Chan lib) (Label lib)))
    : M (list (list Row * list (Label lib))) :=
  match bs with
  | [] => ret []
  | b :: bs' =>
      r <- infer DEVICE b ;;
      rs <- infer_all DEVICE bs' ;;
      ret (r :: rs)
  end.

(** ** Assertions on states, calls and exceptions *)

(** The call is not a forward pass that tracks gradients. *)
Definition without_grad (en : entry) : Prop :=
  match en.1 with
  | Forward _ grad _ => grad = false
  | _ => True
  end.

(** A statement run from a state that satisfies [pre] only appends to the
    log, calls that satisfy [P]; when it returns, the result and the state
    satisfy [post]; when it raises, the state satisfies [exc] and, if no
    call it made failed, the exception satisfies [E]. *)
Definition triple {A : Type} (pre : World -> Prop) (P : entry -> Prop)
    (E : exn -> Prop) (exc : World -> Prop) (m : M A)
    (post : A -> World -> Prop) : Prop :=
  forall w, pre w ->
    exists evs, log (m w).2 = log w ++ evs /\ Forall P evs /\
      match (m w).1 with
      | Ok a => post a (m w).2
      | Raise e => exc (m w).2 /\ (all_ok evs -> E e)
      end.

(** A forward pass is made in evaluation mode and without gradient
    tracking. *)
Definition eval_no_grad (en : entry) : Prop :=
  match en.1 with
  | Forward is_training grad _ => is_training = false /\ grad = false
  | _ => True
  end.

(** [np.stack] is given at least one array. *)
Definition stacks_something (en : entry) : Prop :=
  match en.1 with
  | Stack v => v <> []
  | _ => True
  end.

Definition regular_call (en : entry) : Prop :=
  eval_no_grad en /\ stacks_something en.

(** The exceptions the notebook's own subscripts may raise. *)
Definition missing_key (e : exn) : Prop :=
  e = KeyError "image" \/ e = KeyError "train" \/ e = KeyError "test".

(** The datasets are the ones [setup] creates. *)
Definition setup_done (w : World) : Prop :=
  train_data w = Some (datasets_fit lib).1 /\
  val_data w = Some (datasets_fit lib).2 /\
  test_data w = Some (dataset_test lib).

(** The datasets are the subsampled ones. *)
Definition subsampled (w : World) : Prop :=
  train_data w = Some (subsample (datasets_fit lib).1) /\
  val_data w = Some (subsample (datasets_fit lib).2) /\
  test_data w = Some (subsample (dataset_test lib)).

(** The module is loaded and in evaluation mode. *)
Definition in_eval_mode (w : World) : Prop :=
  exists m, rn_model w = Some m /\ training m = false.

(** No split is bound to an empty list of embeddings. *)
Definition nonempty_lists (w : World) : Prop :=
  Forall (fun kv : string * list Row => kv.2 <> []) (embeddings w).

(** The stages of the notebook: before [setup], after [setup], after the
    subsampling, after the model is loaded, inside the extraction loops. *)
Definition stage_start (w : World) : Prop := grad_enabled w = true.
Definition stage_setup (w : World) : Prop :=
  grad_enabled w = true /\ setup_done w.
Definition stage_subsampled (w : World) : Prop :=
  grad_enabled w = true /\ subsampled w.
Definition stage_model (w : World) : Prop :=
  grad_enabled w = true /\ subsampled w /\ in_eval_mode w.
Definition stage_loops (w : World) : Prop :=
  stage_model w /\ nonempty_lists w.
Definition stage_forward (w : World) : Prop :=
  grad_enabled w = false /\ subsampled w /\ in_eval_mode w /\
  nonempty_lists w.

End Notebook.

Arguments Call {lib} f.
Arguments Next {lib} loader.
Arguments Transform {lib} d.
Arguments Forward {lib} is_training grad x.
Arguments Concat {lib} a b.
Arguments Stack {lib} v.
Arguments Array {lib} v.
Arguments Fit {lib} X y.
Arguments Predict {lib} X.
Arguments Report {lib} y_true y_pred.
Arguments Print {lib} s.
Arguments weights {lib} m.
Arguments training {lib} m.
Arguments train_data {lib} w.
Arguments val_data {lib} w.
Arguments test_data {lib} w.
Arguments rn_model {lib} w.
Arguments grad_enabled {lib} w.
Arguments embeddings {lib} w.
Arguments labels {lib} w.
Arguments log {lib} w.
Arguments set_train_data {lib} v w.
Arguments set_val_data {lib} v w.
Arguments set_test_data {lib} v w.
Arguments set_rn_model {lib} v w.
Arguments set_grad_enabled {lib} v w.
Arguments set_embeddings {lib} v w.
Arguments set_labels {lib} v w.
Arguments set_log {lib} v w.
Arguments img {lib} w.
Arguments set_img {lib} v w.
Arguments write_to : simpl never.
Arguments write_from : simpl never.
Arguments ret {lib A} a w.
Arguments bind {lib A B} m k w.
Arguments raise {lib A} e w.
Arguments get {lib} w.
Arguments modify {lib} f w.
Arguments steps {lib} l.
Arguments step_of {lib} c.
Arguments all_ok {lib} l.
Arguments all_okb {lib} l.
Arguments holds_sample {lib} b.
Arguments collected {lib} k w.
Arguments calls_on_ok {lib A} s m.
Arguments step_rank_of {lib} c.
Arguments loader_rank {lib} c.
Arguments ranks {lib} rank l.
Arguments in_order {lib} rank l.
Arguments in_step_order {lib} l.
Arguments train_before_test {lib} l.
Arguments within {lib} rank lo hi evs.
Arguments ordered {lib A} rank lo hi m.
Arguments faithful {lib A} r evs.
Arguments propagates {lib A} m.
Arguments balanced {lib} w.
Arguments same_torch {lib} w v.
Arguments inference_call {lib} en.
Arguments pairs_of {lib} r.
Arguments uniform {lib} v.
Arguments without_grad {lib} en.
Arguments triple {lib A} pre P E exc m post.
Arguments eval_no_grad {lib} en.
Arguments stacks_something {lib} en.
Arguments regular_call {lib} en.
Arguments setup_done {lib} w.
Arguments subsampled {lib} w.
Arguments in_eval_mode {lib} w.
Arguments nonempty_lists {lib} w.
Arguments stage_start {lib} w.
Arguments stage_setup {lib} w.
Arguments stage_subsampled {lib} w.
Arguments stage_model {lib} w.
Arguments stage_loops {lib} w.
Arguments stage_forward {lib} w.

(** ** Small libraries to run the notebook on

    Planes, numbers and weights are integers, labels are booleans and a
    sample is the number its image is made from.  The loaders yield one
    single-sample batch per element of the [data] list, as with the batch
    size of the smoke test; a forward pass in training mode changes the
    weights, one in evaluation mode does not. *)
Definition toy_batch (s : Z) : Batch Z bool :=
  {| image := [[s; s + 1; s + 2; s + 3]]; label := [Z.even s] |}.

Definition toy_writing
    (writes : Z -> Z)
    (failing : api -> option exn)
    (transform : gmap string (list (list Z)) -> gmap string (list (list Z)))
    (extractor : Z -> list (list Z) -> list (list Z))
    (train val test : list Z) : Library :=
  {| Chan := Z; Scalar := Z; Label := bool; Sample := Z; Weights := Z;
     Classifier := list bool;
     raises := failing;
     datasets_fit := (train, val);
     dataset_test := test;
     getitem := fun data i =>
       match data !! Z.to_nat i with
       | Some s => Ok s
       | None => Raise (OtherError "IndexError" "list index out of range")
       end;
     is_available := false;
     pretrained := 7;
     model_transform := fun d => Ok (transform d);
     transform_writes := fun _ _ _ plane => writes plane;
     forward := fun W is_training grad x =>
       (Ok (extractor W x), if is_training then W + 1 else W);
     batches := fun _ _ _ data =>
       match data with
       | Some d => Ok (map toy_batch d, None)
       | None => Raise (OtherError "MisconfigurationException" "no dataset")
       end;
     fit := fun X y => Ok y;
     predict := fun clf X => Ok (map (fun _ => true) X);
     classification_report := fun y_true y_pred => Ok "report" |}.

(** The transform writes nothing into its input. *)
Definition toy_with
    (failing : api -> option exn)
    (transform : gmap string (list (list Z)) -> gmap string (list (list Z)))
    (extractor : Z -> list (list Z) -> list (list Z))
    (train val test : list Z) : Library :=
  toy_writing id failing transform extractor train val test.

(** The transform adds one to every plane. *)
Definition toy_transform (d : gmap string (list (list Z))) : gmap string (list (list Z)) :=
  map (map Z.succ) <$> d.

(** The extractor gives, per image, the sum of its planes and the weights. *)
Definition toy_extractor (W : Z) (x : list (list Z)) : list (list Z) :=
  map (fun im => [foldr Z.add 0 im; W]) x.

Definition toy (train val test : list Z) : Library :=
  toy_with (fun _ => None) toy_transform toy_extractor train val test.

Definition numbers (start len : nat) : list Z := map Z.of_nat (seq start len).

(** Thirty, ten and ten samples: three, one and one are left by the
    subsampling. *)
Definition toy_full : Library :=
  toy (numbers 0 30) (numbers 30 10) (numbers 40 10).

(** A test split of fewer than ten samples is emptied by the subsampling. *)
Definition toy_small_test : Library :=
  toy (numbers 0 30) (numbers 30 10) (numbers 40 9).

(** The transform returns a dict without the key "image". *)
Definition toy_drops_key : Library :=
  toy_with (fun _ => None) (fun _ => ∅) toy_extractor
    (numbers 0 30) (numbers 30 10) (numbers 40 10).

(** The extractor returns no row. *)
Definition toy_no_rows : Library :=
  toy_with (fun _ => None) toy_transform (fun _ _ => [])
    (numbers 0 30) (numbers 30 10) (numbers 40 10).

(** The extractor returns two rows per image. *)
Definition toy_two_rows : Library :=
  toy_with (fun _ => None) toy_transform
    (fun W x => flat_map (fun im => [[foldr Z.add 0 im; W]; [W; W]]) x)
    (numbers 0 30) (numbers 30 10) (numbers 40 10).

(** The transform works in place: it adds one to every plane of the tensor
    it is passed. *)
Definition toy_in_place : Library :=
  toy_writing Z.succ (fun _ => None) toy_transform toy_extractor
    (numbers 0 30) (numbers 30 10) (numbers 40 10).

(** The download fails. *)
Definition toy_download_fails : Library :=
  toy_with
    (fun f => match f with
              | prepare_data => Some (OtherError "URLError" "no route to host")
              | _ => None
              end)
    toy_transform toy_extractor (numbers 0 30) (numbers 30 10) (numbers 40 10).

(** The worlds of the examples: after the cell that loads the model, and
    with the datasets as [setup] leaves them. *)
Definition toy_world (lib : Library) (train val test : list (Sample lib)) : World lib :=
  {| train_data := Some train; val_data := Some val; test_data := Some test;
     rn_model := Some {| weights := pretrained lib; training := false |};
     grad_enabled := true;
     embeddings := []; labels := []; img := []; log := [] |}.

(** * Facts *)

(** ** Rounding *)
Section Float64_facts.
Import Float64.

Lemma dropped_nonneg m : 0 <= dropped m.
Proof. unfold dropped. lia. Qed.

Lemma dropped_small m : m < 2 ^ 53 -> dropped m = 0.
Proof.
  intros Hm. unfold dropped, prec.
  destruct (Z.le_gt_cases m 0) as [Hle|Hpos].
  - rewrite Z.log2_nonpos by done. lia.
  - assert (Z.log2 m < 53) by (apply Z.log2_lt_pow2; lia). lia.
Qed.

Lemma dropped_pos m :
  0 < dropped m -> 2 ^ (dropped m + 52) <= m < 2 ^ (dropped m + 53).
Proof.
  unfold dropped, prec. intros Hd.
  assert (Hm : 0 < m).
  { destruct (Z.le_gt_cases m 0) as [Hle|]; [|done].
    rewrite Z.log2_nonpos in Hd by done. lia. }
  replace (Z.max 0 (Z.log2 m + 1 - 53)) with (Z.log2 m - 52) by lia.
  replace (Z.log2 m - 52 + 52) with (Z.log2 m) by lia.
  replace (Z.log2 m - 52 + 53) with (Z.succ (Z.log2 m)) by lia.
  by apply Z.log2_spec.
Qed.

Lemma nearest_even_bounds m d :
  0 <= d ->
  m / 2 ^ d <= nearest_even m d <= m / 2 ^ d + 1 /\
  (nearest_even m d = m / 2 ^ d + 1 -> 2 ^ d <= 2 * (m mod 2 ^ d)).
Proof.
  intros Hd. unfold nearest_even.
  repeat case_match; split; try lia; intros; lia.
Qed.

(** Rounding never moves a value by more than half a unit in the last
    place: scaled by [2 ^ 53], the rounded significand times the dropped
    weight is at most [m * (2 ^ 53 + 1)], and it is at least the truncated
    one. *)
Lemma round_shape m e :
  0 <= m ->
  exists d q, round m e = mk q (e + d) /\ 0 <= d /\ 0 <= q /\
    (d = 0 -> q = m) /\
    (m / 2 ^ d) <= q /\
    q * 2 ^ d * 2 ^ 53 <= m * (2 ^ 53 + 1) /\
    (0 < d -> 2 ^ (d + 52) <= m < 2 ^ (d + 53)) /\
    (q = m / 2 ^ d + 1 -> 2 ^ d <= 2 * (m mod 2 ^ d)) /\
    q <= m / 2 ^ d + 1.
Proof.
  intros Hm. unfold round.
  pose proof (dropped_nonneg m) as Hd.
  destruct (Z.eqb_spec (dropped m) 0) as [H0|Hne].
  - exists 0, m. rewrite Z.add_0_r. change (2 ^ 0) with 1. rewrite Z.div_1_r.
    repeat split; try lia.
  - set (d := dropped m) in *.
    assert (Hdpos : 0 < d) by lia.
    pose proof (dropped_pos m Hdpos) as Hb. fold d in Hb.
    destruct (nearest_even_bounds m d Hd) as [[Hlo Hhi] Hup].
    set (q := nearest_even m d) in *.
    assert (HD : 0 < 2 ^ d) by (apply Z.pow_pos_nonneg; lia).
    pose proof (Z.div_mod m (2 ^ d) ltac:(lia)) as Hdm.
    pose proof (Z.mod_pos_bound m (2 ^ d) HD) as Hmod.
    assert (0 <= m / 2 ^ d) by (apply Z.div_pos; lia).
    exists d, q. repeat split; try lia.
    replace (2 ^ (d + 52)) with (2 ^ d * 2 ^ 52) in Hb by (rewrite Z.pow_add_r; lia).
    assert (Hq : 2 * (q * 2 ^ d) <= 2 * m + 2 ^ d).
    { destruct (Z.eq_dec q (m / 2 ^ d + 1)) as [Heq|Hneq].
      - specialize (Hup Heq). nia.
      - assert (q = m / 2 ^ d) by lia. nia. }
    change (2 ^ 53) with 9007199254740992. change (2 ^ 52) with 4503599627370496 in Hb.
    nia.
Qed.

Lemma of_int_small n : n < 2 ^ 53 -> of_int n = mk n 0.
Proof.
  intros Hn. unfold of_int, round. by rewrite (dropped_small n Hn).
Qed.

Lemma pow2_split a b : 0 <= a -> 0 <= b -> 2 ^ (a + b) = 2 ^ a * 2 ^ b.
Proof. intros. by rewrite Z.pow_add_r. Qed.

(** Below [2 ^ 52] the double product truncates to the exact tenth. *)
Lemma subsample_len_exact n : 0 <= n < 2 ^ 52 -> subsample_len n = n / 10.
Proof.
  intros [Hn0 Hn]. unfold subsample_len.
  rewrite of_int_small by (change (2 ^ 52) with 4503599627370496 in Hn;
                           change (2 ^ 53) with 9007199254740992; lia).
  unfold mul, PCT_SAMPLES. cbn [mant expo].
  set (c := 7205759403792794).
  destruct (round_shape (n * c) (0 + -56) ltac:(subst c; lia))
    as (d & q & -> & Hd & Hq0 & Hexact & Hlo & _ & Hrange & Hup & Hhi).
  set (a := n / 10).
  pose proof (Z.div_mod n 10 ltac:(lia)) as Hdm. fold a in Hdm.
  pose proof (Z.mod_pos_bound n 10 ltac:(lia)) as Hr.
  set (r := n mod 10) in *.
  assert (Ha : 0 <= a) by (subst a; apply Z.div_pos; lia).
  change (2 ^ 52) with 4503599627370496 in Hn.
  assert (Hd52 : d <= 52).
  { destruct (Z.le_gt_cases d 0) as [|Hpos]; [lia|].
    destruct (Hrange Hpos) as [Hl _].
    assert (n * c < 2 ^ 105) by (change (2 ^ 105) with (4503599627370496 * 9007199254740992); subst c; nia).
    apply Z.lt_succ_r. apply (Z.pow_lt_mono_r_iff 2); [lia|lia|].
    replace (Z.succ 52) with 53 by lia.
    assert (2 ^ (d + 52) = 2 ^ d * 2 ^ 52) by (apply pow2_split; lia).
    assert (2 ^ 105 = 2 ^ 53 * 2 ^ 52) by reflexivity.
    assert (0 < 2 ^ 52) by reflexivity. nia. }
  unfold to_int. cbn [mant expo].
  replace (0 <=? 0 + -56 + d) with false by (symmetry; apply Z.leb_gt; lia).
  set (P := 2 ^ (- (0 + -56 + d))).
  set (D := 2 ^ d) in *.
  assert (HD : 0 < D) by (apply Z.pow_pos_nonneg; lia).
  assert (HP : 0 < P) by (apply Z.pow_pos_nonneg; lia).
  assert (HPD : D * P = 72057594037927936).
  { subst D P. rewrite <- Z.pow_add_r by lia.
    replace (d + - (0 + -56 + d)) with 56 by lia. reflexivity. }
  assert (HD52 : D <= 4503599627370496).
  { subst D. change 4503599627370496 with (2 ^ 52). apply Z.pow_le_mono_r; lia. }
  pose proof (Z.div_mod (n * c) D ltac:(lia)) as HM.
  pose proof (Z.mod_pos_bound (n * c) D HD) as HR.
  set (Q0 := n * c / D) in *. set (R := (n * c) mod D) in *.
  assert (Hc : 10 * c = 72057594037927936 + 4) by reflexivity.
  assert (HaPD : a * (D * P) <= n * c) by (rewrite HPD; nia).
  assert (Hlow : a * P <= q).
  { assert (a * P <= Q0); [|lia].
    apply Z.div_le_lower_bound; [done|]. nia. }
  assert (Hupp : q < (a + 1) * P).
  { assert (HMlt : n * c < (a + 1) * (D * P)) by (rewrite HPD; nia).
    assert (HQ0 : Q0 < (a + 1) * P) by nia.
    destruct (Z.eq_dec q (Q0 + 1)) as [Heq|Hneq]; [|lia].
    specialize (Hup Heq).
    destruct (Z.lt_ge_cases q ((a + 1) * P)) as [|Hge]; [done|exfalso].
    assert ((a + 1) * (D * P) <= (Q0 + 1) * D) by nia.
    rewrite HPD in *. nia. }
  symmetry. apply Z.div_unique with (r := q - a * P). { lia. } lia.
Qed.

Lemma to_int_scaled q e s :
  0 <= q -> 0 <= s -> 0 <= e + s ->
  0 <= to_int (mk q e) /\ to_int (mk q e) * 2 ^ s <= q * 2 ^ (e + s).
Proof.
  intros Hq Hs Hes. unfold to_int. cbn [mant expo].
  destruct (Z.leb_spec 0 e) as [He|He].
  - assert (0 < 2 ^ e) by (apply Z.pow_pos_nonneg; lia).
    rewrite pow2_split by lia. split; nia.
  - assert (HP : 0 < 2 ^ (- e)) by (apply Z.pow_pos_nonneg; lia).
    assert (0 < 2 ^ (e + s)) by (apply Z.pow_pos_nonneg; lia).
    replace s with (- e + (e + s)) at 1 by lia.
    rewrite pow2_split by lia.
    pose proof (Z.div_mod q (2 ^ (- e)) ltac:(lia)) as Hdm.
    pose proof (Z.mod_pos_bound q (2 ^ (- e)) HP) as Hmod.
    assert (0 <= q / 2 ^ (- e)) by (apply Z.div_pos; lia).
    split; [done|]. nia.
Qed.

(** The stop index never exceeds the length, whatever the length. *)
Lemma subsample_len_bounds n : 0 <= n -> 0 <= subsample_len n <= n.
Proof.
  intros Hn. unfold subsample_len, of_int.
  destruct (round_shape n 0 Hn)
    as (d1 & q1 & -> & Hd1 & Hq1 & _ & _ & Herr1 & _).
  unfold mul, PCT_SAMPLES. cbn [mant expo].
  set (c := 7205759403792794).
  destruct (round_shape (q1 * c) (0 + d1 + -56) ltac:(subst c; lia))
    as (d2 & q2 & -> & Hd2 & Hq2 & _ & _ & Herr2 & _).
  destruct (to_int_scaled q2 (0 + d1 + -56 + d2) 56 Hq2 ltac:(lia) ltac:(lia))
    as [Hk0 Hk].
  set (k := to_int _) in *. split; [done|].
  replace (0 + d1 + -56 + d2 + 56) with (d2 + d1) in Hk by lia.
  rewrite pow2_split in Hk by lia.
  set (D1 := 2 ^ d1) in *. set (D2 := 2 ^ d2) in *.
  assert (0 < D1) by (apply Z.pow_pos_nonneg; lia).
  assert (0 < D2) by (apply Z.pow_pos_nonneg; lia).
  change (2 ^ 53) with 9007199254740992 in *.
  change (2 ^ 56) with 72057594037927936 in *.
  set (T := 9007199254740992) in *.
  (* chain the two rounding errors *)
  assert (H1 : k * 72057594037927936 * T * T <= q2 * D2 * T * (D1 * T)) by nia.
  assert (H2 : q2 * D2 * T * (D1 * T) <= q1 * c * (T + 1) * (D1 * T)) by nia.
  assert (H3 : q1 * c * (T + 1) * (D1 * T) = (q1 * D1 * T) * (c * (T + 1))) by ring.
  assert (H4 : (q1 * D1 * T) * (c * (T + 1)) <= n * (T + 1) * (c * (T + 1))).
  { apply Z.mul_le_mono_nonneg_r; [subst c T; lia|done]. }
  assert (H5 : k * (72057594037927936 * T * T) <= n * ((T + 1) * (c * (T + 1)))) by lia.
  assert (H6 : (T + 1) * (c * (T + 1)) < 72057594037927936 * T * T) by (subst c T; lia).
  destruct (Z.le_gt_cases k n) as [|Hgt]; [done|exfalso]. nia.
Qed.
End Float64_facts.

(** ** The subsampling slice *)

Lemma take_first_elements {A : Type} (k : nat) (data : list A) :
  (k <= length data)%nat ->
  first_elements (Z.of_nat k) data (take k data).
Proof.
  intros Hk. unfold first_elements. split; [|split].
  - rewrite length_take. lia.
  - exists (drop k data). by rewrite take_drop.
  - intros i x. split.
    + intros Hix. pose proof (lookup_lt_Some _ _ _ Hix) as Hlt.
      rewrite length_take in Hlt. split; [lia|].
      rewrite lookup_take_lt in Hix by lia. done.
    + intros [Hi Hx]. rewrite lookup_take_lt by lia. done.
Qed.

Lemma subsample_first_elements {A : Type} (data : list A) :
  first_elements (subsample_len (Z.of_nat (length data))) data (subsample data).
Proof.
  unfold subsample.
  pose proof (subsample_len_bounds (Z.of_nat (length data)) ltac:(lia)) as [H0 Hn].
  set (k := subsample_len _) in *.
  rewrite <- (Z2Nat.id k) at 1 by done.
  apply take_first_elements. lia.
Qed.

(** ** The subsampling slice on short lists and applied twice *)

Lemma subsample_exact {A : Type} (data : list A) :
  Z.of_nat (length data) < 2 ^ 52 ->
  subsample data = take (length data / 10) data.
Proof.
  intros Hn. unfold subsample.
  rewrite subsample_len_exact by lia.
  f_equal. change 10 with (Z.of_nat 10).
  rewrite <- Nat2Z.inj_div. apply Nat2Z.id.
Qed.

(** X1. Of a dataset of fewer than [2 ^ 52] samples the subsampling keeps
    nothing exactly when the dataset has fewer than ten samples. *)
Theorem subsample_empty_iff_short {A : Type} (data : list A) :
  Z.of_nat (length data) < 2 ^ 52 ->
  subsample data = [] <-> (length data < 10)%nat.
Proof.
  intros Hn. rewrite subsample_exact by done.
  pose proof (Nat.div_mod_eq (length data) 10) as Hdm.
  pose proof (Nat.mod_upper_bound (length data) 10 ltac:(lia)) as Hmod.
  split.
  - intros Hnil. apply (f_equal length) in Hnil.
    rewrite length_take in Hnil. change (length []) with 0%nat in Hnil.
    set (q := (length data / 10)%nat) in *. lia.
  - intros Hlt. rewrite Nat.div_small by done. done.
Qed.

Lemma subsample_twice {A : Type} (data : list A) :
  Z.of_nat (length data) < 2 ^ 52 ->
  subsample (subsample data) = take (length data / 100) data.
Proof.
  intros Hn.
  pose proof (Nat.Div0.div_le_upper_bound (length data) 10 (length data)
                ltac:(lia)) as Hle.
  rewrite (subsample_exact data) by done.
  rewrite subsample_exact by (rewrite length_take; lia).
  rewrite length_take, Nat.min_l by done.
  rewrite take_take, Nat.Div0.div_div.
  replace (10 * 10)%nat with 100%nat by lia.
  f_equal. apply Nat.min_l.
  set (q := (length data / 10)%nat) in *. set (q' := (length data / 100)%nat).
  pose proof (Nat.div_mod_eq (length data) 10).
  pose proof (Nat.mod_upper_bound (length data) 10 ltac:(lia)).
  pose proof (Nat.div_mod_eq (length data) 100).
  pose proof (Nat.mod_upper_bound (length data) 100 ltac:(lia)).
  fold q in H. fold q' in H1. lia.
Qed.

(** [zip] stops at the shorter list. *)
Lemma fst_zip_take {A B : Type} (a : list A) (b : list B) :
  (zip a b).*1 = take (length b) a.
Proof.
  revert b. induction a as [|x a IH]; intros [|y b]; cbn; try done.
  by rewrite IH.
Qed.

Lemma snd_zip_take {A B : Type} (a : list A) (b : list B) :
  (zip a b).*2 = take (length a) b.
Proof.
  revert b. induction a as [|x a IH]; intros [|y b]; cbn; try done.
  by rewrite IH.
Qed.

(** ** Writing through a view *)

Lemma write_item_to {A : Type} (k : nat) (g : nat -> A -> A) (im : list A) :
  drop k (imap g (take k im) ++ drop k im) = drop k im /\
  length (imap g (take k im) ++ drop k im) = length im.
Proof.
  assert (Hlen : length (imap g (take k im)) = length (take k im))
    by apply length_imap.
  rewrite length_take in Hlen. split.
  - destruct (Nat.le_gt_cases k (length im)) as [Hle|Hgt].
    + apply drop_app_length'. lia.
    + rewrite (drop_ge im) by lia. rewrite app_nil_r.
      apply drop_ge. lia.
  - rewrite length_app, Hlen, length_drop. lia.
Qed.

Lemma write_item_from {A : Type} (k : nat) (g : nat -> A -> A) (im : list A) :
  take k (take k im ++ imap g (drop k im)) = take k im /\
  length (take k im ++ imap g (drop k im)) = length im.
Proof.
  split.
  - destruct (Nat.le_gt_cases k (length im)) as [Hle|Hgt].
    + apply take_app_length'. rewrite length_take. lia.
    + rewrite (drop_ge im) by lia. cbn. rewrite app_nil_r.
      by rewrite take_take, Nat.min_id.
  - rewrite length_app, length_imap, length_take, length_drop. lia.
Qed.

(** What is written through the first view does not show in the second. *)
Lemma slice_from_write_to {A : Type} (k : nat) f (x : list (list A)) :
  slice_from k (write_to k f x) = slice_from k x.
Proof.
  unfold slice_from, write_to. rewrite fmap_imap.
  rewrite <- (imap_const (drop k)). apply imap_ext.
  intros i im _. cbn. apply write_item_to.
Qed.

Lemma slice_to_write_from {A : Type} (k : nat) f (x : list (list A)) :
  slice_to k (write_from k f x) = slice_to k x.
Proof.
  unfold slice_to, write_from. rewrite fmap_imap.
  rewrite <- (imap_const (take k)). apply imap_ext.
  intros i im _. cbn. apply write_item_from.
Qed.

Lemma length_write_to {A : Type} (k : nat) f (x : list (list A)) :
  length (write_to k f x) = length x.
Proof. apply length_imap. Qed.

Lemma length_write_from {A : Type} (k : nat) f (x : list (list A)) :
  length (write_from k f x) = length x.
Proof. apply length_imap. Qed.

Lemma imap_same {A : Type} (g : nat -> A -> A) (l : list A) :
  (forall i x, g i x = x) -> imap g l = l.
Proof.
  intros Hg. rewrite <- (list_fmap_id l) at 2. rewrite <- (imap_const id).
  apply imap_ext. intros i x _. apply Hg.
Qed.

(** A transform that writes back what it read leaves the tensor as it
    was. *)
Lemma write_to_same {A : Type} (k : nat) f (x : list (list A)) :
  (forall i c plane, f i c plane = plane) -> write_to k f x = x.
Proof.
  intros Hf. unfold write_to. apply imap_same. intros i im.
  rewrite imap_same by apply Hf. apply take_drop.
Qed.

Lemma write_from_same {A : Type} (k : nat) f (x : list (list A)) :
  (forall i c plane, f i c plane = plane) -> write_from k f x = x.
Proof.
  intros Hf. unfold write_from. apply imap_same. intros i im.
  rewrite imap_same by apply Hf. apply take_drop.
Qed.

Section Facts.

Context (lib : Library).

Local Abbreviation Image := (list (Chan lib)).
Local Abbreviation Row := (list (Scalar lib)).
Local Abbreviation World := (World lib).

(** C3. The subsampling cell replaces the [data] list of the train, the
    validation and the test dataset by the list of its first
    [int(len(data) * PCT_SAMPLES)] elements, in their order, where the
    product is the binary64 product by [0.1]; nothing else survives.  For
    every length below [2 ^ 52] that number is the integer part of the exact
    tenth of the length. *)
Theorem cell_subsample_keeps_first_tenth (w : World) (tr va te : list (Sample lib)) :
  train_data w = Some tr -> val_data w = Some va -> test_data w = Some te ->
  exists w',
    cell_subsample lib w = (Ok tt, w') /\
    train_data w' = Some (subsample tr) /\
    val_data w' = Some (subsample va) /\
    test_data w' = Some (subsample te) /\
    Forall (fun data : list (Sample lib) =>
      let n := Z.of_nat (length data) in
      subsample data = take (Z.to_nat (subsample_len n)) data /\
      first_elements (subsample_len n) data (subsample data) /\
      (n < 2 ^ 52 -> subsample_len n = n / 10))
      [tr; va; te].
Proof.
  intros Htr Hva Hte.
  eexists. split.
  { unfold cell_subsample, bind, get, dataset_data, modify, ret. cbn.
    rewrite Htr. cbn. rewrite Hva. cbn. rewrite Hte. cbn. reflexivity. }
  cbn. split; [done|]. split; [done|]. split; [done|].
  assert (Hone : forall data : list (Sample lib),
    let n := Z.of_nat (length data) in
    subsample data = take (Z.to_nat (subsample_len n)) data /\
    first_elements (subsample_len n) data (subsample data) /\
    (n < 2 ^ 52 -> subsample_len n = n / 10)).
  { intros data n. split; [done|]. split.
    - apply subsample_first_elements.
    - intros Hn. apply subsample_len_exact. lia. }
  repeat (constructor; [apply Hone|]). constructor.
Qed.

(** ** The inference helper *)

Lemma four_channels (im : Image) :
  length im = 4%nat -> exists c0 c1 c2 c3, im = [c0; c1; c2; c3].
Proof.
  intros H. do 4 (destruct im as [|? im]; [discriminate|]).
  destruct im; [|discriminate]. eauto.
Qed.

Lemma slices_are_channels (img : list Image) :
  Forall (fun im => length im = 4%nat) img ->
  slice_to 2 img = map (channels 0 2) img /\
  slice_from 2 img = map (channels 2 4) img.
Proof.
  intros H4. unfold slice_to, slice_from. split.
  - apply map_ext_Forall. eapply Forall_impl; [exact H4|].
    intros im Him. unfold channels. by rewrite drop_0.
  - apply map_ext_Forall. eapply Forall_impl; [exact H4|].
    intros im Him. unfold channels.
    destruct (four_channels im Him) as (c0 & c1 & c2 & c3 & ->). done.
Qed.

(** C2. On a tensor of 4-channel images, [img[:, :2]] holds channels 0 and 1
    of every image and [img[:, 2:]] holds channels 2 and 3: both have two
    channels, no channel is in both, none is left out, and joining the two
    along the channel axis gives the tensor back. *)
Theorem pre_post_slices_partition (img : list Image) :
  Forall (fun im => length im = 4%nat) img ->
  slice_to 2 img = map (channels 0 2) img /\
  slice_from 2 img = map (channels 2 4) img /\
  Forall (fun im => length im = 2%nat) (slice_to 2 img) /\
  Forall (fun im => length im = 2%nat) (slice_from 2 img) /\
  torch_concat (slice_to 2 img) (slice_from 2 img) = Ok img /\
  (forall (i : nat) (im : Image), img !! i = Some im ->
     exists c0 c1 c2 c3,
       im = [c0; c1; c2; c3] /\
       slice_to 2 img !! i = Some [c0; c1] /\
       slice_from 2 img !! i = Some [c2; c3]).
Proof.
  intros H4. destruct (slices_are_channels img H4) as [Hpre Hpost].
  split; [exact Hpre|]. split; [exact Hpost|].
  unfold slice_to, slice_from, torch_concat.
  split; [|split; [|split]].
  - apply Forall_fmap. eapply Forall_impl; [exact H4|].
    intros im Him. cbn beta in Him. change (length (take 2 im) = 2%nat).
    rewrite length_take. lia.
  - apply Forall_fmap. eapply Forall_impl; [exact H4|].
    intros im Him. cbn beta in Him. change (length (drop 2 im) = 2%nat).
    rewrite length_drop. lia.
  - rewrite !length_map, Nat.eqb_refl. f_equal.
    clear H4 Hpre Hpost. induction img as [|im img IH]; [done|].
    cbn. by rewrite take_drop, IH.
  - intros i im Hi.
    pose proof (proj1 (Forall_lookup _ _) H4 i im Hi) as Him.
    destruct (four_channels im Him) as (c0 & c1 & c2 & c3 & ->).
    exists c0, c1, c2, c3. split; [done|].
    rewrite !list_lookup_fmap, Hi. done.
Qed.

(** C1. On a batch of 4-channel images, when the library calls return
    normally, [infer] returns the pair of the embedding and of the batch's
    own label tensor.  The embedding is the row-wise concatenation of what
    the extractor gives, with gradient tracking disabled, for the
    transformed channels 0-1 and for the transformed channels 2-3.  The log
    shows the calls, and the gradient mode is back to what it was. *)
Theorem infer_returns_concatenated_embeddings
    (DEVICE : string) (batch : Batch (Chan lib) (Label lib)) (w : World)
    (m : Module lib) (dpre dpost : gmap string (list Image))
    (tpre tpost : list Image) (e1 e2 : list Row) (W1 W2 : Weights lib) :
  Forall (fun im => length im = 4%nat) (image batch) ->
  raises lib (tensor_to DEVICE) = None ->
  raises lib tensor_cpu = None ->
  raises lib tensor_numpy = None ->
  model_transform lib {[ "image" := map (channels 0 2) (image batch) ]} = Ok dpre ->
  dpre !! "image" = Some tpre ->
  model_transform lib {[ "image" := map (channels 2 4) (image batch) ]} = Ok dpost ->
  dpost !! "image" = Some tpost ->
  rn_model w = Some m ->
  forward lib (weights m) (training m) false tpre = (Ok e1, W1) ->
  forward lib W1 (training m) false tpost = (Ok e2, W2) ->
  length e1 = length e2 ->
  exists w',
    infer lib DEVICE batch w = (Ok (zip_with app e1 e2, label batch), w') /\
    grad_enabled w' = grad_enabled w /\
    log w' = log w ++
      [ (Call (tensor_to DEVICE), None);
        (Transform {[ "image" := map (channels 0 2) (image batch) ]}, None);
        (Transform {[ "image" := map (channels 2 4) (image batch) ]}, None);
        (Forward (training m) false tpre, None);
        (Forward (training m) false tpost, None);
        (Concat e1 e2, None);
        (Call tensor_cpu, None);
        (Call tensor_numpy, None) ].
Proof.
  intros H4 Hto Hcpu Hnumpy Hpre Hkpre Hpost Hkpost Hm Hf1 Hf2 Hlen.
  destruct (slices_are_channels (image batch) H4) as [Hs1 Hs2].
  unfold infer, transformed, call_rn_model, no_grad, opaque, lib_call.
  unfold bind, get, modify, ret.
  rewrite Hto. cbn -[slice_to slice_from write_to write_from].
  rewrite Hs1, Hpre. cbn -[slice_to slice_from write_to write_from].
  rewrite Hkpre. cbn -[slice_to slice_from write_to write_from].
  rewrite slice_from_write_to, Hs2, Hpost. cbn. rewrite Hkpost. cbn.
  rewrite Hm, Hf1. cbn. rewrite Hf2. cbn.
  unfold torch_concat. rewrite Hlen, Nat.eqb_refl. cbn.
  rewrite Hcpu. cbn. rewrite Hnumpy. cbn.
  eexists. split; [reflexivity|]. cbn. split; [done|].
  rewrite <- !app_assoc. reflexivity.
Qed.

(** ** The extraction loops *)

(** Case analysis on every library outcome met by the goal. *)
Ltac outcomes :=
  repeat match goal with
  | |- context [match raises lib ?f with _ => _ end] =>
      destruct (raises lib f); cbn
  | |- context [match model_transform lib ?d with _ => _ end] =>
      destruct (model_transform lib d); cbn
  | |- context [match ?d !! "image" with _ => _ end] =>
      destruct (d !! "image"); cbn
  | |- context [match rn_model ?w with _ => _ end] =>
      destruct (rn_model w); cbn
  | |- context [match (forward lib ?W ?t ?g ?x).1 with _ => _ end] =>
      destruct ((forward lib W t g x).1); cbn
  | |- context [match torch_concat ?a ?b with _ => _ end] =>
      destruct (torch_concat a b); cbn
  | |- context [match ?x with _ => _ end] => is_var x; destruct x; cbn
  end.

Ltac unfold_infer :=
  unfold infer, transformed, call_rn_model, no_grad, opaque, lib_call;
  unfold bind, get, modify, ret, raise; cbn zeta.

Lemma infer_keeps_dicts DEVICE batch (w : World) :
  embeddings (infer lib DEVICE batch w).2 = embeddings w /\
  labels (infer lib DEVICE batch w).2 = labels w.
Proof. unfold_infer. outcomes; done. Qed.

Lemma infer_keeps_datasets DEVICE batch (w : World) :
  train_data (infer lib DEVICE batch w).2 = train_data w /\
  val_data (infer lib DEVICE batch w).2 = val_data w /\
  test_data (infer lib DEVICE batch w).2 = test_data w.
Proof. unfold_infer. outcomes; done. Qed.

Lemma infer_same_torch DEVICE batch (w v : World) :
  same_torch w v ->
  (infer lib DEVICE batch w).1 = (infer lib DEVICE batch v).1 /\
  same_torch (infer lib DEVICE batch w).2 (infer lib DEVICE batch v).2.
Proof.
  intros [Hm Hg]. unfold same_torch.
  destruct w, v. cbn in Hm, Hg. subst.
  unfold_infer. cbn. outcomes; done.
Qed.

Lemma defaultdict_append_shape {V V' : Type} k (x : V) (y : V')
    (d : dict (list V)) (d' : dict (list V')) :
  shape d = shape d' ->
  shape (defaultdict_append k x d) = shape (defaultdict_append k y d').
Proof.
  unfold shape. revert d'.
  induction d as [|[k1 v1] d IH]; intros [|[k2 v2] d'] Hs;
    try discriminate; [done|].
  cbn in Hs. injection Hs as -> Hlen Hs. cbn.
  destruct (String.eqb k2 k); cbn.
  - rewrite !length_app. cbn. by rewrite Hlen, Hs.
  - rewrite Hlen. f_equal. by apply IH.
Qed.

Lemma bind_run {A B : Type} (m : M lib A) (k : A -> M lib B) (w : World) :
  bind m k w =
  match m w with
  | (Ok a, w') => k a w'
  | (Raise e, w') => (Raise e, w')
  end.
Proof. reflexivity. Qed.

Lemma for_each_cons {A : Type} (x : A) xs (body : A -> M lib unit) :
  for_each lib (x :: xs) body = bind (body x) (fun _ => for_each lib xs body).
Proof. reflexivity. Qed.

Lemma for_loader_cons loader b bs ending body :
  for_loader lib loader (b :: bs) ending body =
  bind (lib_call lib (Next loader) (Ok tt)) (fun _ =>
    bind (body b) (fun _ => for_loader lib loader bs ending body)).
Proof. reflexivity. Qed.

Lemma append_pair_run split pair (w : World) :
  append_pair lib split pair w =
  (Ok tt, set_labels (defaultdict_append split pair.2 (labels w))
            (set_embeddings (defaultdict_append split pair.1 (embeddings w)) w)).
Proof. reflexivity. Qed.

Lemma append_pair_balanced split pair (w : World) :
  balanced w -> balanced (append_pair lib split pair w).2.
Proof.
  rewrite append_pair_run. unfold balanced. cbn.
  apply defaultdict_append_shape.
Qed.

Lemma for_each_append_balanced split pairs (w : World) :
  balanced w -> balanced (for_each lib pairs (append_pair lib split) w).2.
Proof.
  revert w. induction pairs as [|pr pairs IH]; intros w Hb; [done|].
  rewrite for_each_cons, bind_run.
  pose proof (append_pair_balanced split pr w Hb) as Hb'.
  rewrite append_pair_run in *. by apply IH.
Qed.

Lemma for_each_append_ok split pairs (w : World) :
  (for_each lib pairs (append_pair lib split) w).1 = Ok tt.
Proof.
  revert w. induction pairs as [|pr pairs IH]; intros w; [done|].
  rewrite for_each_cons, bind_run, append_pair_run. apply IH.
Qed.

(** The body of the two loops over the batches. *)
Lemma loop_body_balanced DEVICE split b (w : World) :
  balanced w ->
  balanced (bind (infer lib DEVICE b) (fun r =>
      for_each lib (zip r.1 r.2) (append_pair lib split)) w).2.
Proof.
  intros Hb. rewrite bind_run.
  pose proof (infer_keeps_dicts DEVICE b w) as [He Hl].
  destruct (infer lib DEVICE b w) as [[r|e] w2]; cbn in He, Hl.
  - apply for_each_append_balanced. unfold balanced. by rewrite He, Hl.
  - unfold balanced. cbn. by rewrite He, Hl.
Qed.

Lemma for_loader_balanced DEVICE loader split bs ending (w : World) :
  balanced w ->
  balanced (for_loader lib loader bs ending (fun batch =>
      bind (infer lib DEVICE batch) (fun r =>
        for_each lib (zip r.1 r.2) (append_pair lib split))) w).2.
Proof.
  revert w. induction bs as [|b bs IH]; intros w Hb.
  - cbn. destruct ending; done.
  - rewrite for_loader_cons, bind_run. cbn [lib_call].
    set (w1 := set_log _ w).
    assert (Hb1 : balanced w1) by done.
    rewrite bind_run.
    pose proof (loop_body_balanced DEVICE split b w1 Hb1) as Hb2.
    destruct (bind (infer lib DEVICE b) _ w1) as [[[]|e] w2]; cbn in Hb2.
    + by apply IH.
    + done.
Qed.

Lemma extract_balanced p DEVICE loader data split (w : World) :
  balanced w -> balanced (extract lib p DEVICE loader data split w).2.
Proof.
  intros Hb. unfold extract. rewrite bind_run. cbn [lib_call].
  destruct (batches lib loader (batch_size p) (num_workers p) data)
    as [[bs ending]|e]; [|done].
  by apply for_loader_balanced.
Qed.

Lemma np_stack_ok (v v' : list Row) : np_stack lib v = Ok v' -> v' = v.
Proof.
  unfold np_stack. destruct v as [|r v]; [done|].
  case_match; [|done]. by intros [= <-].
Qed.

Lemma np_array_ok (v v' : list (Label lib)) : np_array lib v = Ok v' -> v' = v.
Proof. by intros [= <-]. Qed.

(** A comprehension whose function is a library call returning its argument
    changes the log only and gives the dict back. *)
Lemma dict_comprehension_call {V : Type} (c : V -> call lib) (g : V -> result V)
    (d : dict V) (w : World) :
  (forall v v', g v = Ok v' -> v' = v) ->
  let r := dict_comprehension lib (fun v => lib_call lib (c v) (g v)) d w in
  (exists evs, r.2 = set_log (log w ++ evs) w) /\
  (forall d', r.1 = Ok d' -> d' = d).
Proof.
  intros Hg. revert w. induction d as [|[k v] d IH]; intros w; cbn zeta.
  - cbn. split; [|by intros ? [= <-]].
    exists []. rewrite app_nil_r. by destruct w.
  - cbn [dict_comprehension]. rewrite bind_run. cbn [lib_call].
    destruct (g v) as [v'|e] eqn:Hv.
    + apply Hg in Hv as ->. rewrite bind_run.
      specialize (IH (set_log (log w ++ [(c v, error_of (Ok v))]) w)).
      cbn zeta in IH. destruct IH as [[evs Hevs] Hok].
      destruct (dict_comprehension lib _ d _) as [[d1|e] w1]; cbn in *.
      * split; [|intros ? [= <-]; by rewrite (Hok d1 eq_refl)].
        eexists. rewrite Hevs. cbn. by rewrite <- app_assoc.
      * split; [|done].
        eexists. rewrite Hevs. cbn. by rewrite <- app_assoc.
    + cbn. split; [|done]. by eexists.
Qed.

Lemma balanced_set_log l (w : World) : balanced (set_log l w) <-> balanced w.
Proof. done. Qed.

Lemma cell_embeddings_balanced p DEVICE (w : World) :
  balanced (cell_embeddings lib p DEVICE w).2.
Proof.
  unfold cell_embeddings.
  rewrite bind_run. cbn [modify]. rewrite bind_run. cbn [modify].
  set (w0 := set_labels [] _).
  assert (Hb0 : balanced w0) by done.
  rewrite bind_run. cbn [get]. rewrite bind_run.
  pose proof (extract_balanced p DEVICE train_dataloader (train_data w0) "train" w0 Hb0) as Hb1.
  destruct (extract lib p DEVICE train_dataloader _ _ w0) as [[[]|e] w1];
    cbn in Hb1; [|done].
  rewrite bind_run. cbn [get]. rewrite bind_run.
  pose proof (extract_balanced p DEVICE test_dataloader (test_data w1) "test" w1 Hb1) as Hb2.
  destruct (extract lib p DEVICE test_dataloader _ _ w1) as [[[]|e] w2];
    cbn in Hb2; [|done].
  rewrite bind_run. cbn [get]. rewrite bind_run.
  destruct (dict_comprehension_call (@Stack lib) (np_stack lib) (embeddings w2) w2
              np_stack_ok) as [[evs Hevs] Hok].
  destruct (dict_comprehension lib _ (embeddings w2) w2) as [[stacked|e] w3];
    cbn in Hevs, Hok; subst w3; [|done].
  rewrite (Hok stacked eq_refl).
  rewrite bind_run. cbn [modify]. rewrite bind_run. cbn [get]. rewrite bind_run.
  set (w4 := set_embeddings _ _).
  assert (Hb4 : balanced w4) by done.
  destruct (dict_comprehension_call (@Array lib) (np_array lib) (labels w4) w4
              np_array_ok) as [[evs' Hevs'] Hok'].
  destruct (dict_comprehension lib _ (labels w4) w4) as [[arrays|e] w5];
    cbn in Hevs', Hok'; subst w5; [|done].
  rewrite (Hok' arrays eq_refl). done.
Qed.

Lemma shape_lookup {V V' : Type} (d : dict (list V)) (d' : dict (list V')) k E :
  shape d = shape d' -> dict_get k d = Some E ->
  exists L, dict_get k d' = Some L /\ length E = length L.
Proof.
  unfold shape. revert d'.
  induction d as [|[k1 v1] d IH]; intros [|[k2 v2] d'] Hs Hk;
    try discriminate.
  cbn in Hs. injection Hs as -> Hlen Hs. cbn in *.
  destruct (String.eqb k2 k).
  - injection Hk as <-. eauto.
  - by apply IH.
Qed.

Lemma for_each_append_run split pairs (w : World) :
  for_each lib pairs (append_pair lib split) w =
  (Ok tt,
   set_labels
     (foldl (fun d pr => defaultdict_append split pr.2 d) (labels w) pairs)
     (set_embeddings
        (foldl (fun d pr => defaultdict_append split pr.1 d) (embeddings w) pairs)
        w)).
Proof.
  revert w. induction pairs as [|pr pairs IH]; intros w.
  - cbn. by destruct w.
  - rewrite for_each_cons, bind_run, append_pair_run, IH. reflexivity.
Qed.

(** [d[k].append(x)] on a [defaultdict(list)] followed by a lookup. *)
Lemma dict_get_defaultdict_append {V : Type} (k k' : string) (x : V)
    (d : dict (list V)) :
  dict_get k' (defaultdict_append k x d) =
  if String.eqb k k' then Some (items_of k d ++ [x]) else dict_get k' d.
Proof.
  unfold items_of. induction d as [|[k0 v] d IH]; cbn.
  - rewrite String.eqb_sym. by destruct (String.eqb k' k).
  - destruct (String.eqb_spec k0 k) as [->|Hk]; cbn.
    + destruct (String.eqb_spec k k') as [->|Hk']; [done|done].
    + destruct (String.eqb_spec k0 k') as [->|Hk0].
      * destruct (String.eqb_spec k k') as [->|_]; done.
      * exact IH.
Qed.

Lemma items_of_defaultdict_append {V : Type} (k : string) (x : V)
    (d : dict (list V)) :
  items_of k (defaultdict_append k x d) = items_of k d ++ [x].
Proof.
  unfold items_of at 1.
  by rewrite dict_get_defaultdict_append, String.eqb_refl.
Qed.

Lemma dict_get_defaultdict_append_ne {V : Type} (k k' : string) (x : V)
    (d : dict (list V)) :
  k' <> k -> dict_get k' (defaultdict_append k x d) = dict_get k' d.
Proof.
  intros Hne. rewrite dict_get_defaultdict_append.
  destruct (String.eqb_spec k k'); congruence.
Qed.

(** Appending a list of items one by one under a key. *)
Lemma foldl_append_items {A V : Type} (g : A -> V) (k : string) (xs : list A)
    (d : dict (list V)) :
  items_of k (foldl (fun d x => defaultdict_append k (g x) d) d xs) =
    items_of k d ++ map g xs /\
  (forall k', k' <> k ->
     dict_get k' (foldl (fun d x => defaultdict_append k (g x) d) d xs) =
     dict_get k' d).
Proof.
  revert d. induction xs as [|x xs IH]; intros d; cbn [foldl map].
  - by rewrite app_nil_r.
  - destruct (IH (defaultdict_append k (g x) d)) as [Hk Hother].
    rewrite Hk, items_of_defaultdict_append, <- app_assoc. split; [done|].
    intros k' Hne. rewrite Hother by done.
    by apply dict_get_defaultdict_append_ne.
Qed.

Lemma shape_items {V V' : Type} (d : dict (list V)) (d' : dict (list V')) k :
  shape d = shape d' ->
  (is_Some (dict_get k d) <-> is_Some (dict_get k d')) /\
  length (items_of k d) = length (items_of k d').
Proof.
  unfold shape, items_of. revert d'.
  induction d as [|[k1 v1] d IH]; intros [|[k2 v2] d'] Hs;
    try discriminate.
  - cbn. split; [|done]. split; intros [? ?]; discriminate.
  - cbn in Hs. injection Hs as -> Hlen Hs. cbn.
    destruct (String.eqb k2 k); [|by apply IH].
    cbn. split; [|done]. split; intros _; by eexists.
Qed.

(** C9. Every iteration of the inner loop appends exactly one embedding
    and one label, at the end of the lists of its split, and touches no
    other split; the inner loop over the zipped pairs of a batch appends
    exactly these pairs, in their order.  So from a state with as many
    accumulated embeddings as labels per split, every iteration of the inner
    loop, any number of them, any number of iterations of a loop over
    batches, however it ends, and the whole cell keep it so, and the cell
    leaves arrays for the same splits, an embedding array and a label array
    of the same first dimension for each. *)
Theorem embeddings_and_labels_stay_paired (p : Params) (DEVICE : string) (w : World) :
  balanced w ->
  (forall split pair,
     let w' := (append_pair lib split pair w).2 in
     dict_get split (embeddings w') =
       Some (items_of split (embeddings w) ++ [pair.1]) /\
     dict_get split (labels w') =
       Some (items_of split (labels w) ++ [pair.2]) /\
     (forall k, k <> split ->
        dict_get k (embeddings w') = dict_get k (embeddings w) /\
        dict_get k (labels w') = dict_get k (labels w))) /\
  (forall split pairs,
     let w' := (for_each lib pairs (append_pair lib split) w).2 in
     items_of split (embeddings w') =
       items_of split (embeddings w) ++ pairs.*1 /\
     items_of split (labels w') =
       items_of split (labels w) ++ pairs.*2 /\
     (forall k, k <> split ->
        dict_get k (embeddings w') = dict_get k (embeddings w) /\
        dict_get k (labels w') = dict_get k (labels w))) /\
  (forall split batch r w1,
     infer lib DEVICE batch w = (Ok r, w1) ->
     let w' := (bind (infer lib DEVICE batch) (fun r =>
                  for_each lib (zip r.1 r.2) (append_pair lib split)) w).2 in
     items_of split (embeddings w') =
       items_of split (embeddings w) ++ take (length r.2) r.1 /\
     items_of split (labels w') =
       items_of split (labels w) ++ take (length r.1) r.2 /\
     balanced w') /\
  (forall split pair, balanced (append_pair lib split pair w).2) /\
  (forall split pairs,
     balanced (for_each lib pairs (append_pair lib split) w).2) /\
  (forall loader split bs ending,
     balanced (for_loader lib loader bs ending (fun batch =>
       bind (infer lib DEVICE batch) (fun r =>
         for_each lib (zip r.1 r.2) (append_pair lib split))) w).2) /\
  (forall loader data split,
     balanced (extract lib p DEVICE loader data split w).2) /\
  balanced (cell_embeddings lib p DEVICE w).2 /\
  (forall k,
     let w' := (cell_embeddings lib p DEVICE w).2 in
     (is_Some (dict_get k (embeddings w')) <->
      is_Some (dict_get k (labels w'))) /\
     length (items_of k (embeddings w')) = length (items_of k (labels w'))) /\
  (forall k E,
     dict_get k (embeddings (cell_embeddings lib p DEVICE w).2) = Some E ->
     exists L, dict_get k (labels (cell_embeddings lib p DEVICE w).2) = Some L /\
               length E = length L).
Proof.
  intros Hb. split_and!.
  - intros split pair w'. subst w'. rewrite append_pair_run. cbn.
    rewrite !dict_get_defaultdict_append, String.eqb_refl.
    split; [done|]. split; [done|]. intros k Hk.
    by rewrite !dict_get_defaultdict_append_ne.
  - intros split pairs w'. subst w'. rewrite for_each_append_run. cbn.
    destruct (foldl_append_items (fun pr : Row * Label lib => pr.1) split
                pairs (embeddings w)) as [He Heo].
    destruct (foldl_append_items (fun pr : Row * Label lib => pr.2) split
                pairs (labels w)) as [Hl Hlo].
    split; [exact He|]. split; [exact Hl|]. intros k Hk. split; auto.
  - intros split batch r w1 Hinfer w'. subst w'.
    rewrite bind_run, Hinfer.
    pose proof (infer_keeps_dicts DEVICE batch w) as [Hemb Hlab].
    rewrite Hinfer in Hemb, Hlab. cbn [fst snd] in Hemb, Hlab.
    assert (Hb1 : balanced w1).
    { unfold balanced. rewrite Hemb, Hlab. exact Hb. }
    split_and!; [| |by apply for_each_append_balanced].
    + rewrite for_each_append_run.
      unfold set_labels, set_embeddings. cbn [fst snd embeddings labels].
      destruct (foldl_append_items (fun pr : Row * Label lib => pr.1) split
                  (zip r.1 r.2) (embeddings w1)) as [He _].
      rewrite He, Hemb. f_equal. apply fst_zip_take.
    + rewrite for_each_append_run.
      unfold set_labels, set_embeddings. cbn [fst snd embeddings labels].
      destruct (foldl_append_items (fun pr : Row * Label lib => pr.2) split
                  (zip r.1 r.2) (labels w1)) as [Hl _].
      rewrite Hl, Hlab. f_equal. apply snd_zip_take.
  - intros. by apply append_pair_balanced.
  - intros. by apply for_each_append_balanced.
  - intros. by apply for_loader_balanced.
  - intros. by apply extract_balanced.
  - apply cell_embeddings_balanced.
  - intros k w'. apply shape_items. apply cell_embeddings_balanced.
  - intros k E. apply shape_lookup, cell_embeddings_balanced.
Qed.

(** *** What the loops collect *)


Lemma defaultdict_append_fresh {V : Type} k (x : V) (d : dict (list V)) :
  dict_get k d = None -> defaultdict_append k x d = d ++ [(k, [x])].
Proof.
  induction d as [|[k1 v1] d IH]; intros Hk; [done|].
  cbn in *. destruct (String.eqb k1 k); [done|]. by rewrite IH.
Qed.

Lemma defaultdict_append_last {V : Type} k (x : V) (d : dict (list V)) l :
  dict_get k d = None ->
  defaultdict_append k x (d ++ [(k, l)]) = d ++ [(k, l ++ [x])].
Proof.
  induction d as [|[k1 v1] d IH]; intros Hk.
  - cbn. by rewrite String.eqb_refl.
  - cbn in *. destruct (String.eqb k1 k); [done|]. by rewrite IH.
Qed.

Lemma foldl_append_last {V : Type} k (xs : list V) (d : dict (list V)) l :
  dict_get k d = None ->
  foldl (fun d x => defaultdict_append k x d) (d ++ [(k, l)]) xs
  = d ++ [(k, l ++ xs)].
Proof.
  intros Hk. revert l. induction xs as [|x xs IH]; intros l.
  - cbn. by rewrite app_nil_r.
  - cbn. rewrite defaultdict_append_last by done. rewrite IH.
    by rewrite <- app_assoc.
Qed.

Lemma foldl_append_fresh {V : Type} k (xs : list V) (d : dict (list V)) :
  dict_get k d = None ->
  foldl (fun d x => defaultdict_append k x d) d xs = d ++ present k xs.
Proof.
  intros Hk. destruct xs as [|x xs].
  - cbn. by rewrite app_nil_r.
  - cbn [foldl]. rewrite defaultdict_append_fresh by done.
    by rewrite foldl_append_last.
Qed.

Lemma foldl_append_fst {V V' : Type} k (pairs : list (V * V')) (d : dict (list V)) :
  foldl (fun d pr => defaultdict_append k pr.1 d) d pairs
  = d ++ present k pairs.*1 \/ dict_get k d <> None.
Proof.
  destruct (dict_get k d) eqn:Hk; [by right|left].
  rewrite <- foldl_append_fresh by done. clear Hk.
  revert d. induction pairs as [|pr pairs IH]; intros d; [done|]. cbn. apply IH.
Qed.

Lemma foldl_append_snd {V V' : Type} k (pairs : list (V * V')) (d : dict (list V')) :
  foldl (fun d pr => defaultdict_append k pr.2 d) d pairs
  = d ++ present k pairs.*2 \/ dict_get k d <> None.
Proof.
  destruct (dict_get k d) eqn:Hk; [by right|left].
  rewrite <- foldl_append_fresh by done. clear Hk.
  revert d. induction pairs as [|pr pairs IH]; intros d; [done|]. cbn. apply IH.
Qed.

Lemma infer_all_cons DEVICE b bs :
  infer_all lib DEVICE (b :: bs) =
  bind (infer lib DEVICE b) (fun r =>
    bind (infer_all lib DEVICE bs) (fun rs => ret (r :: rs))).
Proof. reflexivity. Qed.

Lemma for_loader_collects DEVICE loader split bs :
  forall (w v : World) rs v1,
  same_torch w v ->
  infer_all lib DEVICE bs v = (Ok rs, v1) ->
  exists w',
    for_loader lib loader bs None (fun batch =>
      bind (infer lib DEVICE batch) (fun r =>
        for_each lib (zip r.1 r.2) (append_pair lib split))) w = (Ok tt, w') /\
    same_torch w' v1 /\
    embeddings w' =
      foldl (fun d pr => defaultdict_append split pr.1 d) (embeddings w)
        (flat_map pairs_of rs) /\
    labels w' =
      foldl (fun d pr => defaultdict_append split pr.2 d) (labels w)
        (flat_map pairs_of rs) /\
    train_data w' = train_data w /\
    val_data w' = val_data w /\
    test_data w' = test_data w.
Proof.
  induction bs as [|b bs IH]; intros w v rs v1 Hsame Hall.
  - cbn in Hall. injection Hall as <- <-. exists w. by split_and!.
  - rewrite infer_all_cons, bind_run in Hall.
    destruct (infer lib DEVICE b v) as [[r|e] v'] eqn:Hv; [|done].
    rewrite bind_run in Hall.
    destruct (infer_all lib DEVICE bs v') as [[rs'|e] v1'] eqn:Hrest; [|done].
    cbn in Hall. injection Hall as <- <-.
    rewrite for_loader_cons, bind_run. cbn [lib_call].
    set (w1 := set_log _ w).
    assert (Hsame1 : same_torch w1 v) by done.
    destruct (infer_same_torch DEVICE b w1 v Hsame1) as [Hres Hsame2].
    pose proof (infer_keeps_dicts DEVICE b w1) as [He Hl].
    pose proof (infer_keeps_datasets DEVICE b w1) as (Htr & Hva & Hte).
    rewrite Hv in Hres, Hsame2.
    rewrite !bind_run.
    destruct (infer lib DEVICE b w1) as [r1 w2].
    cbn [fst snd] in Hres, Hsame2, He, Hl, Htr, Hva, Hte. subst r1.
    rewrite for_each_append_run.
    set (w3 := set_labels _ _).
    destruct (IH w3 v' rs' v1' Hsame2 Hrest)
      as (w' & Hrun & Hsame' & He' & Hl' & Htr' & Hva' & Hte').
    exists w'. split; [done|]. split; [done|].
    subst w3. cbn in *.
    rewrite He', Hl', Htr', Hva', Hte', He, Hl, Htr, Hva, Hte.
    rewrite !foldl_app. done.
Qed.

Lemma extract_collects p DEVICE loader data split bs (w v : World) rs v1 :
  batches lib loader (batch_size p) (num_workers p) data = Ok (bs, None) ->
  same_torch w v ->
  infer_all lib DEVICE bs v = (Ok rs, v1) ->
  exists w',
    extract lib p DEVICE loader data split w = (Ok tt, w') /\
    same_torch w' v1 /\
    embeddings w' =
      foldl (fun d pr => defaultdict_append split pr.1 d) (embeddings w)
        (flat_map pairs_of rs) /\
    labels w' =
      foldl (fun d pr => defaultdict_append split pr.2 d) (labels w)
        (flat_map pairs_of rs) /\
    train_data w' = train_data w /\
    val_data w' = val_data w /\
    test_data w' = test_data w.
Proof.
  intros Hb Hsame Hall. unfold extract. rewrite bind_run. cbn [lib_call].
  rewrite Hb. cbn [fst snd].
  set (w1 := set_log _ w).
  apply (for_loader_collects DEVICE loader split bs w1 v rs v1); done.
Qed.

Lemma np_stack_uniform (v : list Row) :
  v <> [] -> uniform v -> np_stack lib v = Ok v.
Proof.
  intros Hne [n Hn]. unfold np_stack. destruct v as [|r v]; [done|].
  replace (forallb _ (r :: v)) with true; [done|].
  symmetry. apply forallb_forall. intros r' Hr'.
  apply Nat.eqb_eq.
  rewrite Forall_forall in Hn.
  rewrite (Hn r'), (Hn r); [done|by left|by apply list_elem_of_In].
Qed.

Lemma dict_comprehension_ok {V : Type} (c : V -> call lib) (g : V -> result V)
    (d : dict V) (w : World) :
  Forall (fun kv => g kv.2 = Ok kv.2) d ->
  exists evs,
    dict_comprehension lib (fun v => lib_call lib (c v) (g v)) d w
    = (Ok d, set_log (log w ++ evs) w).
Proof.
  intros Hd. revert w. induction Hd as [|[k v] d Hv Hd IH]; intros w.
  - exists []. cbn. rewrite app_nil_r. by destruct w.
  - cbn [dict_comprehension]. rewrite bind_run. cbn [lib_call].
    cbn in Hv. rewrite Hv. rewrite bind_run.
    destruct (IH (set_log (log w ++ [(c v, error_of (Ok v))]) w)) as [evs ->].
    cbn. eexists. by rewrite <- app_assoc.
Qed.

Lemma present_stackable k (v : list Row) :
  uniform v -> Forall (fun kv => np_stack lib kv.2 = Ok kv.2) (present k v).
Proof.
  intros Hu. destruct v as [|r v]; [constructor|].
  constructor; [|constructor]. by apply np_stack_uniform.
Qed.

Lemma zip_fst_snd_same_length {A B : Type} (a : list A) (b : list B) :
  length a = length b -> (zip a b).*1 = a /\ (zip a b).*2 = b.
Proof.
  intros H. split; [apply fst_zip | apply snd_zip]; lia.
Qed.

Lemma flat_map_pairs_full (rs : list (list Row * list (Label lib))) :
  Forall (fun r => length r.1 = length r.2) rs ->
  (flat_map pairs_of rs).*1 = concat rs.*1 /\
  (flat_map pairs_of rs).*2 = concat rs.*2.
Proof.
  induction 1 as [|r rs Hr Hrs [IH1 IH2]]; [done|].
  change (flat_map pairs_of (r :: rs))
    with (zip r.1 r.2 ++ flat_map pairs_of rs).
  rewrite !fmap_app, IH1, IH2.
  destruct (zip_fst_snd_same_length r.1 r.2 Hr) as [-> ->]. done.
Qed.

Lemma present_keys {V : Type} k (v : list V) :
  v <> [] -> dict_keys (present k v) = [k].
Proof. by destruct v. Qed.

(** C4, as the notebook has it.  When both loaders end normally, [infer]
    returns for every batch and the rows collected per split have one
    width, the cell ends with, for a split, the key of the split exactly
    when the loop of the split collected at least one pair of an embedding
    and a label: both keys, "train" then "test", when both loops collected
    one.  Under its key, [embeddings] holds the rows that [zip] paired with
    a label in the result of [infer] for each batch, in the order of the
    batches, and [labels] holds the labels paired with them, in the same
    order; these are all the rows and labels when [infer] returns as many
    rows as labels. *)
Theorem cell_embeddings_collects_per_split
    (p : Params) (DEVICE : string) (w w1 w2 : World)
    (bs_train bs_test : list (Batch (Chan lib) (Label lib)))
    (rs_train rs_test : list (list Row * list (Label lib))) :
  batches lib train_dataloader (batch_size p) (num_workers p) (train_data w)
    = Ok (bs_train, None) ->
  batches lib test_dataloader (batch_size p) (num_workers p) (test_data w)
    = Ok (bs_test, None) ->
  infer_all lib DEVICE bs_train w = (Ok rs_train, w1) ->
  infer_all lib DEVICE bs_test w1 = (Ok rs_test, w2) ->
  uniform (flat_map pairs_of rs_train).*1 ->
  uniform (flat_map pairs_of rs_test).*1 ->
  exists w',
    cell_embeddings lib p DEVICE w = (Ok tt, w') /\
    embeddings w' = present "train" (flat_map pairs_of rs_train).*1 ++
                    present "test" (flat_map pairs_of rs_test).*1 /\
    labels w' = present "train" (flat_map pairs_of rs_train).*2 ++
                present "test" (flat_map pairs_of rs_test).*2 /\
    (flat_map pairs_of rs_train <> [] -> flat_map pairs_of rs_test <> [] ->
       dict_keys (embeddings w') = ["train"; "test"] /\
       dict_keys (labels w') = ["train"; "test"]) /\
    (Forall (fun r => length r.1 = length r.2) rs_train ->
       (flat_map pairs_of rs_train).*1 = concat rs_train.*1 /\
       (flat_map pairs_of rs_train).*2 = concat rs_train.*2) /\
    (Forall (fun r => length r.1 = length r.2) rs_test ->
       (flat_map pairs_of rs_test).*1 = concat rs_test.*1 /\
       (flat_map pairs_of rs_test).*2 = concat rs_test.*2).
Proof.
  intros Hbtr Hbte Htr Hte Hutr Hute.
  set (ptr := flat_map pairs_of rs_train) in *.
  set (pte := flat_map pairs_of rs_test) in *.
  unfold cell_embeddings.
  rewrite bind_run. cbn [modify]. rewrite bind_run. cbn [modify].
  set (w0 := set_labels [] _).
  rewrite bind_run. cbn [get]. rewrite bind_run.
  destruct (extract_collects p DEVICE train_dataloader (train_data w0) "train"
              bs_train w0 w rs_train w1 Hbtr ltac:(done) Htr)
    as (wa & -> & Hsa & Hea & Hla & _ & _ & Htea).
  rewrite bind_run. cbn [get]. rewrite bind_run.
  rewrite Htea in *. change (test_data w0) with (test_data w).
  destruct (extract_collects p DEVICE test_dataloader (test_data w) "test"
              bs_test wa w1 rs_test w2 Hbte Hsa Hte)
    as (wb & -> & Hsb & Heb & Hlb & _ & _ & _).
  fold ptr in Hea, Hla. fold pte in Heb, Hlb.
  change (embeddings w0) with (@nil (string * list Row)) in Hea.
  change (labels w0) with (@nil (string * list (Label lib))) in Hla.
  destruct (foldl_append_fst "train" ptr (@nil (string * list Row)))
    as [Hea'|]; [|done].
  destruct (foldl_append_snd "train" ptr (@nil (string * list (Label lib))))
    as [Hla'|]; [|done].
  rewrite Hea' in Hea. rewrite Hla' in Hla. cbn [app] in Hea, Hla.
  assert (Hfresh : forall V (v : list V), dict_get "test" (present "train" v) = None)
    by (by intros V [|]).
  destruct (foldl_append_fst "test" pte (embeddings wa)) as [Heb'|Hbad];
    [|by rewrite Hea, Hfresh in Hbad].
  destruct (foldl_append_snd "test" pte (labels wa)) as [Hlb'|Hbad];
    [|by rewrite Hla, Hfresh in Hbad].
  rewrite Heb', Hea in Heb. rewrite Hlb', Hla in Hlb.
  rewrite bind_run. cbn [get]. rewrite bind_run.
  destruct (dict_comprehension_ok (@Stack lib) (np_stack lib) (embeddings wb) wb)
    as [evs ->].
  { rewrite Heb. apply Forall_app. split; by apply present_stackable. }
  rewrite bind_run. cbn [modify]. rewrite bind_run. cbn [get]. rewrite bind_run.
  set (wc := set_embeddings _ _).
  destruct (dict_comprehension_ok (@Array lib) (np_array lib) (labels wc) wc)
    as [evs' ->].
  { apply Forall_forall. done. }
  cbn [modify]. eexists. split; [reflexivity|].
  cbn. rewrite Heb, Hlb.
  split; [done|]. split; [done|]. split; [|split].
  - intros Hne1 Hne2. unfold dict_keys. rewrite !fmap_app.
    fold (dict_keys (present "train" ptr.*1)).
    fold (dict_keys (present "test" pte.*1)).
    fold (dict_keys (present "train" ptr.*2)).
    fold (dict_keys (present "test" pte.*2)).
    rewrite !present_keys; [done|..];
      intros Hnil; apply fmap_nil_inv in Hnil; done.
  - apply flat_map_pairs_full.
  - apply flat_map_pairs_full.
Qed.

(** ** The random forest *)

(** C5. When the library calls return normally, the classifier cell changes
    nothing but the log, to which it adds exactly: the construction of the
    forest, its fit on the train embeddings and the train labels, the
    prediction of the fitted forest on the test embeddings, the report of
    the test labels against these predictions, and the printing of that
    report. *)
Theorem cell_classifier_fits_train_evaluates_test
    (w : World) (X X_test : list Row) (y y_test preds : list (Label lib))
    (clf : Classifier lib) (report : string) :
  raises lib RandomForestClassifier_new = None ->
  dict_get "train" (embeddings w) = Some X ->
  dict_get "train" (labels w) = Some y ->
  dict_get "test" (embeddings w) = Some X_test ->
  dict_get "test" (labels w) = Some y_test ->
  fit lib X y = Ok clf ->
  predict lib clf X_test = Ok preds ->
  classification_report lib y_test preds = Ok report ->
  cell_classifier lib w =
    (Ok tt,
     set_log (log w ++
       [ (Call RandomForestClassifier_new, None);
         (Fit X y, None);
         (Predict X_test, None);
         (Report y_test preds, None);
         (Print report, None) ]) w).
Proof.
  intros Hnew HX Hy HXt Hyt Hfit Hpred Hrep.
  unfold cell_classifier, opaque, subscript, lib_call.
  unfold bind, get, ret. rewrite Hnew. cbn.
  rewrite HX, Hy. cbn. rewrite Hfit. cbn.
  rewrite HXt. cbn. rewrite Hpred. cbn.
  rewrite Hyt. cbn. rewrite Hrep. cbn.
  by rewrite <- !app_assoc.
Qed.

(** ** Exceptions *)

Lemma all_okb_true (l : list (entry lib)) : all_okb l = true -> all_ok l.
Proof.
  unfold all_okb, all_ok. intros H. apply Forall_forall. intros en Hen.
  rewrite forallb_forall in H. apply list_elem_of_In in Hen.
  specialize (H en Hen). by destruct (en.2).
Qed.

Lemma all_ok_app (l1 l2 : list (entry lib)) :
  all_ok (l1 ++ l2) <-> all_ok l1 /\ all_ok l2.
Proof. apply Forall_app. Qed.

Lemma propagates_ret {A : Type} (a : A) : propagates (ret (lib := lib) a).
Proof. intros w. exists []. cbn. rewrite app_nil_r. split; [done|constructor]. Qed.

Lemma propagates_raise {A : Type} (e : exn) :
  propagates (raise (lib := lib) (A := A) e).
Proof.
  intros w. exists []. cbn. rewrite app_nil_r. split; [done|]. left. constructor.
Qed.

Lemma propagates_get : propagates (get (lib := lib)).
Proof. intros w. exists []. cbn. rewrite app_nil_r. split; [done|constructor]. Qed.

Lemma propagates_modify (f : World -> World) :
  (forall w, log (f w) = log w) -> propagates (modify f).
Proof.
  intros Hf w. exists []. cbn. rewrite app_nil_r, Hf. split; [done|constructor].
Qed.

Lemma propagates_lib_call {A : Type} (c : call lib) (r : result A) :
  propagates (lib_call lib c r).
Proof.
  intros w. exists [(c, error_of r)]. cbn. split; [done|].
  destruct r as [a|e]; cbn.
  - repeat constructor.
  - right. exists [], c. split; [done|constructor].
Qed.

Lemma propagates_bind {A B : Type} (m : M lib A) (k : A -> M lib B) :
  propagates m -> (forall a, propagates (k a)) -> propagates (bind m k).
Proof.
  intros Hm Hk w. rewrite bind_run.
  destruct (Hm w) as (evs1 & Hlog1 & Hf1).
  destruct (m w) as [[a|e] w1]; cbn in Hlog1, Hf1.
  - destruct (Hk a w1) as (evs2 & Hlog2 & Hf2).
    exists (evs1 ++ evs2). rewrite Hlog2, Hlog1, app_assoc. split; [done|].
    destruct ((k a w1).1) as [b|e]; cbn in *.
    + by apply all_ok_app.
    + destruct Hf2 as [Hok|(evs0 & c & -> & Hok)].
      * left. by apply all_ok_app.
      * right. exists (evs1 ++ evs0), c. rewrite app_assoc.
        split; [done|]. by apply all_ok_app.
  - exists evs1. done.
Qed.

Lemma propagates_no_grad {A : Type} (body : M lib A) :
  propagates body -> propagates (no_grad lib body).
Proof.
  intros Hb w. unfold no_grad.
  destruct (Hb (set_grad_enabled false w)) as (evs & Hlog & Hf).
  destruct (body (set_grad_enabled false w)) as [r w1]. by exists evs.
Qed.

Lemma propagates_for_each {A : Type} (xs : list A) (body : A -> M lib unit) :
  (forall x, propagates (body x)) -> propagates (for_each lib xs body).
Proof.
  intros Hb. induction xs as [|x xs IH]; [apply propagates_ret|].
  rewrite for_each_cons. by apply propagates_bind.
Qed.

Lemma propagates_for_loader loader bs ending body :
  (forall b, propagates (body b)) ->
  propagates (for_loader lib loader bs ending body).
Proof.
  intros Hb. induction bs as [|b bs IH].
  - cbn. destruct ending; [apply propagates_lib_call|apply propagates_ret].
  - rewrite for_loader_cons.
    apply propagates_bind; [apply propagates_lib_call|intros _].
    by apply propagates_bind.
Qed.

Lemma propagates_dict_comprehension {V V' : Type} (f : V -> M lib V') (d : dict V) :
  (forall v, propagates (f v)) -> propagates (dict_comprehension lib f d).
Proof.
  intros Hf. induction d as [|[k v] d IH]; [apply propagates_ret|].
  cbn [dict_comprehension].
  apply propagates_bind; [done|intros v'].
  apply propagates_bind; [done|intros rest]. apply propagates_ret.
Qed.

(** One step of the structural proof that a statement propagates. *)
Ltac propagate_step :=
  match goal with
  | |- propagates (bind _ _) => apply propagates_bind; [|intros ?]
  | |- propagates (ret _) => apply propagates_ret
  | |- propagates (raise _) => apply propagates_raise
  | |- propagates get => apply propagates_get
  | |- propagates (modify _) => apply propagates_modify; done
  | |- propagates (lib_call _ _ _) => apply propagates_lib_call
  | |- propagates (opaque _ _) => apply propagates_lib_call
  | |- propagates (no_grad _ _) => apply propagates_no_grad
  | |- propagates (for_each _ _ _) => apply propagates_for_each; intros ?
  | |- propagates (for_loader _ _ _ _ _) =>
      apply propagates_for_loader; intros ?
  | |- propagates (dict_comprehension _ _ _) =>
      apply propagates_dict_comprehension; intros ?
  | |- propagates (match ?x with _ => _ end) => destruct x
  end.

Lemma propagates_infer DEVICE batch : propagates (infer lib DEVICE batch).
Proof.
  unfold infer, transformed, call_rn_model. repeat propagate_step.
Qed.

Lemma propagates_cell_embeddings p DEVICE :
  propagates (cell_embeddings lib p DEVICE).
Proof.
  unfold cell_embeddings, extract, append_pair.
  repeat first [apply propagates_infer | propagate_step].
Qed.

Lemma propagates_up_to_embeddings p : propagates (up_to_embeddings lib p).
Proof.
  unfold up_to_embeddings, cell_datamodule, cell_prepare_data, cell_plot,
    datamodule_setup_fit, datamodule_setup_test, val_dataset_first,
    cell_device, cell_subsample, dataset_data, cell_model.
  repeat first [apply propagates_cell_embeddings | propagate_step].
Qed.

Lemma propagates_cell_classifier : propagates (cell_classifier lib).
Proof. unfold cell_classifier, subscript. repeat propagate_step. Qed.

Lemma propagates_notebook p : propagates (notebook lib p).
Proof.
  unfold notebook, cell_task, cell_trainer, cell_fit, cell_test.
  repeat first [apply propagates_up_to_embeddings
               | apply propagates_cell_classifier | propagate_step].
Qed.

Lemma failed_call_is_last (evs0 l1 l2 : list (entry lib)) c e c' e' :
  all_ok evs0 ->
  l1 ++ (c, Some e) :: l2 = evs0 ++ [(c', Some e')] ->
  l2 = [] /\ l1 = evs0 /\ e = e'.
Proof.
  intros Hok. revert l1. induction Hok as [|x evs0 Hx Hok IH]; intros l1 Heq.
  - destruct l1 as [|y l1]; cbn in Heq.
    + by simplify_eq.
    + injection Heq as _ Heq. by destruct l1.
  - destruct l1 as [|y l1]; cbn in Heq.
    + by simplify_eq.
    + injection Heq as <- Heq. destruct (IH l1 Heq) as (-> & -> & ->). done.
Qed.

Lemma all_ok_no_failure (l1 l2 : list (entry lib)) c e :
  all_ok (l1 ++ (c, Some e) :: l2) -> False.
Proof.
  intros H. apply all_ok_app in H as [_ H]. by inversion H.
Qed.

(** C7. In a run of the notebook, a library call that raised is the last
    call made, every call before it returned, and the notebook ends with
    the exception that call raised: nothing catches it, replaces it, or
    calls the library again. *)
Theorem library_failures_propagate_unchanged (p : Params) :
  let r := notebook lib p (initial lib) in
  forall l1 c e l2,
    log r.2 = l1 ++ (c, Some e) :: l2 ->
    l2 = [] /\ all_ok l1 /\ r.1 = Raise e.
Proof.
  intros r l1 c e l2 Hlog. subst r.
  destruct (propagates_notebook p (initial lib)) as (evs & Hevs & Hf).
  cbn [initial log app] in Hevs. rewrite Hevs in Hlog. subst evs.
  destruct ((notebook lib p (initial lib)).1) as [[]|e']; cbn in Hf.
  - by apply all_ok_no_failure in Hf.
  - destruct Hf as [Hok|(evs0 & c' & Heq & Hok)].
    + by apply all_ok_no_failure in Hok.
    + destruct (failed_call_is_last evs0 l1 l2 c e c' e' Hok Heq)
        as (-> & -> & ->). done.
Qed.

(** ** The order of the calls *)

Section Order.

Variable rank : call lib -> option nat.

Lemma ranks_app (l1 l2 : list (entry lib)) :
  ranks rank (l1 ++ l2) = ranks rank l1 ++ ranks rank l2.
Proof. apply omap_app. Qed.

Lemma within_nil lo hi : within rank lo hi [].
Proof. split; constructor. Qed.

Lemma within_app lo mid hi (l1 l2 : list (entry lib)) :
  (lo <= mid <= hi)%nat ->
  within rank lo mid l1 -> within rank mid hi l2 ->
  within rank lo hi (l1 ++ l2).
Proof.
  intros Hmid [Hs1 Hr1] [Hs2 Hr2]. unfold within, in_order in *.
  rewrite ranks_app. split.
  - apply StronglySorted_app. split_and!; [|done|done].
    intros x1 x2 Hx1 Hx2.
    rewrite Forall_forall in Hr1, Hr2.
    specialize (Hr1 x1 Hx1). specialize (Hr2 x2 Hx2). lia.
  - apply Forall_app. split.
    + eapply Forall_impl; [exact Hr1|]. intros r Hr. cbn in Hr. lia.
    + eapply Forall_impl; [exact Hr2|]. intros r Hr. cbn in Hr. lia.
Qed.

Lemma within_weaken lo hi lo' hi' (l : list (entry lib)) :
  (lo' <= lo)%nat -> (hi <= hi')%nat ->
  within rank lo hi l -> within rank lo' hi' l.
Proof.
  intros Hlo Hhi [Hs Hr]. split; [done|].
  eapply Forall_impl; [exact Hr|]. intros r Hr'. cbn in Hr'. lia.
Qed.

Lemma ordered_weaken {A : Type} lo hi lo' hi' (m : M lib A) :
  (lo' <= lo)%nat -> (hi <= hi')%nat ->
  ordered rank lo hi m -> ordered rank lo' hi' m.
Proof.
  intros Hlo Hhi Hm w. destruct (Hm w) as (evs & Hlog & Hw).
  exists evs. split; [done|]. by eapply within_weaken.
Qed.

Lemma ordered_silent {A : Type} lo hi (m : M lib A) :
  (forall w, log (m w).2 = log w) -> ordered rank lo hi m.
Proof.
  intros Hm w. exists []. rewrite app_nil_r. split; [done|apply within_nil].
Qed.

Lemma ordered_lib_call_none {A : Type} lo hi c (r : result A) :
  rank c = None -> ordered rank lo hi (lib_call lib c r).
Proof.
  intros Hc w. exists [(c, error_of r)]. split; [done|].
  unfold within, in_order, ranks. cbn. rewrite Hc.
  split; constructor.
Qed.

Lemma ordered_lib_call_some {A : Type} lo hi c s (r : result A) :
  rank c = Some s -> (lo <= s <= hi)%nat ->
  ordered rank lo hi (lib_call lib c r).
Proof.
  intros Hc Hs w. exists [(c, error_of r)]. split; [done|].
  unfold within, in_order, ranks. cbn. rewrite Hc.
  split; repeat constructor; lia.
Qed.

Lemma ordered_bind {A B : Type} lo mid hi (m : M lib A) (k : A -> M lib B) :
  (lo <= mid <= hi)%nat ->
  ordered rank lo mid m -> (forall a, ordered rank mid hi (k a)) ->
  ordered rank lo hi (bind m k).
Proof.
  intros Hmid Hm Hk w. rewrite bind_run.
  destruct (Hm w) as (evs1 & Hlog1 & Hw1).
  destruct (m w) as [[a|e] w1]; cbn in Hlog1.
  - destruct (Hk a w1) as (evs2 & Hlog2 & Hw2).
    exists (evs1 ++ evs2). rewrite Hlog2, Hlog1, app_assoc. split; [done|].
    by eapply within_app.
  - exists evs1. split; [done|]. eapply within_weaken; [| |exact Hw1]; lia.
Qed.

Lemma ordered_no_grad {A : Type} lo hi (body : M lib A) :
  ordered rank lo hi body -> ordered rank lo hi (no_grad lib body).
Proof.
  intros Hb w. unfold no_grad.
  destruct (Hb (set_grad_enabled false w)) as (evs & Hlog & Hw).
  destruct (body (set_grad_enabled false w)) as [r w1]. by exists evs.
Qed.

(** A loop repeats its body: the calls of the body must have one rank. *)
Lemma ordered_for_each {A : Type} s (xs : list A) (body : A -> M lib unit) :
  (forall x, ordered rank s s (body x)) ->
  ordered rank s s (for_each lib xs body).
Proof.
  intros Hb. induction xs as [|x xs IH]; [by apply ordered_silent|].
  rewrite for_each_cons. by apply (ordered_bind s s s).
Qed.

Lemma ordered_for_loader s loader bs ending body :
  (forall r : result unit, ordered rank s s (lib_call lib (Next loader) r)) ->
  (forall b, ordered rank s s (body b)) ->
  ordered rank s s (for_loader lib loader bs ending body).
Proof.
  intros Hnext Hb. induction bs as [|b bs IH].
  - cbn. destruct ending; [apply Hnext|by apply ordered_silent].
  - rewrite for_loader_cons.
    apply (ordered_bind s s s); [lia|apply Hnext|intros _].
    by apply (ordered_bind s s s).
Qed.

Lemma ordered_dict_comprehension {V V' : Type} s (f : V -> M lib V') (d : dict V) :
  (forall v, ordered rank s s (f v)) ->
  ordered rank s s (dict_comprehension lib f d).
Proof.
  intros Hf. induction d as [|[k v] d IH]; [by apply ordered_silent|].
  cbn [dict_comprehension].
  apply (ordered_bind s s s); [lia|done|intros v'].
  apply (ordered_bind s s s); [lia|done|intros rest]. by apply ordered_silent.
Qed.

End Order.

(** Structural proof that a statement is ordered.  For a sequence the
    ranks of the first statement end where those of the rest begin; the
    boundary is searched upwards. *)
Ltac ord :=
  lazymatch goal with
  | |- ordered _ ?lo ?hi (bind _ _) => ord_bind lo hi lo
  | |- ordered _ _ _ (ret _) => by apply ordered_silent
  | |- ordered _ _ _ (raise _) => by apply ordered_silent
  | |- ordered _ _ _ get => by apply ordered_silent
  | |- ordered _ _ _ (modify _) => by apply ordered_silent
  | |- ordered _ _ _ (lib_call _ _ _) =>
      first [ apply ordered_lib_call_none; reflexivity
            | eapply ordered_lib_call_some; [reflexivity | cbn; lia] ]
  | |- ordered _ _ _ (opaque _ _) => unfold opaque; ord
  | |- ordered _ _ _ (no_grad _ _) => apply ordered_no_grad; ord
  | |- ordered ?rank ?lo ?hi (for_each _ _ _) =>
      ord_loop rank lo hi lo ltac:(fun s => apply (ordered_for_each rank s))
  | |- ordered ?rank ?lo ?hi (for_loader _ _ _ _ _) =>
      ord_loop rank lo hi lo ltac:(fun s => apply (ordered_for_loader rank s))
  | |- ordered ?rank ?lo ?hi (dict_comprehension _ _ _) =>
      ord_loop rank lo hi lo
        ltac:(fun s => apply (ordered_dict_comprehension rank s))
  | |- ordered _ _ _ (match ?x with _ => _ end) => destruct x; ord
  end
with ord_bind lo hi mid :=
  first
    [ apply (ordered_bind _ lo mid hi); [lia | solve [ord] | intros ?; ord]
    | let H := fresh in
      assert (H : (S mid <= hi)%nat) by lia; clear H;
      ord_bind lo hi (S mid) ]
with ord_loop rank lo hi s rule :=
  first
    [ apply (ordered_weaken rank s s lo hi); [lia | lia | rule s; intros ?; ord]
    | let H := fresh in
      assert (H : (S s <= hi)%nat) by lia; clear H;
      ord_loop rank lo hi (S s) rule ].

Ltac unfold_notebook :=
  unfold notebook, up_to_embeddings, cell_datamodule, cell_prepare_data,
    cell_plot, datamodule_setup_fit, datamodule_setup_test, val_dataset_first,
    cell_device, cell_subsample, dataset_data, cell_model, cell_embeddings,
    extract, append_pair, infer, transformed, call_rn_model,
    cell_classifier, subscript, cell_task, cell_trainer, cell_fit, cell_test.

(** The steps of the tutorial come in its order. *)
Lemma notebook_in_step_order p : ordered step_rank_of 0 7 (notebook lib p).
Proof. unfold_notebook. ord. Qed.

(** The train loader is used up before the test loader is called. *)
Lemma notebook_train_before_test p : ordered loader_rank 0 1 (notebook lib p).
Proof. unfold_notebook. ord. Qed.

(** *** Every step is taken by a run that completes *)

Lemma bind_ok_inv {A B : Type} (m : M lib A) (k : A -> M lib B) w b w'' :
  bind m k w = (Ok b, w'') ->
  exists a w', m w = (Ok a, w') /\ k a w' = (Ok b, w'').
Proof.
  rewrite bind_run. destruct (m w) as [[a|e] w']; [|done]. eauto.
Qed.

Lemma steps_app (l1 l2 : list (entry lib)) : steps (l1 ++ l2) = steps l1 ++ steps l2.
Proof. apply omap_app. Qed.

Lemma calls_on_ok_lib_call {A : Type} s c (r : result A) :
  step_of c = Some s -> calls_on_ok s (lib_call lib c r).
Proof.
  intros Hc w a w' [= _ <-]. eexists. split; [reflexivity|].
  unfold steps. cbn. rewrite Hc. set_solver.
Qed.

Lemma calls_on_ok_bind_l {A B : Type} s (m : M lib A) (k : A -> M lib B) :
  calls_on_ok s m -> (forall a, propagates (k a)) -> calls_on_ok s (bind m k).
Proof.
  intros Hm Hk w b w'' Hrun.
  apply bind_ok_inv in Hrun as (a & w' & Hm' & Hk').
  destruct (Hm w a w' Hm') as (evs1 & Hlog1 & Hs).
  destruct (Hk a w') as (evs2 & Hlog2 & _). rewrite Hk' in Hlog2. cbn in Hlog2.
  exists (evs1 ++ evs2). rewrite Hlog2, Hlog1, app_assoc. split; [done|].
  rewrite steps_app. set_solver.
Qed.

Lemma calls_on_ok_bind_r {A B : Type} s (m : M lib A) (k : A -> M lib B) :
  propagates m -> (forall a, calls_on_ok s (k a)) -> calls_on_ok s (bind m k).
Proof.
  intros Hm Hk w b w'' Hrun.
  apply bind_ok_inv in Hrun as (a & w' & Hm' & Hk').
  destruct (Hm w) as (evs1 & Hlog1 & _). rewrite Hm' in Hlog1. cbn in Hlog1.
  destruct (Hk a w' b w'' Hk') as (evs2 & Hlog2 & Hs).
  exists (evs1 ++ evs2). rewrite Hlog2, Hlog1, app_assoc. split; [done|].
  rewrite steps_app. set_solver.
Qed.

(** Structural proof that a statement propagates, cells included. *)
Ltac propagate :=
  repeat first
    [ apply propagates_notebook | apply propagates_up_to_embeddings
    | apply propagates_cell_embeddings | apply propagates_cell_classifier
    | apply propagates_infer | propagate_step
    | progress unfold cell_datamodule, cell_prepare_data, cell_plot,
        datamodule_setup_fit, datamodule_setup_test, val_dataset_first,
        cell_device, cell_subsample, dataset_data, cell_model, subscript,
        cell_task, cell_trainer, cell_fit, cell_test, transformed,
        call_rn_model, append_pair, extract ].

(** Search of the sequence for the call of the step. *)
Ltac find_call :=
  lazymatch goal with
  | |- calls_on_ok _ (bind _ _) =>
      first
        [ apply calls_on_ok_bind_l; [solve [find_call] | intros ?; solve [propagate]]
        | apply calls_on_ok_bind_r;
          [solve [propagate] | intros ?; cbn beta zeta; find_call] ]
  | |- calls_on_ok _ (lib_call _ _ _) => apply calls_on_ok_lib_call; reflexivity
  | |- calls_on_ok _ (opaque _ _) => apply calls_on_ok_lib_call; reflexivity
  end.

Lemma calls_on_ok_prefix s p :
  s = Download \/ s = Setup \/ s = Plot -> calls_on_ok s (up_to_embeddings lib p).
Proof.
  unfold up_to_embeddings, cell_datamodule, cell_prepare_data, cell_plot,
    datamodule_setup_fit, datamodule_setup_test, cell_device, cell_model.
  intros [->|[->| ->]]; find_call.
Qed.

Lemma calls_on_ok_infer DEVICE batch : calls_on_ok Infer (infer lib DEVICE batch).
Proof. unfold infer, transformed. find_call. Qed.

Lemma appends_run {A : Type} (m : M lib A) (w : World) r w' :
  propagates m -> m w = (r, w') -> exists evs, log w' = log w ++ evs.
Proof.
  intros Hm Hrun. destruct (Hm w) as (evs & Hlog & _).
  rewrite Hrun in Hlog. by exists evs.
Qed.

(** A loop over batches either leaves the accumulated embeddings as they
    were or has called the library for an inference. *)
Lemma for_loader_quiet_or_infer DEVICE loader split bs ending :
  forall w : World,
  let r := for_loader lib loader bs ending (fun batch =>
      bind (infer lib DEVICE batch) (fun r =>
        for_each lib (zip r.1 r.2) (append_pair lib split))) w in
  exists evs, log r.2 = log w ++ evs /\
    (embeddings r.2 = embeddings w \/ Infer ∈ steps evs).
Proof.
  induction bs as [|b bs IH]; intros w; cbn zeta.
  - cbn. destruct ending; cbn; eexists; (split; [|by left]);
      [reflexivity|by rewrite app_nil_r].
  - rewrite for_loader_cons, bind_run. cbn [lib_call].
    set (w1 := set_log _ w). rewrite bind_run, bind_run.
    pose proof (infer_keeps_dicts DEVICE b w1) as [He _].
    destruct (infer lib DEVICE b w1) as [[r|e] w2] eqn:Hinf; cbn in He.
    + destruct (calls_on_ok_infer DEVICE b w1 r w2 Hinf) as (evsI & HlogI & HsI).
      rewrite for_each_append_run.
      set (w3 := set_labels _ _).
      destruct (IH w3) as (evs' & Hlog' & _). cbn zeta in Hlog'.
      eexists. rewrite Hlog'. subst w3. cbn [log set_labels set_embeddings].
      rewrite HlogI. subst w1. cbn [log set_log].
      rewrite <- !app_assoc. split; [reflexivity|]. right.
      rewrite !steps_app. set_solver.
    + destruct (appends_run _ w1 _ w2 (propagates_infer DEVICE b) Hinf) as [evs Hlog].
      cbn [snd]. eexists. rewrite Hlog. subst w1. cbn [log set_log].
      rewrite <- app_assoc. split; [reflexivity|]. left. by rewrite He.
Qed.

Lemma extract_quiet_or_infer p DEVICE loader data split (w : World) :
  let r := extract lib p DEVICE loader data split w in
  exists evs, log r.2 = log w ++ evs /\
    (embeddings r.2 = embeddings w \/ Infer ∈ steps evs).
Proof.
  cbn zeta. unfold extract. rewrite bind_run. cbn [lib_call].
  destruct (batches lib loader (batch_size p) (num_workers p) data)
    as [[bs ending]|e]; cbn [fst snd].
  - set (w1 := set_log _ w).
    destruct (for_loader_quiet_or_infer DEVICE loader split bs ending w1)
      as (evs & Hlog & Hq). cbn zeta in Hlog, Hq.
    eexists. rewrite Hlog. subst w1. cbn [log set_log].
    rewrite <- app_assoc. split; [reflexivity|].
    destruct Hq as [Hq|Hq]; [by left|right].
    rewrite steps_app. set_solver.
  - eexists. split; [reflexivity|]. by left.
Qed.

(** When the extraction cell returns, it leaves no embeddings at all or has
    called the library for an inference. *)
Lemma cell_embeddings_empty_or_infer p DEVICE (w w' : World) :
  cell_embeddings lib p DEVICE w = (Ok tt, w') ->
  exists evs, log w' = log w ++ evs /\
    (embeddings w' = [] \/ Infer ∈ steps evs).
Proof.
  unfold cell_embeddings. intros Hrun.
  apply bind_ok_inv in Hrun as (? & w0 & [= _ <-] & Hrun).
  apply bind_ok_inv in Hrun as (? & w0' & [= _ <-] & Hrun).
  apply bind_ok_inv in Hrun as (? & ? & [= <- <-] & Hrun).
  set (w0 := set_labels [] _) in Hrun.
  apply bind_ok_inv in Hrun as (? & wa & Ha & Hrun).
  apply bind_ok_inv in Hrun as (? & ? & [= <- <-] & Hrun).
  apply bind_ok_inv in Hrun as (? & wb & Hb & Hrun).
  apply bind_ok_inv in Hrun as (? & ? & [= <- <-] & Hrun).
  apply bind_ok_inv in Hrun as (stacked & wc & Hc & Hrun).
  apply bind_ok_inv in Hrun as (? & ? & [= _ <-] & Hrun).
  apply bind_ok_inv in Hrun as (? & ? & [= <- <-] & Hrun).
  apply bind_ok_inv in Hrun as (arrays & wd & Hd & [= <-]).
  destruct (extract_quiet_or_infer p DEVICE train_dataloader (train_data w0) "train" w0)
    as (evsa & Hloga & Hqa). rewrite Ha in Hloga, Hqa. cbn [snd] in Hloga, Hqa.
  destruct (extract_quiet_or_infer p DEVICE test_dataloader (test_data wa) "test" wa)
    as (evsb & Hlogb & Hqb). rewrite Hb in Hlogb, Hqb. cbn [snd] in Hlogb, Hqb.
  destruct (dict_comprehension_call (@Stack lib) (np_stack lib) (embeddings wb) wb
              np_stack_ok) as [[evsc Hevsc] Hokc].
  rewrite Hc in Hevsc, Hokc. cbn [fst snd] in Hevsc, Hokc.
  specialize (Hokc stacked eq_refl). subst stacked wc.
  set (wc := set_embeddings _ _) in Hd.
  destruct (dict_comprehension_call (@Array lib) (np_array lib) (labels wc) wc
              np_array_ok) as [[evsd Hevsd] _].
  rewrite Hd in Hevsd. cbn [snd] in Hevsd. subst wd wc.
  cbn [log embeddings set_labels set_log set_embeddings].
  rewrite Hlogb, Hloga. subst w0. cbn [log set_labels set_embeddings].
  eexists. rewrite <- !app_assoc. split; [reflexivity|].
  rewrite !steps_app.
  rewrite !elem_of_app.
  destruct Hqb as [Hqb|Hqb]; [|auto].
  destruct Hqa as [Hqa|Hqa]; [|auto].
  left. by rewrite Hqb, Hqa.
Qed.

Lemma cell_classifier_ok_needs_embeddings (w w' : World) a :
  cell_classifier lib w = (Ok a, w') -> embeddings w <> [].
Proof.
  unfold cell_classifier, opaque, lib_call. intros Hrun Hnil.
  apply bind_ok_inv in Hrun as (? & w1 & [= _ <-] & Hrun).
  apply bind_ok_inv in Hrun as (? & ? & [= <- <-] & Hrun).
  apply bind_ok_inv in Hrun as (? & ? & Hsub & _).
  unfold subscript in Hsub. cbn in Hsub. rewrite Hnil in Hsub. done.
Qed.

(** The log after a run of a statement extends the log before it. *)
Ltac appended H evs Hlog :=
  match type of H with
  | ?m ?w = (?r, ?w') =>
      let Hp := fresh in
      assert (Hp : propagates m) by propagate;
      destruct (appends_run m w r w' Hp H) as [evs Hlog]; clear Hp
  end.

Lemma calls_on_ok_infer_notebook p : calls_on_ok Infer (notebook lib p).
Proof.
  intros w a w' Hrun. unfold notebook in Hrun.
  apply bind_ok_inv in Hrun as ([] & w1 & Hup & Hrun).
  appended Hrun evs2 Hlog2.
  apply bind_ok_inv in Hrun as (? & w2 & Hclf & _).
  apply cell_classifier_ok_needs_embeddings in Hclf.
  unfold up_to_embeddings in Hup.
  apply bind_ok_inv in Hup as (? & wa & Ha & Hup).
  appended Ha evsa Hloga.
  apply bind_ok_inv in Hup as (? & wb & Hb & Hup).
  appended Hb evsb Hlogb.
  apply bind_ok_inv in Hup as (? & wc & Hc & Hup).
  appended Hc evsc Hlogc.
  apply bind_ok_inv in Hup as (DEVICE & wd & Hd & Hup).
  appended Hd evsd Hlogd.
  apply bind_ok_inv in Hup as (? & we & He & Hup).
  appended He evse Hloge.
  apply bind_ok_inv in Hup as (? & wf & Hf & Hup).
  appended Hf evsf Hlogf.
  destruct (cell_embeddings_empty_or_infer p DEVICE wf w1 Hup)
    as (evsg & Hlogg & [Hempty|Hinfer]); [done|].
  eexists. rewrite Hlog2, Hlogg, Hlogf, Hloge, Hlogd, Hlogc, Hlogb, Hloga.
  rewrite <- !app_assoc. split; [reflexivity|].
  rewrite !steps_app, !elem_of_app. auto 10.
Qed.

(** A run of the notebook that completes has made a call of every step. *)
Lemma notebook_calls_every_step p (s : step) : calls_on_ok s (notebook lib p).
Proof.
  destruct s.
  1-3: unfold notebook; apply calls_on_ok_bind_l;
       [apply calls_on_ok_prefix; auto | intros ?; solve [propagate]].
  - apply calls_on_ok_infer_notebook.
  - unfold notebook, cell_classifier. find_call.
  - unfold notebook, cell_classifier. find_call.
  - unfold notebook, cell_fit. find_call.
  - unfold notebook, cell_test. find_call.
Qed.

(** C6. In every run of the notebook, complete or not, no call of a step
    is made after a call of a later step, the steps being, in this order:
    download, setup, plot, inference, fit of the classical model, its
    evaluation, fit of the deep model, its evaluation; within the
    inference, no call to the train loader is made after a call to the
    test loader.  A run that completes has made a call of each of the
    eight steps. *)
Theorem steps_follow_the_tutorial_order (p : Params) :
  let r := notebook lib p (initial lib) in
  in_step_order (log r.2) /\
  train_before_test (log r.2) /\
  (r.1 = Ok tt -> forall s : step, s ∈ steps (log r.2)).
Proof.
  cbn zeta. split; [|split].
  - destruct (notebook_in_step_order p (initial lib)) as (evs & Hlog & [Hs _]).
    rewrite Hlog. exact Hs.
  - destruct (notebook_train_before_test p (initial lib)) as (evs & Hlog & [Hs _]).
    rewrite Hlog. exact Hs.
  - intros Hok s.
    destruct (notebook lib p (initial lib)) as [r w'] eqn:Hrun.
    cbn in Hok. subst r.
    destruct (notebook_calls_every_step p s _ _ _ Hrun) as (evs & Hlog & Hs).
    cbn [snd]. rewrite Hlog. exact Hs.
Qed.

(** ** A run in which every library call returns *)

Lemma bind_assoc_run {A B C : Type} (m : M lib A) (k1 : A -> M lib B)
    (k2 : B -> M lib C) (w : World) :
  bind (bind m k1) k2 w = bind m (fun a => bind (k1 a) k2) w.
Proof. rewrite !bind_run. by destruct (m w) as [[a|e] w1]. Qed.

Lemma bind_get_run {B : Type} (k : World -> M lib B) (w : World) :
  bind get k w = k w w.
Proof. reflexivity. Qed.

Lemma bind_ret_run {A B : Type} (a : A) (k : A -> M lib B) (w : World) :
  bind (ret a) k w = k a w.
Proof. reflexivity. Qed.

Lemma bind_modify_run {B : Type} f (k : unit -> M lib B) (w : World) :
  bind (modify f) k w = k tt (f w).
Proof. reflexivity. Qed.

Lemma all_ok_bind_l {A B : Type} (m : M lib A) (k : A -> M lib B) (w : World) :
  (forall a, propagates (k a)) ->
  all_ok (log (bind m k w).2) -> all_ok (log (m w).2).
Proof.
  intros Hk. rewrite bind_run. destruct (m w) as [[a|e] w1]; [|done].
  destruct (Hk a w1) as (evs & -> & _). cbn. rewrite all_ok_app. tauto.
Qed.

Lemma all_ok_snoc_failure (l : list (entry lib)) c e :
  all_ok (l ++ [(c, Some e)]) -> False.
Proof. apply all_ok_no_failure. Qed.

Lemma lib_call_step {A B : Type} c (r : result A) (k : A -> M lib B) (w : World) :
  (forall a, propagates (k a)) ->
  all_ok (log (bind (lib_call lib c r) k w).2) ->
  exists a, r = Ok a /\
    bind (lib_call lib c r) k w = k a (set_log (log w ++ [(c, None)]) w).
Proof.
  intros Hk Hok. apply all_ok_bind_l in Hok; [|done].
  destruct r as [a|e]; cbn in Hok.
  - by exists a.
  - by apply all_ok_snoc_failure in Hok.
Qed.

Lemma lib_call_last {A : Type} c (r : result A) (w : World) :
  all_ok (log (lib_call lib c r w).2) ->
  exists a, r = Ok a /\
    lib_call lib c r w = (Ok a, set_log (log w ++ [(c, None)]) w).
Proof.
  intros Hok. destruct r as [a|e]; cbn in Hok.
  - by exists a.
  - by apply all_ok_snoc_failure in Hok.
Qed.

Lemma opaque_step {B : Type} f (k : unit -> M lib B) (w : World) :
  (forall a, propagates (k a)) ->
  all_ok (log (bind (opaque lib f) k w).2) ->
  bind (opaque lib f) k w = k tt (set_log (log w ++ [(Call f, None)]) w).
Proof.
  intros Hk Hok. unfold opaque in *.
  destruct (lib_call_step _ _ k w Hk Hok) as ([] & _ & ->). done.
Qed.

Lemma opaque_last f (w : World) :
  all_ok (log (opaque lib f w).2) ->
  opaque lib f w = (Ok tt, set_log (log w ++ [(Call f, None)]) w).
Proof.
  intros Hok. unfold opaque in *.
  destruct (lib_call_last _ _ w Hok) as ([] & _ & ->). done.
Qed.

(** A log with a call that raised is not all right. *)
Ltac fails_ok H :=
  exfalso; unfold opaque, lib_call, all_ok in H; cbn in H;
  rewrite ?Forall_app, ?Forall_cons, ?Forall_nil in H; cbn in H;
  destruct_and?; done.

(** Simplification that keeps the slices and the writes as they are. *)
Ltac step := cbn -[slice_to slice_from write_to write_from].

Lemma infer_succeeds DEVICE b (w : World) m :
  keeps_samples lib ->
  rn_model w = Some m ->
  all_ok (log (infer lib DEVICE b w).2) ->
  exists r w' m',
    infer lib DEVICE b w = (Ok r, w') /\
    length r.1 = length (image b) /\
    r.2 = label b /\
    rn_model w' = Some m' /\
    embeddings w' = embeddings w /\
    labels w' = labels w /\
    train_data w' = train_data w /\
    val_data w' = val_data w /\
    test_data w' = test_data w.
Proof.
  intros [Htrans Hfwd] Hm. destruct w. cbn in Hm. subst.
  unfold_infer. step.
  destruct (raises lib (tensor_to DEVICE));
    step; [intros H; fails_ok H|].
  destruct (model_transform lib {[ "image" := slice_to 2 (image b) ]})
    as [d1|e] eqn:E1;
    step; [|intros H; fails_ok H].
  destruct (Htrans _ _ E1) as (y1 & -> & Hy1).
  step.
  rewrite slice_from_write_to.
  destruct (model_transform lib {[ "image" := slice_from 2 (image b) ]})
    as [d2|e] eqn:E2;
    step; [|intros H; fails_ok H].
  destruct (Htrans _ _ E2) as (y2 & -> & Hy2).
  step.
  destruct (forward lib _ _ _ y1) as [[r1|e] W1] eqn:F1;
    step; [|intros H; fails_ok H].
  destruct (forward lib _ _ _ y2) as [[r2|e] W2] eqn:F2;
    step; [|intros H; fails_ok H].
  apply Hfwd in F1, F2.
  unfold torch_concat. rewrite F1, F2, Hy1, Hy2. unfold slice_to, slice_from.
  rewrite !length_map, Nat.eqb_refl.
  step.
  destruct (raises lib tensor_cpu);
    step; [intros H; fails_ok H|].
  destruct (raises lib tensor_numpy);
    step; [intros H; fails_ok H|].
  intros _. eexists _, _, _. split; [reflexivity|]. cbn.
  split_and!; try done.
  rewrite length_zip_with, F1, F2, Hy1, Hy2. unfold slice_to, slice_from.
  rewrite !length_map. lia.
Qed.

Lemma defaultdict_append_keeps {V : Type} k k' (x : V) (d : dict (list V)) :
  dict_get k d <> None -> dict_get k (defaultdict_append k' x d) <> None.
Proof.
  induction d as [|[k1 v1] d IH]; [done|]. cbn.
  destruct (String.eqb k1 k') eqn:E1; cbn; destruct (String.eqb k1 k); auto.
Qed.

Lemma defaultdict_append_binds {V : Type} k (x : V) (d : dict (list V)) :
  dict_get k (defaultdict_append k x d) <> None.
Proof.
  induction d as [|[k1 v1] d IH]; cbn.
  - by rewrite String.eqb_refl.
  - destruct (String.eqb k1 k) eqn:E1; cbn; rewrite E1; auto.
Qed.

Lemma foldl_append_keeps {V V' : Type} (f : V' -> V) k k' (xs : list V')
    (d : dict (list V)) :
  dict_get k d <> None ->
  dict_get k (foldl (fun d x => defaultdict_append k' (f x) d) d xs) <> None.
Proof.
  revert d. induction xs as [|x xs IH]; intros d Hd; [done|].
  cbn. apply IH. by apply defaultdict_append_keeps.
Qed.

Lemma foldl_append_binds {V V' : Type} (f : V' -> V) k (xs : list V')
    (d : dict (list V)) :
  xs <> [] ->
  dict_get k (foldl (fun d x => defaultdict_append k (f x) d) d xs) <> None.
Proof.
  destruct xs as [|x xs]; [done|]. intros _. cbn.
  apply foldl_append_keeps, defaultdict_append_binds.
Qed.

(** One step of a run in which every call returns: the call at the head of
    the statement returned, the run goes on with the rest. *)
Ltac step_call H :=
  lazymatch type of H with
  | all_ok (log (bind (opaque _ ?f) ?k ?w).2) =>
      let E := fresh "E" in
      assert (E := opaque_step f k w ltac:(intros; propagate) H);
      rewrite E in H |- *; clear E; cbn beta in H |- *
  | all_ok (log (bind (lib_call _ ?c ?r) ?k ?w).2) =>
      let E := fresh "E" in
      let a := fresh "a" in
      let Ha := fresh "Ha" in
      destruct (lib_call_step c r k w ltac:(intros; propagate) H) as (a & Ha & E);
      rewrite E in H |- *; clear E; cbn beta in H |- *
  | all_ok (log (opaque _ ?f ?w).2) =>
      rewrite (opaque_last f w H) in H |- *
  end.

Lemma for_loader_succeeds DEVICE loader split bs ending :
  forall (w : World) m,
  keeps_samples lib ->
  rn_model w = Some m ->
  all_ok (log (for_loader lib loader bs ending (fun batch =>
      bind (infer lib DEVICE batch) (fun r =>
        for_each lib (zip r.1 r.2) (append_pair lib split))) w).2) ->
  exists w' m',
    for_loader lib loader bs ending (fun batch =>
      bind (infer lib DEVICE batch) (fun r =>
        for_each lib (zip r.1 r.2) (append_pair lib split))) w = (Ok tt, w') /\
    rn_model w' = Some m' /\
    train_data w' = train_data w /\
    val_data w' = val_data w /\
    test_data w' = test_data w /\
    (forall k, collected k w -> collected k w') /\
    (Exists holds_sample bs -> collected split w').
Proof.
  induction bs as [|b bs IH]; intros w m Hkeeps Hm Hok.
  - cbn in *. destruct ending as [e|]; [fails_ok Hok|].
    exists w, m. split_and!; try done. by intros H%Exists_nil.
  - rewrite for_loader_cons in Hok |- *.
    step_call Hok.
    set (w1 := set_log _ w) in *.
    pose proof Hok as Hok1.
    apply all_ok_bind_l in Hok1; [|intros; unfold append_pair; propagate].
    apply all_ok_bind_l in Hok1; [|intros; unfold append_pair; propagate].
    destruct (infer_succeeds DEVICE b w1 m Hkeeps Hm Hok1)
      as (r & w2 & m' & Hinf & Hlen & Hlab & Hm' & He & Hl & Htr & Hva & Hte).
    rewrite bind_run, bind_run, Hinf, for_each_append_run in Hok |- *.
    set (w3 := set_labels _ _) in *.
    destruct (IH w3 m' Hkeeps Hm' Hok)
      as (w' & m'' & Hrun & Hm'' & Htr' & Hva' & Hte' & Hcol & Hex).
    exists w', m''. split; [done|]. split; [done|].
    split; [rewrite Htr'; cbn; by rewrite Htr|].
    split; [rewrite Hva'; cbn; by rewrite Hva|].
    split; [rewrite Hte'; cbn; by rewrite Hte|].
    assert (Hkeep3 : forall k, collected k w -> collected k w3).
    { intros k [Hk1 Hk2]. subst w3. split; cbn.
      - apply foldl_append_keeps. by rewrite He.
      - apply foldl_append_keeps. by rewrite Hl. }
    split.
    + intros k Hk. by apply Hcol, Hkeep3.
    + intros [[Him Hlb]|Hrest]%Exists_cons; [|by apply Hex].
      apply Hcol. subst w3.
      assert (zip r.1 r.2 <> []).
      { destruct r as [r1 r2]. cbn in *. subst r2.
        destruct r1; [by destruct (image b)|]. by destruct (label b). }
      split; cbn; by apply foldl_append_binds.
Qed.

Lemma dict_comprehension_succeeds {V : Type} (c : V -> call lib) (g : V -> result V)
    (d : dict V) (w : World) :
  (forall v v', g v = Ok v' -> v' = v) ->
  all_ok (log (dict_comprehension lib (fun v => lib_call lib (c v) (g v)) d w).2) ->
  exists evs,
    dict_comprehension lib (fun v => lib_call lib (c v) (g v)) d w
    = (Ok d, set_log (log w ++ evs) w).
Proof.
  intros Hg. revert w. induction d as [|[k v] d IH]; intros w Hok.
  - exists []. cbn. rewrite app_nil_r. by destruct w.
  - cbn [dict_comprehension] in Hok |- *.
    rewrite bind_run in Hok |- *. cbn [lib_call] in Hok |- *.
    destruct (g v) as [v'|e] eqn:Hv; [|fails_ok Hok].
    apply Hg in Hv as ->. rewrite bind_run in Hok |- *.
    set (w1 := set_log _ w) in *.
    destruct (dict_comprehension lib _ d w1) as [[d1|e] w2] eqn:Hrec.
    + cbn in Hok. destruct (IH w1) as [evs Hevs]; [by rewrite Hrec|].
      rewrite Hrec in Hevs. injection Hevs as -> ->.
      cbn. eexists. subst w1. cbn. by rewrite <- app_assoc.
    + cbn in Hok. destruct (IH w1) as [evs Hevs]; [by rewrite Hrec|].
      by rewrite Hrec in Hevs.
Qed.

Lemma cell_embeddings_succeeds p DEVICE (w : World) m dtr dte :
  keeps_samples lib ->
  rn_model w = Some m ->
  train_data w = Some dtr ->
  test_data w = Some dte ->
  (forall bs ending,
     batches lib train_dataloader (batch_size p) (num_workers p) (Some dtr)
       = Ok (bs, ending) -> Exists holds_sample bs) ->
  (forall bs ending,
     batches lib test_dataloader (batch_size p) (num_workers p) (Some dte)
       = Ok (bs, ending) -> Exists holds_sample bs) ->
  all_ok (log (cell_embeddings lib p DEVICE w).2) ->
  exists w',
    cell_embeddings lib p DEVICE w = (Ok tt, w') /\
    collected "train" w' /\ collected "test" w'.
Proof.
  intros Hkeeps Hm Htr Hte Hbtr Hbte Hok.
  unfold cell_embeddings, extract in Hok |- *.
  rewrite !bind_modify_run, bind_get_run in Hok |- *.
  set (w0 := set_labels [] _) in *.
  change (train_data w0) with (train_data w) in Hok |- *.
  rewrite Htr in Hok |- *.
  rewrite bind_assoc_run in Hok |- *.
  step_call Hok. destruct a as [bs ending]. cbn [fst snd] in Hok |- *.
  set (w1 := set_log _ w0) in *.
  pose proof Hok as Hok1.
  apply all_ok_bind_l in Hok1; [|intros; propagate].
  destruct (for_loader_succeeds DEVICE train_dataloader "train" bs ending w1 m
              Hkeeps Hm Hok1)
    as (wa & ma & Hrun & Hma & _ & _ & Htea & _ & Hcola).
  specialize (Hcola (Hbtr bs ending Ha)).
  rewrite bind_run, Hrun, bind_get_run in Hok |- *.
  rewrite Htea in Hok |- *. change (test_data w1) with (test_data w) in Hok |- *.
  rewrite Hte in Hok |- *.
  rewrite bind_assoc_run in Hok |- *.
  step_call Hok. destruct a as [bs' ending']. cbn [fst snd] in Hok |- *.
  set (w2 := set_log _ wa) in *.
  pose proof Hok as Hok2.
  apply all_ok_bind_l in Hok2; [|intros; propagate].
  assert (Hcola2 : collected "train" w2) by done.
  destruct (for_loader_succeeds DEVICE test_dataloader "test" bs' ending' w2 ma
              Hkeeps Hma Hok2)
    as (wb & mb & Hrun' & _ & _ & _ & _ & Hkeepb & Hcolb).
  specialize (Hcolb (Hbte bs' ending' Ha0)).
  specialize (Hkeepb "train" Hcola2).
  rewrite bind_run, Hrun', bind_get_run in Hok |- *.
  pose proof Hok as Hok3.
  apply all_ok_bind_l in Hok3; [|intros; propagate].
  destruct (dict_comprehension_succeeds (@Stack lib) (np_stack lib) (embeddings wb) wb
              np_stack_ok Hok3) as [evs Hstack].
  rewrite bind_run, Hstack, bind_modify_run, bind_get_run in Hok |- *.
  set (wc := set_embeddings (embeddings wb) _) in *.
  pose proof Hok as Hok4.
  apply all_ok_bind_l in Hok4; [|intros; propagate].
  destruct (dict_comprehension_succeeds (@Array lib) (np_array lib) (labels wc) wc
              np_array_ok Hok4) as [evs' Harr].
  rewrite bind_run, Harr. cbn [modify].
  eexists. split; [reflexivity|]. done.
Qed.

(** Runs the statement in [H] and in the goal up to the next statement that
    is not a plain sequence of calls. *)
Ltac run H :=
  repeat first
    [ rewrite bind_assoc_run in H |- *
    | rewrite bind_get_run in H |- *
    | rewrite bind_modify_run in H |- *
    | rewrite bind_ret_run in H |- *
    | step_call H
    | progress cbn [train_data val_data test_data rn_model grad_enabled
                    embeddings labels log set_train_data set_val_data
                    set_test_data set_rn_model set_grad_enabled set_embeddings
                    set_labels set_log initial] in H |- * ].

(** C8, as the notebook has it.  When every library call made returns, the
    transform and the extractor return one item per sample, the transform
    under the key "image", and each of the train and test loaders yields
    finitely many batches of which at least one holds a sample, the notebook
    runs to its end without raising. *)
Theorem notebook_runs_to_completion (p : Params) :
  all_ok (log (notebook lib p (initial lib)).2) ->
  keeps_samples lib ->
  (forall bs ending,
     batches lib train_dataloader (batch_size p) (num_workers p)
       (Some (subsample (datasets_fit lib).1)) = Ok (bs, ending) ->
     Exists holds_sample bs) ->
  (forall bs ending,
     batches lib test_dataloader (batch_size p) (num_workers p)
       (Some (subsample (dataset_test lib))) = Ok (bs, ending) ->
     Exists holds_sample bs) ->
  (notebook lib p (initial lib)).1 = Ok tt.
Proof.
  intros Hok Hkeeps Hbtr Hbte.
  unfold notebook, up_to_embeddings in Hok |- *.
  unfold cell_datamodule, cell_prepare_data, cell_plot, datamodule_setup_fit,
    datamodule_setup_test, val_dataset_first, cell_device, cell_subsample,
    dataset_data, cell_model in Hok |- *.
  run Hok.
  match type of Hok with
  | all_ok (log (bind (cell_embeddings lib p ?dev) ?k ?w).2) =>
      set (w6 := w) in *; set (DEVICE := dev) in *
  end.
  pose proof Hok as Hok6.
  apply all_ok_bind_l in Hok6; [|intros; propagate].
  destruct (cell_embeddings_succeeds p DEVICE w6 _ _ _ Hkeeps
              eq_refl eq_refl eq_refl Hbtr Hbte Hok6)
    as (w7 & Hrun & [Hk1 Hk2] & [Hk3 Hk4]).
  rewrite bind_run, Hrun in Hok |- *. clear Hok6 Hrun. clearbody w6.
  unfold cell_classifier, subscript in Hok |- *.
  run Hok.
  destruct (dict_get "train" (embeddings w7)) as [X|]; [|done].
  destruct (dict_get "train" (labels w7)) as [y|]; [|done].
  run Hok.
  destruct (dict_get "test" (embeddings w7)) as [X_test|]; [|done].
  run Hok.
  destruct (dict_get "test" (labels w7)) as [y_test|]; [|done].
  run Hok.
  unfold cell_task, cell_trainer, cell_fit, cell_test in Hok |- *.
  run Hok.
  reflexivity.
Qed.

(** * More of the notebook *)

(** ** The subsampling cell run out of order *)

(** X2. Running the subsampling cell a second time subsamples again: of
    datasets of fewer than [2 ^ 52] samples the first hundredth is left. *)
Theorem cell_subsample_twice_keeps_first_hundredth
    (w : World) (train val test : list (Sample lib)) :
  train_data w = Some train ->
  val_data w = Some val ->
  test_data w = Some test ->
  Z.of_nat (length train) < 2 ^ 52 ->
  Z.of_nat (length val) < 2 ^ 52 ->
  Z.of_nat (length test) < 2 ^ 52 ->
  exists w',
    bind (cell_subsample lib) (fun _ => cell_subsample lib) w = (Ok tt, w') /\
    train_data w' = Some (take (length train / 100) train) /\
    val_data w' = Some (take (length val / 100) val) /\
    test_data w' = Some (take (length test / 100) test) /\
    log w' = log w.
Proof.
  intros Htr Hva Hte Ntr Nva Nte.
  unfold cell_subsample, dataset_data, bind, get, modify, ret. cbn.
  rewrite Htr. cbn. rewrite Hva. cbn. rewrite Hte. cbn.
  eexists. split; [reflexivity|]. cbn.
  rewrite !subsample_twice by done. done.
Qed.

(** X3. The subsampling cell makes no library call.  It returns when the
    three datasets exist and raises [AttributeError] otherwise, and then the
    datasets that come before the missing one have been subsampled
    already. *)
Theorem cell_subsample_needs_the_three_datasets (w : World) :
  let r := cell_subsample lib w in
  (r.1 = Ok tt <->
     is_Some (train_data w) /\ is_Some (val_data w) /\ is_Some (test_data w)) /\
  (r.1 = Ok tt \/ r.1 = Raise (AttributeError "data")) /\
  log r.2 = log w /\
  (forall train, train_data w = Some train ->
     train_data r.2 = Some (subsample train)) /\
  (forall train val, train_data w = Some train -> val_data w = Some val ->
     val_data r.2 = Some (subsample val)).
Proof.
  unfold cell_subsample, dataset_data, bind, get, modify, ret, raise. cbn.
  destruct (train_data w) as [tr|] eqn:Htr; cbn;
    [destruct (val_data w) as [va|] eqn:Hva; cbn;
      [destruct (test_data w) as [te|] eqn:Hte; cbn|]|];
    (split_and!;
       [split; [intros ?; try done; split_and!; by eexists
               |intros (? & ? & ?); try done;
                repeat match goal with H : is_Some None |- _ =>
                  destruct H; discriminate end]
       |auto|done|intros; simplify_eq; done|intros; simplify_eq; done]).
Qed.

(** ** The dicts of lists *)

Lemma dict_get_keys {V : Type} (k : string) (d : dict V) :
  dict_get k d = None <-> k ∉ dict_keys d.
Proof.
  unfold dict_keys. induction d as [|[k' v] d IH]; cbn.
  - split; [intros _; apply not_elem_of_nil|done].
  - rewrite not_elem_of_cons. destruct (String.eqb_spec k' k) as [->|Hne].
    + split; [done|]. intros [? _]. done.
    + rewrite IH. split; [|tauto]. intros ?. split; [congruence|done].
Qed.

(** X4. [d[k].append(x)] on a [defaultdict(list)] followed by a lookup: under
    [k] the dict holds the list it held, or the empty list if the key was
    missing, with [x] at its end; every other key is left as it was. *)
Theorem defaultdict_append_lookup {V : Type} (k k' : string) (x : V)
    (d : dict (list V)) :
  dict_get k' (defaultdict_append k x d) =
  if String.eqb k k' then Some (items_of k d ++ [x]) else dict_get k' d.
Proof. apply dict_get_defaultdict_append. Qed.

(** X5. Appending under a key keeps the keys of the dict in their order; a
    missing key is added at the end, and no key is ever duplicated. *)
Theorem defaultdict_append_keys {V : Type} (k : string) (x : V)
    (d : dict (list V)) :
  dict_keys (defaultdict_append k x d) =
    (if decide (k ∈ dict_keys d) then dict_keys d else dict_keys d ++ [k]) /\
  (NoDup (dict_keys d) -> NoDup (dict_keys (defaultdict_append k x d))).
Proof.
  assert (Hkeys : dict_keys (defaultdict_append k x d) =
    if decide (k ∈ dict_keys d) then dict_keys d else dict_keys d ++ [k]).
  { unfold dict_keys. induction d as [|[k0 v] d IH]; cbn.
    - rewrite decide_False by apply not_elem_of_nil. done.
    - destruct (String.eqb_spec k0 k) as [->|Hk]; cbn.
      + rewrite decide_True by apply list_elem_of_here. done.
      + rewrite IH. destruct (decide (k ∈ d.*1)) as [Hin|Hnin].
        * rewrite decide_True by (by apply list_elem_of_further). done.
        * rewrite decide_False; [done|].
          rewrite not_elem_of_cons. split; [congruence|done]. }
  split; [exact Hkeys|]. intros Hnd. rewrite Hkeys.
  destruct (decide (k ∈ dict_keys d)) as [|Hnin]; [done|].
  apply NoDup_app. split; [done|]. split; [|apply NoDup_singleton].
  intros k1 Hk1 Hk2%list_elem_of_singleton. by subst.
Qed.

(** ** [infer], whatever the library does *)

(** What a returning [infer] has gone through. *)
Lemma infer_ok_inv DEVICE batch (w : World) embs labs w' :
  infer lib DEVICE batch w = (Ok (embs, labs), w') ->
  exists dpre dpost pre post m e1 e2 W1 W2,
    model_transform lib {[ "image" := slice_to 2 (image batch) ]} = Ok dpre /\
    dpre !! "image" = Some pre /\
    model_transform lib {[ "image" := slice_from 2 (image batch) ]} = Ok dpost /\
    dpost !! "image" = Some post /\
    rn_model w = Some m /\
    forward lib (weights m) (training m) false pre = (Ok e1, W1) /\
    forward lib W1 (training m) false post = (Ok e2, W2) /\
    torch_concat e1 e2 = Ok embs /\
    labs = label batch.
Proof.
  unfold_infer. step.
  destruct (raises lib (tensor_to DEVICE)); step; [intros ?; discriminate|].
  destruct (model_transform lib {[ "image" := slice_to 2 (image batch) ]})
    as [dpre|] eqn:Hdpre; step; [|intros ?; discriminate].
  destruct (dpre !! "image") as [pre|] eqn:Hpre; step;
    [|intros ?; discriminate].
  rewrite slice_from_write_to.
  destruct (model_transform lib {[ "image" := slice_from 2 (image batch) ]})
    as [dpost|] eqn:Hdpost; step; [|intros ?; discriminate].
  destruct (dpost !! "image") as [post|] eqn:Hpost; step;
    [|intros ?; discriminate].
  destruct (rn_model w) as [m|] eqn:Hm; step; [|intros ?; discriminate].
  destruct (forward lib (weights m) (training m) false pre)
    as [[e1|] W1] eqn:H1; step; [|intros ?; discriminate].
  destruct (forward lib W1 (training m) false post)
    as [[e2|] W2] eqn:H2; step; [|intros ?; discriminate].
  destruct (torch_concat e1 e2) as [c|] eqn:Hc; step;
    [|intros ?; discriminate].
  destruct (raises lib tensor_cpu); step; [intros ?; discriminate|].
  destruct (raises lib tensor_numpy); step; [intros ?; discriminate|].
  intros H. injection H as <- <- _.
  exists dpre, dpost, pre, post, m, e1, e2, W1, W2. done.
Qed.

(** ** Reasoning by stages *)

Section Triples.
Variable P : entry lib -> Prop.
Variable E : exn -> Prop.

Lemma triple_ret {A : Type} (pre exc : World -> Prop) (a : A) post :
  (forall w, pre w -> post a w) -> triple pre P E exc (ret a) post.
Proof.
  intros H w Hw. exists []. cbn. rewrite app_nil_r. auto.
Qed.

Lemma triple_raise {A : Type} (pre exc : World -> Prop) e
    (post : A -> World -> Prop) :
  E e -> (forall w, pre w -> exc w) -> triple pre P E exc (raise e) post.
Proof.
  intros H Hexc w Hw. exists []. cbn. rewrite app_nil_r. auto.
Qed.

Lemma triple_modify (pre exc : World -> Prop) f post :
  (forall w, pre w -> log (f w) = log w /\ post tt (f w)) ->
  triple pre P E exc (modify f) post.
Proof.
  intros H w Hw. destruct (H w Hw) as [Hlog Hpost].
  exists []. cbn. rewrite app_nil_r. auto.
Qed.

Lemma triple_lib_call {A : Type} (pre exc : World -> Prop) c (r : result A)
    post :
  P (c, error_of r) ->
  (forall a w l, r = Ok a -> pre w -> post a (set_log l w)) ->
  (forall w l, pre w -> exc (set_log l w)) ->
  triple pre P E exc (lib_call lib c r) post.
Proof.
  intros HP H Hexc w Hw. exists [(c, error_of r)]. unfold lib_call. cbn.
  split; [done|]. split; [by constructor|].
  destruct r as [a|e]; cbn.
  - by apply H.
  - split; [by apply Hexc|].
    intros Hok. apply Forall_cons in Hok as [Hbad _]. discriminate.
Qed.

Lemma triple_opaque (pre exc : World -> Prop) f post :
  P (Call f, raises lib f) ->
  (forall w l, pre w -> post tt (set_log l w)) ->
  (forall w l, pre w -> exc (set_log l w)) ->
  triple pre P E exc (opaque lib f) post.
Proof.
  intros HP H Hexc. unfold opaque. apply triple_lib_call.
  - by destruct (raises lib f).
  - intros [] w l _. apply H.
  - exact Hexc.
Qed.

Lemma triple_bind {A B : Type} (pre exc : World -> Prop) (m : M lib A)
    (k : A -> M lib B) mid post :
  triple pre P E exc m mid ->
  (forall a, triple (mid a) P E exc (k a) post) ->
  triple pre P E exc (bind m k) post.
Proof.
  intros Hm Hk w Hw. destruct (Hm w Hw) as (evs1 & Hlog1 & HP1 & H1).
  unfold bind. destruct (m w) as [[a|e] w1]; cbn in *.
  - destruct (Hk a w1 H1) as (evs2 & Hlog2 & HP2 & H2).
    exists (evs1 ++ evs2). rewrite Hlog2, Hlog1, app_assoc.
    split; [done|]. split; [by apply Forall_app|].
    destruct (k a w1) as [[b|e] w2]; cbn in *; [done|].
    destruct H2 as [Hexc H2]. split; [done|].
    intros Hok. apply all_ok_app in Hok as [_ Hok]. auto.
  - exists evs1. auto.
Qed.

Lemma triple_get_bind {B : Type} (pre exc : World -> Prop)
    (k : World -> M lib B) post :
  (forall w0, pre w0 -> triple (fun w => w = w0) P E exc (k w0) post) ->
  triple pre P E exc (bind get k) post.
Proof. intros H w Hw. exact (H w Hw w eq_refl). Qed.

Lemma triple_conseq {A : Type} (pre pre' exc exc' : World -> Prop)
    (m : M lib A) (post post' : A -> World -> Prop) :
  (forall w, pre' w -> pre w) ->
  (forall a w, post a w -> post' a w) ->
  (forall w, exc w -> exc' w) ->
  triple pre P E exc m post -> triple pre' P E exc' m post'.
Proof.
  intros Hpre Hpost Hexc H w Hw.
  destruct (H w (Hpre w Hw)) as (evs & ? & ? & H').
  exists evs. split; [done|]. split; [done|].
  destruct (m w).1; [auto|]. destruct H'. auto.
Qed.

Lemma triple_subscript {V : Type} (I exc : World -> Prop) (d : dict V) k :
  E (KeyError k) -> (forall w, I w -> exc w) ->
  triple I P E exc (subscript lib d k) (fun _ => I).
Proof.
  intros HE Hexc. unfold subscript. destruct (dict_get k d).
  - by apply triple_ret.
  - by apply triple_raise.
Qed.

Lemma triple_for_each {A : Type} (I exc : World -> Prop) (xs : list A) body :
  (forall x, triple I P E exc (body x) (fun _ => I)) ->
  triple I P E exc (for_each lib xs body) (fun _ => I).
Proof.
  intros Hbody. induction xs as [|x xs IH]; cbn [for_each].
  - by apply triple_ret.
  - eapply triple_bind; [apply Hbody|]. intros ?. exact IH.
Qed.

Lemma triple_for_loader (I exc : World -> Prop) loader bs ending body :
  (forall o, P (Next loader, o)) ->
  (forall w l, I w -> I (set_log l w)) ->
  (forall w l, I w -> exc (set_log l w)) ->
  (forall b, triple I P E exc (body b) (fun _ => I)) ->
  triple I P E exc (for_loader lib loader bs ending body) (fun _ => I).
Proof.
  intros HP Hlog Hexc Hbody. induction bs as [|b bs IH]; cbn [for_loader].
  - destruct ending.
    + apply triple_lib_call; [apply HP| |done]. intros; by apply Hlog.
    + by apply triple_ret.
  - eapply triple_bind.
    { apply triple_lib_call with (post := fun _ => I); [apply HP| |done].
      intros; by apply Hlog. }
    intros ?. eapply triple_bind; [apply Hbody|]. intros ?. exact IH.
Qed.

Lemma triple_dict_comprehension {V : Type} (I exc : World -> Prop)
    (c : V -> call lib) (g : V -> result V) (d : dict V) :
  Forall (fun kv => P (c kv.2, error_of (g kv.2))) d ->
  (forall w l, I w -> I (set_log l w)) ->
  (forall w l, I w -> exc (set_log l w)) ->
  triple I P E exc
    (dict_comprehension lib (fun v => lib_call lib (c v) (g v)) d)
    (fun _ => I).
Proof.
  intros Hd Hlog Hexc.
  induction Hd as [|[k v] d HP Hd IH]; cbn [dict_comprehension].
  - by apply triple_ret.
  - eapply triple_bind.
    { apply triple_lib_call with (post := fun _ => I); [exact HP| |done].
      intros; by apply Hlog. }
    intros v'. eapply triple_bind; [exact IH|]. intros rest.
    by apply triple_ret.
Qed.

Lemma triple_no_grad {A : Type} (pre exc : World -> Prop) (body : M lib A)
    post :
  (forall w0, pre w0 ->
     triple (fun w => w = set_grad_enabled false w0) P E
       (fun w => exc (set_grad_enabled (grad_enabled w0) w)) body
       (fun a w => post a (set_grad_enabled (grad_enabled w0) w))) ->
  triple pre P E exc (no_grad lib body) post.
Proof.
  intros H w Hw. destruct (H w Hw _ eq_refl) as (evs & Hlog & HP & Hres).
  unfold no_grad. destruct (body (set_grad_enabled false w)) as [r w'].
  exists evs. cbn in *. split; [done|]. split; [done|]. exact Hres.
Qed.

(** *** [infer], for an assertion kept outside the [with] block and one
    kept inside it, also when a statement raises *)

Section Infer_rule.
Variables Iout Iin : World -> Prop.
Hypothesis Iout_log : forall w l, Iout w -> Iout (set_log l w).
Hypothesis Iout_img : forall w v, Iout w -> Iout (set_img v w).
Hypothesis Iin_log : forall w l, Iin w -> Iin (set_log l w).
Hypothesis enter : forall w, Iout w -> Iin (set_grad_enabled false w).
Hypothesis leave :
  forall w0 w, Iout w0 -> Iin w -> Iout (set_grad_enabled (grad_enabled w0) w).
Hypothesis calls : forall f o, P (Call f, o).
Hypothesis transforms : forall d o, P (Transform d, o).
Hypothesis concats : forall a b o, P (Concat a b, o).
Hypothesis no_key : E (KeyError "image").
Hypothesis unbound :
  forall w, Iin w -> rn_model w = None -> E (NameError "rn_model").
Hypothesis pass :
  forall w m x o, Iin w -> rn_model w = Some m ->
    Iin (set_rn_model
           (Some {| weights := (forward lib (weights m) (training m)
                                  (grad_enabled w) x).2;
                    training := training m |}) w) /\
    P (Forward (training m) (grad_enabled w) x, o).

Lemma triple_transformed view write :
  triple Iout P E Iout (transformed lib view write) (fun _ => Iout).
Proof.
  unfold transformed. apply triple_get_bind. intros w0 Hw0. cbn zeta.
  apply triple_conseq with (pre := Iout) (post := fun _ => Iout) (exc := Iout);
    [by intros ? ->|done|done|].
  apply triple_bind with (mid := fun _ => Iout).
  { apply triple_modify. intros w Hw. split; [done|]. by apply Iout_img. }
  intros ?. apply triple_bind with (mid := fun _ => Iout).
  { apply triple_lib_call; [apply transforms| |done].
    intros. by apply Iout_log. }
  intros d'. destruct (d' !! "image").
  - by apply triple_ret.
  - by apply triple_raise.
Qed.

Lemma triple_call_rn_model x :
  triple Iin P E Iin (call_rn_model lib x) (fun _ => Iin).
Proof.
  unfold call_rn_model. apply triple_get_bind. intros w0 Hw0.
  destruct (rn_model w0) as [m|] eqn:Hm.
  - cbn zeta. destruct (pass w0 m x (error_of
      (forward lib (weights m) (training m) (grad_enabled w0) x).1) Hw0 Hm)
      as [Hkeep HP].
    apply triple_bind with (mid := fun _ => Iin).
    { apply triple_modify. intros w ->. done. }
    intros ?. apply triple_lib_call; [exact HP| |done].
    intros. by apply Iin_log.
  - apply triple_raise; [by apply (unbound w0)|by intros ? ->].
Qed.

Lemma triple_infer DEVICE batch :
  triple Iout P E Iout (infer lib DEVICE batch) (fun _ => Iout).
Proof.
  unfold infer.
  apply triple_bind with (mid := fun _ => Iout).
  { apply triple_opaque; [apply calls|done|done]. }
  intros ?. apply triple_bind with (mid := fun _ => Iout).
  { apply triple_modify. intros w Hw. split; [done|]. by apply Iout_img. }
  intros ?. cbn zeta. apply triple_bind with (mid := fun _ => Iout);
    [apply triple_transformed|].
  intros pre. apply triple_bind with (mid := fun _ => Iout);
    [apply triple_transformed|].
  intros post. apply triple_bind with (mid := fun _ => Iout);
    [|intros; by apply triple_ret].
  apply triple_no_grad. intros w0 Hw0.
  apply triple_conseq with (pre := Iin) (post := fun _ => Iin) (exc := Iin);
    [intros ? ->; by apply enter|intros ? w Hw; by apply leave
    |intros w Hw; by apply leave|].
  apply triple_bind with (mid := fun _ => Iin); [apply triple_call_rn_model|].
  intros e1. apply triple_bind with (mid := fun _ => Iin);
    [apply triple_call_rn_model|].
  intros e2. apply triple_bind with (mid := fun _ => Iin).
  { apply triple_lib_call; [apply concats| |done]. intros. by apply Iin_log. }
  intros c. apply triple_bind with (mid := fun _ => Iin).
  { apply triple_opaque; [apply calls|done|done]. }
  intros ?. apply triple_bind with (mid := fun _ => Iin).
  { apply triple_opaque; [apply calls|done|done]. }
  intros ?. by apply triple_ret.
Qed.

End Infer_rule.

End Triples.

(** ** [infer], whatever the library does *)

Lemma zip_with_app_width {A : Type} (a b : list (list A)) (n1 n2 : nat) :
  Forall (fun row => length row = n1) a ->
  Forall (fun row => length row = n2) b ->
  Forall (fun row => length row = (n1 + n2)%nat) (zip_with app a b).
Proof.
  intros Ha. revert b. induction Ha as [|r a Hr Ha IH]; intros b Hb; [done|].
  destruct Hb as [|r' b Hr' Hb]; [done|]. cbn. constructor.
  - rewrite length_app. lia.
  - by apply IH.
Qed.

(** X6. The array [infer] returns has one row per image of the batch and
    twice the width of the extractor's output, when the transform and the
    extractor keep the batch size and the extractor gives rows of one
    width. *)
Theorem infer_embedding_shape DEVICE batch (w : World) (d : nat) embs labs w' :
  keeps_samples lib ->
  (forall W is_training grad x r W',
     forward lib W is_training grad x = (Ok r, W') ->
     Forall (fun row => length row = d) r) ->
  infer lib DEVICE batch w = (Ok (embs, labs), w') ->
  length embs = length (image batch) /\
  Forall (fun row => length row = (2 * d)%nat) embs /\
  labs = label batch.
Proof.
  intros [Htrans Hfwd] Hwidth H.
  destruct (infer_ok_inv _ _ _ _ _ _ H)
    as (dpre & dpost & pre & post & m & e1 & e2 & W1 & W2 &
        Hdpre & Hpre & Hdpost & Hpost & Hm & H1 & H2 & Hc & ->).
  destruct (Htrans _ _ Hdpre) as (y1 & Hy1 & Hlen1).
  destruct (Htrans _ _ Hdpost) as (y2 & Hy2 & Hlen2).
  simplify_eq.
  pose proof (Hfwd _ _ _ _ _ _ H1) as He1.
  pose proof (Hfwd _ _ _ _ _ _ H2) as He2.
  unfold slice_to, slice_from in *. rewrite length_map in *.
  unfold torch_concat in Hc.
  destruct (Nat.eqb_spec (length e1) (length e2)); [|discriminate].
  injection Hc as <-. split; [|split; [|done]].
  - rewrite length_zip_with. lia.
  - replace (2 * d)%nat with (d + d)%nat by lia.
    apply zip_with_app_width; eauto.
Qed.

(** What a triple says of a run that raised. *)
Lemma triple_raised {A : Type} pre P E exc (m : M lib A) post (w : World) e evs :
  triple pre P E exc m post -> pre w ->
  (m w).1 = Raise e -> log (m w).2 = log w ++ evs ->
  exc (m w).2 /\ Forall P evs /\ (all_ok evs -> E e).
Proof.
  intros H Hw Hr Hlog. destruct (H w Hw) as (evs' & Hlog' & HP & Hres).
  rewrite Hlog in Hlog'. apply app_inv_head in Hlog'. subst evs'.
  rewrite Hr in Hres. tauto.
Qed.

(** What a triple says of the state a run ends in, when [post] and [exc]
    are one assertion. *)
Lemma triple_kept {A : Type} pre P E (I : World -> Prop) (m : M lib A)
    (w : World) :
  triple pre P E I m (fun _ => I) -> pre w ->
  I (m w).2 /\ exists evs, log (m w).2 = log w ++ evs /\ Forall P evs.
Proof.
  intros H Hw. destruct (H w Hw) as (evs & Hlog & HP & Hres).
  split; [|by exists evs]. destruct (m w).1; tauto.
Qed.

(** X7. Whatever the library does and whether [infer] returns or raises, it
    leaves the gradient mode and the mode of the module as they were, and no
    forward pass it makes tracks gradients. *)
Theorem infer_never_tracks_gradients DEVICE batch (w : World) :
  let w' := (infer lib DEVICE batch w).2 in
  grad_enabled w' = grad_enabled w /\
  training <$> rn_model w' = training <$> rn_model w /\
  exists evs, log w' = log w ++ evs /\ Forall without_grad evs.
Proof.
  pose (Iout := fun v : World =>
    grad_enabled v = grad_enabled w /\
    training <$> rn_model v = training <$> rn_model w).
  pose (Iin := fun v : World =>
    grad_enabled v = false /\
    training <$> rn_model v = training <$> rn_model w).
  assert (H : triple Iout without_grad (fun _ => True) Iout
                (infer lib DEVICE batch) (fun _ => Iout)).
  { apply triple_infer with (Iin := Iin); subst Iout Iin; cbn; try done.
    - intros v [_ Ht]. done.
    - intros w0 v [Hg _] [_ Ht]. done.
    - intros v m x o [Hg Ht] Hm. split; [|exact Hg].
      split; [done|]. by rewrite <- Ht, Hm. }
  assert (Hw : Iout w) by (unfold Iout; done).
  destruct (triple_kept _ _ _ _ _ w H Hw) as [[Hg Ht] Hevs].
  done.
Qed.


(** ** The notebook, stage by stage *)

Ltac not_all_ok :=
  let Hok := fresh "Hok" in
  intros Hok; exfalso; cbn in Hok; unfold all_ok in Hok;
  repeat match goal with
  | H : Forall _ (_ :: _) |- _ =>
      apply Forall_cons in H; destruct H as [? H]; cbn in *
  end;
  discriminate.

(** Closes a goal of [triple] once the statement has been run. *)
Ltac ran :=
  first [ exists []; split; [symmetry; apply app_nil_r|]
        | eexists; split; [rewrite <- ?app_assoc; reflexivity|] ];
  split; [repeat constructor|]; first [split; [exact I|not_all_ok] | idtac].

Lemma defaultdict_append_nonempty {V : Type} k (x : V) (d : dict (list V)) :
  Forall (fun kv : string * list V => kv.2 <> []) d ->
  Forall (fun kv : string * list V => kv.2 <> []) (defaultdict_append k x d).
Proof.
  induction 1 as [|[k' v] d Hv Hd IH]; cbn.
  - by repeat constructor.
  - destruct (String.eqb k' k); constructor; try done.
    cbn. by destruct v.
Qed.

Lemma triple_infer_stage DEVICE batch :
  triple stage_loops regular_call missing_key (fun _ => True)
    (infer lib DEVICE batch) (fun _ => stage_loops).
Proof.
  apply triple_conseq with (pre := stage_loops) (post := fun _ => stage_loops)
    (exc := stage_loops); [done|done|done|].
  apply triple_infer with (Iin := stage_forward); try done.
  - intros w ((Hg & Hsub & Hev) & Hne). done.
  - intros w0 w ((Hg & _) & _) (_ & Hsub & Hev & Hne). done.
  - by left.
  - intros w (_ & _ & (m & Hm & _) & _) Hnone. congruence.
  - intros w m x o (Hg & Hsub & (m' & Hm' & Ht) & Hne) Hm.
    assert (m' = m) as -> by congruence.
    split; [|by split; [split|]].
    split; [done|]. split; [done|]. split; [|done].
    eexists. split; [reflexivity|]. exact Ht.
Qed.

Lemma triple_append_pair split pair :
  triple stage_loops regular_call missing_key (fun _ => True)
    (append_pair lib split pair) (fun _ => stage_loops).
Proof.
  intros w (Hm & Hne). rewrite append_pair_run. cbn.
  exists []. rewrite app_nil_r. split; [done|]. split; [constructor|].
  split; [exact Hm|]. by apply defaultdict_append_nonempty.
Qed.

Lemma triple_extract p DEVICE loader data split :
  triple stage_loops regular_call missing_key (fun _ => True)
    (extract lib p DEVICE loader data split) (fun _ => stage_loops).
Proof.
  unfold extract.
  apply triple_bind with (mid := fun _ => stage_loops).
  { apply triple_lib_call; [done| |done]. by intros. }
  intros it. apply triple_for_loader; [done|by intros|done|].
  intros b. apply triple_bind with (mid := fun _ => stage_loops).
  { apply triple_infer_stage. }
  intros r. apply triple_for_each. intros pair. apply triple_append_pair.
Qed.

Lemma triple_cell_embeddings p DEVICE :
  triple stage_model regular_call missing_key (fun _ => True)
    (cell_embeddings lib p DEVICE) (fun _ => stage_model).
Proof.
  unfold cell_embeddings.
  apply triple_bind with (mid := fun _ => stage_loops).
  { apply triple_modify. intros w Hw. split; [done|]. split; [exact Hw|].
    constructor. }
  intros ?. apply triple_bind with (mid := fun _ => stage_loops).
  { apply triple_modify. intros w Hw. split; [done|]. exact Hw. }
  intros ?. apply triple_get_bind. intros w0 Hw0.
  apply triple_conseq with (pre := stage_loops) (post := fun _ => stage_model)
    (exc := fun _ => True); [by intros ? ->|done|done|].
  apply triple_bind with (mid := fun _ => stage_loops);
    [apply triple_extract|].
  intros ?. apply triple_get_bind. intros w1 Hw1.
  apply triple_conseq with (pre := stage_loops) (post := fun _ => stage_model)
    (exc := fun _ => True); [by intros ? ->|done|done|].
  apply triple_bind with (mid := fun _ => stage_loops);
    [apply triple_extract|].
  intros ?. apply triple_get_bind. intros w2 Hw2.
  apply triple_conseq with (pre := stage_loops) (post := fun _ => stage_model)
    (exc := fun _ => True); [by intros ? ->|done|done|].
  apply triple_bind with (mid := fun _ => stage_loops).
  { apply triple_dict_comprehension; [|by intros|done].
    destruct Hw2 as [_ Hne]. eapply Forall_impl; [exact Hne|].
    intros [k v] Hv. split; [exact I|exact Hv]. }
  intros stacked. apply triple_bind with (mid := fun _ => stage_model).
  { apply triple_modify. intros w [Hw _]. split; [done|]. exact Hw. }
  intros ?. apply triple_get_bind. intros w3 Hw3.
  apply triple_conseq with (pre := stage_model) (post := fun _ => stage_model)
    (exc := fun _ => True); [by intros ? ->|done|done|].
  apply triple_bind with (mid := fun _ => stage_model).
  { apply triple_dict_comprehension; [|by intros|done].
    apply Forall_forall. intros [k v] _. done. }
  intros arrays. apply triple_modify. intros w Hw. split; [done|]. exact Hw.
Qed.

(** Steps through a cell that keeps the assertion [I]. *)
Ltac keeping I :=
  repeat lazymatch goal with
  | |- triple _ _ _ _ (bind get _) _ =>
      apply triple_get_bind; intros ? ?;
      apply triple_conseq with (pre := I) (post := fun _ => I)
        (exc := fun _ => True);
      [by intros ? ->|done|done|]
  | |- triple _ _ _ _ (bind _ _) _ =>
      apply triple_bind with (mid := fun _ => I); [|intros ?]
  | |- triple _ _ _ _ (opaque _ _) _ =>
      apply triple_opaque; [done|by intros|done]
  | |- triple _ _ _ _ (lib_call _ _ _) _ =>
      apply triple_lib_call; [done|by intros|done]
  | |- triple _ _ _ _ (subscript _ _ _) _ =>
      apply triple_subscript; [unfold missing_key; tauto|done]
  | |- triple _ _ _ _ (ret _) _ =>
      apply triple_ret; done
  end.

Lemma triple_cell_datamodule :
  triple stage_start regular_call missing_key (fun _ => True)
    (cell_datamodule lib)
    (fun _ => stage_start).
Proof. unfold cell_datamodule. keeping (@stage_start lib). Qed.

Lemma triple_cell_prepare_data :
  triple stage_start regular_call missing_key (fun _ => True)
    (cell_prepare_data lib)
    (fun _ => stage_start).
Proof. unfold cell_prepare_data. keeping (@stage_start lib). Qed.

Lemma triple_cell_plot :
  triple stage_start regular_call missing_key (fun _ => True)
    (cell_plot lib)
    (fun _ => stage_setup).
Proof.
  intros w Hw. destruct w as [tr va te rm ge em la im lg].
  unfold stage_start in Hw. cbn in Hw. subst ge.
  unfold cell_plot, datamodule_setup_fit, datamodule_setup_test,
    val_dataset_first, opaque, lib_call, bind, get, modify, ret, raise. cbn.
  outcomes; try (destruct (getitem lib (datasets_fit lib).2 0); cbn);
    outcomes; ran; done.
Qed.

Lemma triple_cell_device :
  triple stage_setup regular_call missing_key (fun _ => True)
    (cell_device lib)
    (fun _ => stage_setup).
Proof. unfold cell_device. keeping (@stage_setup lib). Qed.

Lemma triple_cell_subsample :
  triple stage_setup regular_call missing_key (fun _ => True)
    (cell_subsample lib)
    (fun _ => stage_subsampled).
Proof.
  intros w (Hg & Htr & Hva & Hte).
  unfold cell_subsample, dataset_data, bind, get, modify, ret. cbn.
  rewrite Htr. cbn. rewrite Hva. cbn. rewrite Hte. cbn.
  ran. done.
Qed.

Lemma triple_cell_model DEVICE :
  triple stage_subsampled regular_call missing_key (fun _ => True)
    (cell_model lib DEVICE)
    (fun _ => stage_model).
Proof.
  unfold cell_model.
  apply triple_bind with (mid := fun _ => stage_subsampled);
    [keeping (@stage_subsampled lib)|intros ?].
  apply triple_bind with (mid := fun _ => stage_subsampled);
    [keeping (@stage_subsampled lib)|intros ?].
  apply triple_bind with (mid := fun _ => stage_subsampled);
    [keeping (@stage_subsampled lib)|intros ?].
  apply triple_modify. intros w [Hg Hsub]. split; [done|].
  split; [exact Hg|]. split; [exact Hsub|]. eexists. split; reflexivity.
Qed.

Lemma triple_cell_classifier :
  triple stage_model regular_call missing_key (fun _ => True)
    (cell_classifier lib)
    (fun _ => stage_model).
Proof. unfold cell_classifier. keeping (@stage_model lib). Qed.

Lemma triple_cell_trainer :
  triple stage_model regular_call missing_key (fun _ => True)
    (cell_trainer lib)
    (fun _ => stage_model).
Proof. unfold cell_trainer. keeping (@stage_model lib). Qed.

Lemma triple_notebook p :
  triple stage_start regular_call missing_key (fun _ => True)
    (notebook lib p)
    (fun _ => stage_model).
Proof.
  unfold notebook, up_to_embeddings.
  apply triple_bind with (mid := fun _ => stage_model).
  { apply triple_bind with (mid := fun _ => stage_start);
      [apply triple_cell_datamodule|intros ?].
    apply triple_bind with (mid := fun _ => stage_start);
      [apply triple_cell_prepare_data|intros ?].
    apply triple_bind with (mid := fun _ => stage_setup);
      [apply triple_cell_plot|intros ?].
    apply triple_bind with (mid := fun _ => stage_setup);
      [apply triple_cell_device|intros DEVICE].
    apply triple_bind with (mid := fun _ => stage_subsampled);
      [apply triple_cell_subsample|intros ?].
    apply triple_bind with (mid := fun _ => stage_model);
      [apply triple_cell_model|intros ?].
    apply triple_cell_embeddings. }
  intros ?. apply triple_bind with (mid := fun _ => stage_model);
    [apply triple_cell_classifier|intros ?].
  apply triple_bind with (mid := fun _ => stage_model);
    [unfold cell_task; keeping (@stage_model lib)|intros ?].
  apply triple_bind with (mid := fun _ => stage_model);
    [apply triple_cell_trainer|intros ?].
  apply triple_bind with (mid := fun _ => stage_model);
    [unfold cell_fit; keeping (@stage_model lib)|intros ?].
  unfold cell_test; keeping (@stage_model lib).
Qed.

(** X9. When the notebook raises although no library call failed, the
    exception is a [KeyError] for "image", "train" or "test". *)
Theorem notebook_raises_only_missing_keys p e :
  (notebook lib p (initial lib)).1 = Raise e ->
  all_ok (log (notebook lib p (initial lib)).2) ->
  e = KeyError "image" \/ e = KeyError "train" \/ e = KeyError "test".
Proof.
  intros Hr Hok.
  destruct (triple_notebook p (initial lib) ltac:(done)) as (evs & Hlog & _ & H).
  rewrite Hr in H. destruct H as [_ H]. change (log (initial lib) ++ evs) with evs in Hlog.
  rewrite Hlog in Hok. exact (H Hok).
Qed.

(** X10. Every forward pass of a run of the notebook is made in evaluation
    mode and without gradient tracking. *)
Theorem notebook_forward_passes_in_eval_mode p :
  Forall eval_no_grad (log (notebook lib p (initial lib)).2).
Proof.
  destruct (triple_notebook p (initial lib) ltac:(done)) as (evs & Hlog & HP & _).
  change (log (initial lib) ++ evs) with evs in Hlog.
  rewrite Hlog. eapply Forall_impl; [exact HP|]. by intros en [? _].
Qed.

(** X11. In no run of the notebook is [np.stack] given an empty list. *)
Theorem notebook_never_stacks_nothing p :
  Forall stacks_something (log (notebook lib p (initial lib)).2).
Proof.
  destruct (triple_notebook p (initial lib) ltac:(done)) as (evs & Hlog & HP & _).
  change (log (initial lib) ++ evs) with evs in Hlog.
  rewrite Hlog. eapply Forall_impl; [exact HP|]. by intros en [_ ?].
Qed.


(** ** The module through the extraction cell *)

(** An assertion on the module alone that [infer] keeps is kept by the
    extraction cell, whether it returns or raises. *)
Lemma triple_cell_embeddings_module (I : option (Module lib) -> Prop)
    p DEVICE :
  (forall batch,
     triple (fun w => I (rn_model w)) (fun _ => True) (fun _ => True)
       (fun w => I (rn_model w)) (infer lib DEVICE batch)
       (fun _ w => I (rn_model w))) ->
  triple (fun w => I (rn_model w)) (fun _ => True) (fun _ => True)
    (fun w => I (rn_model w)) (cell_embeddings lib p DEVICE)
    (fun _ w => I (rn_model w)).
Proof.
  intros Hinfer. unfold cell_embeddings, extract, append_pair.
  repeat lazymatch goal with
  | |- triple _ _ _ _ (bind get _) _ =>
      apply triple_get_bind; intros ? ?;
      apply triple_conseq with (pre := fun w => I (rn_model w))
        (post := fun _ w => I (rn_model w)) (exc := fun w => I (rn_model w));
      [by intros ? ->|done|done|]
  | |- triple _ _ _ _ (bind _ _) _ =>
      apply triple_bind with (mid := fun _ w => I (rn_model w)); [|intros ?]
  | |- triple _ _ _ _ (modify _) _ =>
      apply triple_modify; by intros
  | |- triple _ _ _ _ (lib_call _ _ _) _ =>
      apply triple_lib_call; [done|by intros|by intros]
  | |- triple _ _ _ _ (for_loader _ _ _ _ _) _ =>
      apply triple_for_loader; [done|by intros|by intros|intros ?]
  | |- triple _ _ _ _ (for_each _ _ _) _ =>
      apply triple_for_each; intros ?
  | |- triple _ _ _ _ (dict_comprehension _ _ _) _ =>
      apply triple_dict_comprehension;
      [by apply Forall_forall|by intros|by intros]
  | |- triple _ _ _ _ (infer _ _ _) _ => apply Hinfer
  end.
Qed.

(** With a forward pass that leaves the weights in evaluation mode without
    gradient tracking, [infer] keeps a module in evaluation mode as it is. *)
Lemma triple_infer_module (M0 : Module lib) DEVICE batch :
  training M0 = false ->
  (forall W x, (forward lib W false false x).2 = W) ->
  triple (fun w => rn_model w = Some M0) (fun _ => True) (fun _ => True)
    (fun w => rn_model w = Some M0) (infer lib DEVICE batch)
    (fun _ w => rn_model w = Some M0).
Proof.
  intros Heval Hframe.
  apply triple_infer
    with (Iin := fun w => rn_model w = Some M0 /\ grad_enabled w = false);
    try done.
  - by intros w0 w _ [Hm _].
  - intros w m x _ [Hm Hg] Hm'. rewrite Hm in Hm'. injection Hm' as <-.
    split; [|done]. split; [|exact Hg]. cbn.
    rewrite Hg, Heval, Hframe. destruct M0 as [W0 t0]. cbn in *. by subst.
Qed.

Lemma cell_embeddings_keeps_module (M0 : Module lib) p DEVICE (w : World) :
  training M0 = false ->
  (forall W x, (forward lib W false false x).2 = W) ->
  rn_model w = Some M0 ->
  rn_model (cell_embeddings lib p DEVICE w).2 = Some M0.
Proof.
  intros Heval Hframe Hm.
  pose proof (triple_cell_embeddings_module (fun m => m = Some M0) p DEVICE
                (fun batch => triple_infer_module M0 DEVICE batch Heval Hframe))
    as H.
  by destruct (triple_kept _ _ _ _ _ w H Hm) as [Hkept _].
Qed.

(** ** [infer] as a frame *)

(** The cell that loads the model leaves the pretrained module in
    evaluation mode. *)
Lemma cell_model_loads DEVICE (w0 w1 : World) :
  cell_model lib DEVICE w0 = (Ok tt, w1) ->
  rn_model w1 = Some {| weights := pretrained lib; training := false |}.
Proof.
  unfold cell_model, opaque, lib_call, bind, modify. cbn.
  repeat match goal with
  | |- context [match raises lib ?f with _ => _ end] =>
      destruct (raises lib f); cbn
  end; intros [= <-]; done.
Qed.

(** With a transform that writes nothing into its input, [img] ends as it
    was bound. *)
Lemma infer_leaves_img DEVICE batch (w : World) :
  (forall d i c plane, transform_writes lib d i c plane = plane) ->
  raises lib (tensor_to DEVICE) = None ->
  img (infer lib DEVICE batch w).2 = image batch.
Proof.
  intros Hwrites Hto.
  unfold infer, transformed, call_rn_model, no_grad, opaque, lib_call.
  unfold bind, get, modify, ret, raise.
  cbn zeta. rewrite Hto. cbn.
  repeat match goal with
  | |- context [match raises lib ?f with _ => _ end] =>
      destruct (raises lib f); cbn
  | |- context [match model_transform lib ?d with _ => _ end] =>
      destruct (model_transform lib d); cbn
  | |- context [match ?d !! "image" with _ => _ end] =>
      destruct (d !! "image"); cbn
  | |- context [match rn_model ?w with _ => _ end] =>
      destruct (rn_model w); cbn
  | |- context [match (forward lib ?W ?t ?g ?x).1 with _ => _ end] =>
      destruct ((forward lib W t g x).1); cbn
  | |- context [match torch_concat ?a ?b with _ => _ end] =>
      destruct (torch_concat a b); cbn
  end;
  rewrite ?write_from_same by (intros; apply Hwrites);
  rewrite ?write_to_same by (intros; apply Hwrites); done.
Qed.


(** ** The classifier cell without a split *)

(** X13. The classifier cell raises [KeyError] for a split that is missing
    from the embeddings: for "train" right after the forest is constructed,
    before anything is fitted; for "test" once the forest is fitted on the
    train split, before anything is predicted. *)
Theorem cell_classifier_needs_both_splits (w : World) :
  raises lib RandomForestClassifier_new = None ->
  (dict_get "train" (embeddings w) = None ->
   cell_classifier lib w =
     (Raise (KeyError "train"),
      set_log (log w ++ [(Call RandomForestClassifier_new, None)]) w)) /\
  (forall X y clf,
     dict_get "train" (embeddings w) = Some X ->
     dict_get "train" (labels w) = Some y ->
     fit lib X y = Ok clf ->
     dict_get "test" (embeddings w) = None ->
     cell_classifier lib w =
       (Raise (KeyError "test"),
        set_log (log w ++ [(Call RandomForestClassifier_new, None);
                           (Fit X y, None)]) w)).
Proof.
  intros Hnew. split.
  - intros Htrain.
    unfold cell_classifier, opaque, lib_call, subscript, bind, get, raise.
    rewrite Hnew. cbn. rewrite Htrain. done.
  - intros X y clf HX Hy Hfit Htest.
    unfold cell_classifier, opaque, lib_call, subscript, bind, get, ret, raise.
    rewrite Hnew. cbn. rewrite HX, Hy. cbn. rewrite Hfit. cbn.
    rewrite Htest. cbn. by rewrite <- app_assoc.
Qed.

End Facts.

(** * Examples and counterexamples on the small libraries *)

Lemma run_eta {A B : Type} (r : A * B) (a : A) : r.1 = a -> r = (a, r.2).
Proof. destruct r. cbn. by intros ->. Defined.

(** The two slices of one 4-channel image. *)
Lemma pre_post_slices_partition_witness :
  Forall (fun im : list Z => length im = 4%nat) [[5; 6; 7; 8]] /\
  slice_to 2 [[5; 6; 7; 8]] = [[5; 6]] /\
  slice_from 2 [[5; 6; 7; 8]] = [[7; 8]] /\
  torch_concat (slice_to 2 [[5; 6; 7; 8]]) (slice_from 2 [[5; 6; 7; 8]])
    = Ok [[5; 6; 7; 8]].
Proof.
  assert (H4 : Forall (fun im : list Z => length im = 4%nat) [[5; 6; 7; 8]])
    by (repeat constructor).
  split; [exact H4|].
  destruct (pre_post_slices_partition toy_full [[5; 6; 7; 8]] H4)
    as (H1 & H2 & _ & _ & H5 & _).
  split; [exact H1|]. split; [exact H2|]. exact H5.
Defined.

(** The subsampling of 30, 10 and 10 samples keeps 3, 1 and 1. *)
Lemma cell_subsample_keeps_first_tenth_witness :
  exists w',
    cell_subsample toy_full
      (toy_world toy_full (numbers 0 30) (numbers 30 10) (numbers 40 10))
    = (Ok tt, w') /\
    train_data w' = Some [0; 1; 2] /\
    val_data w' = Some [30] /\
    test_data w' = Some [40].
Proof.
  destruct (cell_subsample_keeps_first_tenth toy_full
              (toy_world toy_full (numbers 0 30) (numbers 30 10) (numbers 40 10))
              (numbers 0 30) (numbers 30 10) (numbers 40 10)
              eq_refl eq_refl eq_refl)
    as (w' & Hrun & Htr & Hva & Hte & _).
  exists w'. split; [exact Hrun|].
  split; [exact Htr|]. split; [exact Hva|]. exact Hte.
Defined.

(** Far beyond any list that fits in memory the double product rounds up:
    for a length of [10 ^ 17 - 1] the stop index is [10 ^ 16], one more than
    the integer part of the tenth. *)
Lemma subsample_len_far_out :
  subsample_len (10 ^ 17 - 1) = 10 ^ 16 /\ (10 ^ 17 - 1) / 10 = 10 ^ 16 - 1.
Proof. split; vm_compute; reflexivity. Qed.

(** [infer] on the batch made from sample 5. *)
Lemma infer_returns_concatenated_embeddings_witness :
  exists w',
    infer toy_full "cpu" (toy_batch 5) (toy_world toy_full [] [] [])
    = (Ok ([[13; 7; 17; 7]], [false]), w') /\
    grad_enabled w' = true.
Proof.
  destruct (infer_returns_concatenated_embeddings toy_full "cpu" (toy_batch 5)
              (toy_world toy_full [] [] [])
              (Build_Module toy_full 7 false)
              (toy_transform {[ "image" := [[5; 6]] ]})
              (toy_transform {[ "image" := [[7; 8]] ]})
              [[6; 7]] [[8; 9]] [[13; 7]] [[17; 7]] 7 7)
    as (w' & Hrun & Hgrad & _).
  - repeat constructor.
  - reflexivity.
  - reflexivity.
  - reflexivity.
  - reflexivity.
  - vm_compute. reflexivity.
  - reflexivity.
  - vm_compute. reflexivity.
  - reflexivity.
  - reflexivity.
  - reflexivity.
  - reflexivity.
  - exists w'. split; [exact Hrun|exact Hgrad].
Defined.


(** A transform that works in place writes into the batch, when the batch
    is on the device: the contract on the transform is needed. *)
Lemma in_place_transform_writes_to_batch :
  let w := (cell_model toy_in_place "cpu" (initial toy_in_place)).2 in
  let r := infer toy_in_place "cpu" (toy_batch 5) w in
  image (toy_batch 5) = [[5; 6; 7; 8]] /\
  batch_image_after toy_in_place true "cpu" (toy_batch 5) r.2 = [[6; 7; 8; 9]] /\
  batch_image_after toy_in_place false "cpu" (toy_batch 5) r.2 = [[5; 6; 7; 8]] /\
  r.1 = Ok ([[13; 7; 17; 7]], label (toy_batch 5)).
Proof. vm_compute. done. Qed.

(** Embeddings and labels stay paired from the state before the first cell
    and through the extraction of the example: one more of each after an
    append, three of each for "train" and one of each for "test" in the
    arrays. *)
Lemma embeddings_and_labels_stay_paired_witness :
  balanced (initial toy_full) /\
  (let w' := (append_pair toy_full "train" ([13; 7; 17; 7], false)
                (initial toy_full)).2 in
   dict_get "train" (embeddings w') = Some [[13; 7; 17; 7]] /\
   dict_get "train" (labels w') = Some [false]) /\
  (let w' := (cell_embeddings toy_full mock_params "cpu"
                (toy_world toy_full [0; 1; 2] [30] [40])).2 in
   balanced w' /\
   length (items_of "train" (embeddings w')) = 3%nat /\
   length (items_of "train" (labels w')) = 3%nat /\
   length (items_of "test" (embeddings w')) = 1%nat /\
   length (items_of "test" (labels w')) = 1%nat).
Proof.
  split; [reflexivity|]. split.
  - destruct (embeddings_and_labels_stay_paired toy_full mock_params "cpu"
                (initial toy_full))
      as (Hpair & _); [reflexivity|].
    destruct (Hpair "train" ([13; 7; 17; 7], false)) as (He & Hl & _).
    split; [exact He|exact Hl].
  - destruct (embeddings_and_labels_stay_paired toy_full mock_params "cpu"
                (toy_world toy_full [0; 1; 2] [30] [40]))
      as (_ & _ & _ & _ & _ & _ & _ & Hcell & Hdim & _); [reflexivity|].
    destruct (Hdim "train") as [_ Htrain]. destruct (Hdim "test") as [_ Htest].
    cbv zeta in Htrain, Htest. cbv zeta.
    assert (H3 : length (items_of "train" (labels (cell_embeddings toy_full
                   mock_params "cpu" (toy_world toy_full [0; 1; 2] [30] [40])).2))
                 = 3%nat) by (vm_compute; reflexivity).
    assert (H1 : length (items_of "test" (labels (cell_embeddings toy_full
                   mock_params "cpu" (toy_world toy_full [0; 1; 2] [30] [40])).2))
                 = 1%nat) by (vm_compute; reflexivity).
    split; [exact Hcell|].
    split; [exact (eq_trans Htrain H3)|]. split; [exact H3|].
    split; [exact (eq_trans Htest H1)|exact H1].
Defined.

(** The classifier cell on the arrays the example leaves. *)
Lemma cell_classifier_fits_train_evaluates_test_witness :
  let w := @set_labels toy_full
             [("train", [true; false; true]); ("test", [true])]
             (@set_embeddings toy_full
                [("train", [[3; 7; 7; 7]; [5; 7; 9; 7]; [7; 7; 11; 7]]);
                 ("test", [[83; 7; 87; 7]])]
                (initial toy_full)) in
  (cell_classifier toy_full w).1 = Ok tt /\
  log (cell_classifier toy_full w).2 =
    [ (Call RandomForestClassifier_new, None);
      (@Fit toy_full [[3; 7; 7; 7]; [5; 7; 9; 7]; [7; 7; 11; 7]]
         [true; false; true], None);
      (@Predict toy_full [[83; 7; 87; 7]], None);
      (@Report toy_full [true] [true], None);
      (Print "report", None) ].
Proof.
  intros w.
  rewrite (cell_classifier_fits_train_evaluates_test toy_full w
             [[3; 7; 7; 7]; [5; 7; 9; 7]; [7; 7; 11; 7]] [[83; 7; 87; 7]]
             [true; false; true] [true] [true] [true; false; true] "report"
             eq_refl eq_refl eq_refl eq_refl eq_refl eq_refl eq_refl eq_refl).
  split; reflexivity.
Defined.

(** The extraction on three train samples and one test sample. *)
Lemma cell_embeddings_collects_per_split_witness :
  exists w',
    cell_embeddings toy_full mock_params "cpu"
      (toy_world toy_full [0; 1; 2] [30] [40]) = (Ok tt, w') /\
    embeddings w' =
      [("train", [[3; 7; 7; 7]; [5; 7; 9; 7]; [7; 7; 11; 7]]);
       ("test", [[83; 7; 87; 7]])] /\
    labels w' = [("train", [true; false; true]); ("test", [true])] /\
    dict_keys (embeddings w') = ["train"; "test"].
Proof.
  pose (w := toy_world toy_full [0; 1; 2] [30] [40]).
  pose (r1 := infer_all toy_full "cpu" (map toy_batch [0; 1; 2]) w).
  pose (r2 := infer_all toy_full "cpu" (map toy_batch [40]) r1.2).
  destruct (cell_embeddings_collects_per_split toy_full mock_params "cpu"
              w r1.2 r2.2 (map toy_batch [0; 1; 2]) (map toy_batch [40])
              [([[3; 7; 7; 7]], [true]); ([[5; 7; 9; 7]], [false]);
               ([[7; 7; 11; 7]], [true])]
              [([[83; 7; 87; 7]], [true])])
    as (w' & Hrun & Hemb & Hlab & Hkeys & _).
  - reflexivity.
  - reflexivity.
  - apply run_eta. vm_compute. reflexivity.
  - apply run_eta. vm_compute. reflexivity.
  - exists 4%nat. repeat constructor.
  - exists 4%nat. repeat constructor.
  - exists w'. split; [exact Hrun|]. split; [exact Hemb|]. split; [exact Hlab|].
    apply Hkeys; discriminate.
Defined.

(** C4 fails as stated, in two ways.  With nine test samples the
    subsampling leaves none, the test loader yields no batch, and the
    extraction ends normally with the key "train" only.  With an extractor
    that returns two rows per image, [infer] produces six rows for the three
    train batches, of which [zip] pairs three with a label: the array under
    "train" is not the stack of every row. *)
Lemma extraction_misses_a_key_or_rows :
  (let r := up_to_embeddings toy_small_test mock_params (initial toy_small_test) in
   r.1 = Ok tt /\
   dict_keys (embeddings r.2) = ["train"] /\
   dict_keys (labels r.2) = ["train"] /\
   dict_keys (embeddings r.2) <> ["train"; "test"]) /\
  (let w := toy_world toy_two_rows [0; 1; 2] [30] [40] in
   let r := cell_embeddings toy_two_rows mock_params "cpu" w in
   let rs := [ ([[3; 7; 7; 7]; [7; 7; 7; 7]], [true]);
               ([[5; 7; 9; 7]; [7; 7; 7; 7]], [false]);
               ([[7; 7; 11; 7]; [7; 7; 7; 7]], [true]) ] in
   r.1 = Ok tt /\
   (infer_all toy_two_rows "cpu" (map toy_batch [0; 1; 2]) w).1 = Ok rs /\
   dict_get "train" (embeddings r.2)
     = Some [[3; 7; 7; 7]; [5; 7; 9; 7]; [7; 7; 11; 7]] /\
   dict_get "train" (embeddings r.2) <> Some (concat rs.*1)).
Proof.
  split.
  - vm_compute. split; [reflexivity|]. split; [reflexivity|].
    split; [reflexivity|discriminate].
  - vm_compute. split; [reflexivity|]. split; [reflexivity|].
    split; [reflexivity|discriminate].
Qed.

(** The order of the calls in the complete run of the example. *)
Lemma steps_follow_the_tutorial_order_witness :
  let r := notebook toy_full mock_params (initial toy_full) in
  r.1 = Ok tt /\
  in_step_order (log r.2) /\
  train_before_test (log r.2) /\
  (forall s : step, s ∈ steps (log r.2)).
Proof.
  intros r.
  assert (Hok : r.1 = Ok tt) by (vm_compute; reflexivity).
  destruct (steps_follow_the_tutorial_order toy_full mock_params)
    as (Hord & Hloaders & Hall).
  split; [exact Hok|]. split; [exact Hord|]. split; [exact Hloaders|].
  exact (Hall Hok).
Defined.

(** A run whose download fails stops there with the error of the download. *)
Lemma library_failures_propagate_unchanged_witness :
  let r := notebook toy_download_fails mock_params (initial toy_download_fails) in
  log r.2 =
    [ (Call tempfile_gettempdir, None); (Call Path_new, None);
      (Call QuakeSetDataModule_new, None) ] ++
    (Call prepare_data, Some (OtherError "URLError" "no route to host")) :: [] /\
  r.1 = Raise (OtherError "URLError" "no route to host").
Proof.
  intros r.
  assert (Hlog : log r.2 =
    [ (Call tempfile_gettempdir, None); (Call Path_new, None);
      (Call QuakeSetDataModule_new, None) ] ++
    (Call prepare_data, Some (OtherError "URLError" "no route to host")) :: [])
    by (vm_compute; reflexivity).
  split; [exact Hlog|].
  destruct (library_failures_propagate_unchanged toy_download_fails mock_params
              _ _ _ _ Hlog) as (_ & _ & Hraise).
  exact Hraise.
Defined.

Lemma toy_keeps_samples : keeps_samples toy_full.
Proof.
  split.
  - intros x d' [= <-]. exists (map (map Z.succ) x). split.
    + unfold toy_transform. rewrite map_fmap_singleton. apply lookup_singleton_eq.
    + apply length_map.
  - intros W is_training grad x r W' [= <- _]. apply length_map.
Defined.

(** The run of the example completes. *)
Lemma notebook_runs_to_completion_witness :
  all_ok (log (notebook toy_full mock_params (initial toy_full)).2) /\
  keeps_samples toy_full /\
  (notebook toy_full mock_params (initial toy_full)).1 = Ok tt.
Proof.
  assert (Hok : all_ok (log (notebook toy_full mock_params (initial toy_full)).2))
    by (apply all_okb_true; vm_compute; reflexivity).
  split; [exact Hok|]. split; [exact toy_keeps_samples|].
  apply (notebook_runs_to_completion toy_full mock_params Hok toy_keeps_samples).
  - intros bs ending H. vm_compute in H. injection H as <- _.
    constructor. split; discriminate.
  - intros bs ending H. vm_compute in H. injection H as <- _.
    constructor. split; discriminate.
Defined.

(** C8 fails as stated.  In each of these runs every library call returns
    and the loaders yield finitely many batches, yet the notebook raises:
    the test loader yields no batch, or the transform returns a dict without
    the key "image", or the extractor returns no row. *)
Lemma notebook_raises_although_calls_return :
  (let r := notebook toy_small_test mock_params (initial toy_small_test) in
   all_ok (log r.2) /\ r.1 = Raise (KeyError "test")) /\
  (let r := notebook toy_drops_key mock_params (initial toy_drops_key) in
   all_ok (log r.2) /\ r.1 = Raise (KeyError "image")) /\
  (let r := notebook toy_no_rows mock_params (initial toy_no_rows) in
   all_ok (log r.2) /\ r.1 = Raise (KeyError "train")).
Proof.
  split; [|split];
    (split; [apply all_okb_true; vm_compute; reflexivity|vm_compute; reflexivity]).
Qed.

(** ** Examples for the rest of the notebook *)

(** Nine samples are too few for the subsampling to keep one. *)
Lemma subsample_empty_iff_short_witness :
  subsample (numbers 0 9) = [] /\ subsample (numbers 0 10) <> [].
Proof.
  split.
  - apply (subsample_empty_iff_short (numbers 0 9)); [reflexivity|].
    vm_compute. lia.
  - intros Hnil.
    apply (subsample_empty_iff_short (numbers 0 10)) in Hnil; [|reflexivity].
    vm_compute in Hnil. lia.
Defined.

(** Of two hundred, a hundred and three hundred samples, two runs of the
    subsampling cell leave two, one and three. *)
Lemma cell_subsample_twice_keeps_first_hundredth_witness :
  exists w',
    bind (cell_subsample toy_full) (fun _ => cell_subsample toy_full)
      (toy_world toy_full (numbers 0 200) (numbers 0 100) (numbers 0 300))
      = (Ok tt, w') /\
    train_data w' = Some [0; 1] /\
    val_data w' = Some [0] /\
    test_data w' = Some [0; 1; 2].
Proof.
  destruct (cell_subsample_twice_keeps_first_hundredth toy_full
              (toy_world toy_full (numbers 0 200) (numbers 0 100)
                 (numbers 0 300))
              (numbers 0 200) (numbers 0 100) (numbers 0 300)
              eq_refl eq_refl eq_refl eq_refl eq_refl eq_refl)
    as (w' & Hrun & Htr & Hva & Hte & _).
  exists w'. split; [exact Hrun|].
  split; [exact Htr|]. split; [exact Hva|exact Hte].
Defined.

Lemma toy_extractor_width W is_training grad x r W' :
  forward toy_full W is_training grad x = (Ok r, W') ->
  Forall (fun row => length row = 2%nat) r.
Proof.
  intros [= <- _]. unfold toy_extractor. apply Forall_fmap.
  by apply Forall_forall.
Qed.

(** One image in the batch, two numbers per forward pass: one row of four
    numbers. *)
Lemma infer_embedding_shape_witness :
  exists embs labs w',
    infer toy_full "cpu" (toy_batch 5) (toy_world toy_full [] [] [])
      = (Ok (embs, labs), w') /\
    length embs = 1%nat /\
    Forall (fun row => length row = 4%nat) embs.
Proof.
  pose (r := infer toy_full "cpu" (toy_batch 5) (toy_world toy_full [] [] [])).
  assert (Hrun : r = (Ok ([[13; 7; 17; 7]], [false]), r.2))
    by (apply run_eta; reflexivity).
  destruct (infer_embedding_shape toy_full "cpu" (toy_batch 5)
              (toy_world toy_full [] [] []) 2 _ _ _
              toy_keeps_samples toy_extractor_width Hrun)
    as (Hlen & Hwidth & _).
  eexists _, _, _. split; [exact Hrun|]. split; [exact Hlen|exact Hwidth].
Defined.


(** With nine test samples every call returns and the notebook raises
    [KeyError] for "test". *)
Lemma notebook_raises_only_missing_keys_witness :
  let r := notebook toy_small_test mock_params (initial toy_small_test) in
  r.1 = Raise (KeyError "test") /\
  (KeyError "test" = KeyError "image" \/ KeyError "test" = KeyError "train" \/
   KeyError "test" = KeyError "test").
Proof.
  intros r. split; [vm_compute; reflexivity|].
  apply (notebook_raises_only_missing_keys toy_small_test mock_params).
  - vm_compute. reflexivity.
  - apply all_okb_true. vm_compute. reflexivity.
Defined.


(** After the extraction on nine test samples, the forest is fitted and the
    cell raises for "test". *)
Lemma cell_classifier_needs_both_splits_witness :
  let w := (up_to_embeddings toy_small_test mock_params
              (initial toy_small_test)).2 in
  (cell_classifier toy_small_test w).1 = Raise (KeyError "test").
Proof.
  intros w.
  destruct (cell_classifier_needs_both_splits toy_small_test w eq_refl)
    as [_ Htest].
  rewrite (Htest [[3; 7; 7; 7]; [5; 7; 9; 7]; [7; 7; 11; 7]]
             [true; false; true] [true; false; true]);
    [reflexivity|vm_compute; reflexivity|vm_compute; reflexivity
    |reflexivity|vm_compute; reflexivity].
Defined.
